(** * MemoryGraph: a shallow embedding of the memory subsystem

    The development follows the Python sources:
    - [memory/vector_store.py]   (class VectorStore)
    - [memory/long_term.py]      (class LongTermMemoryManager)
    - [agents/memory_agent.py]   (the suggestion analyzer)
    - [agents/graph_builder.py]  (class MemoryAgentWorkflow)
    - [utils/session_manager.py] (class SessionManager)
    - [utils/embeddings.py]      (EmbeddingService.chunk_text)
    - [config.py]                (class Config)

    Conventions.  A Python [str] is a [string]; a [dict] is a [gmap] with
    string keys; an [Optional[T]] argument is an [option T]; a Python
    [float] is a rational [Q] (only comparisons, [1 - d] and literals are
    used, NaN and infinities are not modelled); a call that may raise
    returns a [result].  The external services (the OpenAI embedding
    endpoint, the ChromaDB collection, the language model, the clock and
    the uuid generator) are parameters of the definitions. *)

From Stdlib Require Import ZArith QArith Lia List Bool Ascii String.
From stdpp Require Import gmap strings list fin_maps.

Local Open Scope string_scope.
Local Open Scope Z_scope.

(** ** Python preliminaries *)

(** The outcome of a call: a value, or an exception carrying [str(e)]. *)
Inductive result (A : Type) : Type :=
| Ok (a : A)
| Raise (e : string).
Arguments Ok {A} a.
Arguments Raise {A} e.

(** Sequencing of calls that may raise: the first exception aborts the
    rest, as inside a Python [try] block. *)
#[global] Instance result_ret : MRet result := fun A a => Ok a.
#[global] Instance result_bind : MBind result := fun A B k r =>
  match r with
  | Ok a => k a
  | Raise e => Raise e
  end.

(** Truthiness of the values the sources test with [if x], [x and ...]
    or [x or default]. *)
Definition truthy_str (s : option string) : bool :=
  match s with
  | Some s => negb (String.eqb s "")
  | None => false
  end.

Definition truthy_float (q : option Q) : bool :=
  match q with
  | Some q => negb (Qnum q =? 0)
  | None => false
  end.

(** [x or default] on an optional integer. *)
Definition or_int (z : option Z) (default : Z) : Z :=
  match z with
  | Some z => if z =? 0 then default else z
  | None => default
  end.

Definition Qlt_bool (x y : Q) : bool := negb (Qle_bool y x).

(** [needle in hay] on strings. *)
Fixpoint contains (needle hay : string) : bool :=
  String.prefix needle hay ||
  match hay with
  | EmptyString => false
  | String _ rest => contains needle rest
  end.

(** [str.lower()], on the ASCII letters. *)
Definition lower_ascii (c : ascii) : ascii :=
  let n := nat_of_ascii c in
  if ((65 <=? n) && (n <=? 90))%nat then ascii_of_nat (n + 32) else c.

Fixpoint lower (s : string) : string :=
  match s with
  | EmptyString => EmptyString
  | String c rest => String (lower_ascii c) (lower rest)
  end.

(** [sep.join(parts)]. *)
Fixpoint join (sep : string) (parts : list string) : string :=
  match parts with
  | [] => ""
  | [p] => p
  | p :: rest => p ++ sep ++ join sep rest
  end.

(** ** config.py *)

Module Config.
Definition CHROMA_COLLECTION_NAME : string := "memory_collection".
Definition SHORT_TERM_MEMORY_SIZE : Z := 10.
Definition LONG_TERM_MEMORY_THRESHOLD : Q := 0.2.
Definition MAX_LONG_TERM_MEMORIES : Z := 5.
Definition CHUNK_SIZE : Z := 1000.
Definition CHUNK_OVERLAP : Z := 200.
End Config.

(** ** Namespace derivation (vector_store.py, session_manager.py) *)

Module Namespace.

(** [SessionManager.generate_collection_name]. *)
Definition generate_collection_name (user_id session_id : string) : string :=
  "user_" ++ user_id ++ "_session_" ++ session_id.

(** The collection name chosen by [VectorStore.__init__]. *)
Definition collection_name (collection_name user_id session_id : option string)
  : string :=
  if truthy_str user_id && truthy_str session_id then
    "user_" ++ default "" user_id ++ "_session_" ++ default "" session_id
  else if truthy_str user_id then
    "user_" ++ default "" user_id ++ "_global"
  else
    if truthy_str collection_name then default "" collection_name
    else Config.CHROMA_COLLECTION_NAME.

End Namespace.

(** ** The memory-suggestion analyzer (memory_agent.py) *)

Module Analyzer.

Record Suggestion := {
  s_type : string;
  s_content : string;
  s_reason : string;
  s_importance : Q
}.

Definition preference_keywords : list string :=
  ["i like"; "i prefer"; "i don't like"; "i hate"; "my favorite";
   "i love"; "i enjoy"].

Definition personal_keywords : list string :=
  ["my name is"; "i am"; "i work"; "i live"; "my job"].

Definition fact_keywords : list string :=
  ["remember that"; "important"; "don't forget"; "note that"].

(** [any(keyword in user_message.lower() for keyword in keywords)]. *)
Definition any_keyword (keywords : list string) (user_message : string) : bool :=
  existsb (fun keyword => contains keyword (lower user_message)) keywords.

Definition _analyze_for_memory_storage {M : Type}
    (user_message response : string) (relevant_memories : list M)
  : list Suggestion :=
  let suggestions : list Suggestion := [] in
  let suggestions :=
    if any_keyword preference_keywords user_message then
      (suggestions ++ [{| s_type := "preference"; s_content := user_message;
                          s_reason := "User expressed a preference";
                          s_importance := 0.8 |}])%list
    else suggestions in
  let suggestions :=
    if any_keyword personal_keywords user_message then
      (suggestions ++ [{| s_type := "fact"; s_content := user_message;
                          s_reason := "User shared personal information";
                          s_importance := 0.9 |}])%list
    else suggestions in
  let suggestions :=
    if any_keyword fact_keywords user_message then
      (suggestions ++ [{| s_type := "fact"; s_content := user_message;
                          s_reason := "User indicated this is important to remember";
                          s_importance := 0.8 |}])%list
    else suggestions in
  suggestions.

End Analyzer.

(** ** Text chunking (embeddings.py) *)

Module Embeddings.

(** A text is its sequence of characters; [len(text)] is an integer. *)
Definition len (t : list ascii) : Z := Z.of_nat (length t).

(** The bound of a slice, as Python normalises it: a negative index
    counts from the end, and both ends are clipped to [0, len]. *)
Definition clamp_index (n i : Z) : Z :=
  if i <? 0 then Z.max 0 (n + i) else Z.min i n.

(** [t[start:stop]]. *)
Definition slice (t : list ascii) (start stop : Z) : list ascii :=
  let lo := clamp_index (len t) start in
  let hi := clamp_index (len t) stop in
  take (Z.to_nat (hi - lo)) (drop (Z.to_nat lo) t).

(** [t.rfind(c)]: the highest index of [c], or -1. *)
Fixpoint rfind_from (c : ascii) (t : list ascii) (i found : Z) : Z :=
  match t with
  | [] => found
  | x :: rest => rfind_from c rest (i + 1) (if Ascii.eqb x c then i else found)
  end.

Definition rfind (c : ascii) (t : list ascii) : Z := rfind_from c t 0 (-1).

(** The ASCII characters [str.strip()] removes. *)
Definition is_space (c : ascii) : bool :=
  let n := nat_of_ascii c in
  ((9 <=? n) && (n <=? 13) || (28 <=? n) && (n <=? 32))%nat.

Fixpoint lstrip (t : list ascii) : list ascii :=
  match t with
  | [] => []
  | c :: rest => if is_space c then lstrip rest else t
  end.

Definition strip (t : list ascii) : list ascii :=
  rev (lstrip (rev (lstrip t))).

(** One pass of the body of [while start < len(text)]; [fuel] bounds the
    number of iterations and [None] means that they were all used up.
    The test [last_space > chunk_size * 0.8] compares an integer with
    a float; for the integers at hand it holds exactly when
    [4 * chunk_size < 5 * last_space]. *)
Fixpoint chunk_loop (fuel : nat) (text : list ascii) (chunk_size overlap : Z)
    (start : Z) (chunks : list (list ascii)) : option (list (list ascii)) :=
  match fuel with
  | O => None
  | S fuel =>
    if start <? len text then
      let end_ := start + chunk_size in
      let chunk := slice text start end_ in
      let '(chunk, end_) :=
        if end_ <? len text then
          let last_space := rfind " "%char chunk in
          if 4 * chunk_size <? 5 * last_space then
            (slice chunk 0 last_space, start + last_space)
          else (chunk, end_)
        else (chunk, end_) in
      let chunks := (chunks ++ [strip chunk])%list in
      let start := end_ - overlap in
      if len text <=? start then Some chunks
      else chunk_loop fuel text chunk_size overlap start chunks
    else Some chunks
  end.

(** [EmbeddingService.chunk_text]. *)
Definition chunk_text (fuel : nat) (text : list ascii)
    (chunk_size overlap : option Z) : option (list (list ascii)) :=
  let chunk_size := or_int chunk_size Config.CHUNK_SIZE in
  let overlap := or_int overlap Config.CHUNK_OVERLAP in
  if len text <=? chunk_size then Some [text]
  else chunk_loop fuel text chunk_size overlap 0 [].

(** [range(0, n, batch_size)] for the batch size 100. *)
Definition batch_starts (n : nat) : list nat :=
  (fun k => (100 * k)%nat) <$> seq 0 ((n + 99) / 100).

(** [EmbeddingService.embed_texts]; [create] is the call on the
    embeddings endpoint for one batch, answering with the embeddings of
    [response.data].  The first batch that raises aborts the call. *)
Definition embed_texts {T Emb : Type}
    (create : list T -> result (list Emb)) (texts : list T)
  : result (list Emb) :=
  foldl
    (fun (acc : result (list Emb)) (i : nat) =>
       embeddings ← acc;
       batch_embeddings ← create (take 100 (drop i texts));
       mret (embeddings ++ batch_embeddings)%list)
    (Ok []) (batch_starts (length texts)).

(** [EmbeddingService.embed_document] with the chunking parameters of
    [Config]: the pairs of a chunk and its embedding, as many as the
    shorter of the two lists; [None] when the chunking has not returned
    within [fuel] passes. *)
Definition embed_document {Emb : Type}
    (create : list (list ascii) -> result (list Emb)) (fuel : nat)
    (text : list ascii) : option (result (list (list ascii * Emb))) :=
  match chunk_text fuel text None None with
  | None => None
  | Some chunks =>
    Some (embeddings ← embed_texts create chunks;
          mret (zip chunks embeddings))
  end.

End Embeddings.

(** ** The user and session registry (session_manager.py) *)

Module Registry.

Record ChatSession := {
  session_id : string;
  user_id : string;
  created_at : Q;
  last_activity : Q;
  metadata : gmap string string
}.

Record User := {
  u_user_id : string;
  username : string;
  u_created_at : Q;
  last_login : Q;
  total_sessions : Z;
  u_metadata : gmap string string
}.

(** The two dictionaries of a [SessionManager], keyed by identifier. *)
Record SessionManager := {
  users : gmap string User;
  sessions : gmap string ChatSession
}.

(** [[sid for sid, session in self.sessions.items()
      if session.user_id == user_id]] *)
Definition sessions_of (sm : SessionManager) (uid : string) : list string :=
  (map_to_list (sessions sm)) ≫=
    (fun '(sid, session) =>
       if String.eqb (user_id session) uid then [sid] else []).

(** [SessionManager.delete_user]: the returned flag and the registry
    afterwards. *)
Definition delete_user (sm : SessionManager) (uid : string)
  : bool * SessionManager :=
  match users sm !! uid with
  | None => (false, sm)
  | Some _ =>
    let user_sessions := sessions_of sm uid in
    let sessions' :=
      foldl (fun m session_id => delete session_id m) (sessions sm) user_sessions in
    (true, {| users := delete uid (users sm); sessions := sessions' |})
  end.

(** [SessionManager.get_user_sessions] without the sort: the sessions
    that reference a user. *)
Definition referencing (sm : SessionManager) (uid : string) : list ChatSession :=
  filter (fun s => user_id s = uid) (map_to_list (sessions sm)).*2.

(** [SessionManager.create_user]; [hex] is the string
    [uuid.uuid4().hex] and [now] the reading of the clock. *)
Definition create_user (sm : SessionManager) (hex : string) (now : Q)
    (name : string) (meta : option (gmap string string))
  : string * SessionManager :=
  let uid := "user_" ++ substring 0 8 hex in
  let user :=
    {| u_user_id := uid; username := name; u_created_at := now;
       last_login := now; total_sessions := 0;
       u_metadata := default ∅ meta |} in
  (uid, {| users := <[uid := user]> (users sm); sessions := sessions sm |}).

(** [SessionManager.get_user] and [get_session]. *)
Definition get_user (sm : SessionManager) (uid : string) : option User :=
  users sm !! uid.

Definition get_session (sm : SessionManager) (sid : string)
  : option ChatSession :=
  sessions sm !! sid.

(** [SessionManager.create_session]: ValueError for an unknown user;
    otherwise the session is recorded and the user object, which the
    dictionary holds, is updated in place. *)
Definition create_session (sm : SessionManager) (hex : string) (now : Q)
    (uid : string) (meta : option (gmap string string))
  : result (string * SessionManager) :=
  match users sm !! uid with
  | None => Raise ("User " ++ uid ++ " not found")
  | Some user =>
    let sid := "session_" ++ substring 0 12 hex in
    let session :=
      {| session_id := sid; user_id := uid; created_at := now;
         last_activity := now; metadata := default ∅ meta |} in
    let user' :=
      {| u_user_id := u_user_id user; username := username user;
         u_created_at := u_created_at user; last_login := now;
         total_sessions := total_sessions user + 1;
         u_metadata := u_metadata user |} in
    Ok (sid, {| users := <[uid := user']> (users sm);
                sessions := <[sid := session]> (sessions sm) |})
  end.

(** [SessionManager.update_session_activity]. *)
Definition update_session_activity (sm : SessionManager) (now : Q)
    (sid : string) : SessionManager :=
  match sessions sm !! sid with
  | Some session =>
    {| users := users sm;
       sessions :=
         <[sid := {| session_id := session_id session;
                     user_id := user_id session;
                     created_at := created_at session;
                     last_activity := now;
                     metadata := metadata session |}]> (sessions sm) |}
  | None => sm
  end.

(** [SessionManager.end_session]. *)
Definition end_session (sm : SessionManager) (sid : string)
  : bool * SessionManager :=
  match sessions sm !! sid with
  | Some _ => (true, {| users := users sm; sessions := delete sid (sessions sm) |})
  | None => (false, sm)
  end.

(** [[sid for sid, session in self.sessions.items()
      if session.last_activity < cutoff_time]] *)
Definition old_sessions (sm : SessionManager) (cutoff_time : Q) : list string :=
  (map_to_list (sessions sm)) ≫=
    (fun '(sid, session) =>
       if Qlt_bool (last_activity session) cutoff_time then [sid] else []).

(** [SessionManager.cleanup_old_sessions]: the number of sessions
    removed and the registry afterwards. *)
Definition cleanup_old_sessions (sm : SessionManager) (now : Q)
    (max_age_hours : Z) : Z * SessionManager :=
  let cutoff_time := (now - inject_Z (max_age_hours * 3600))%Q in
  let old := old_sessions sm cutoff_time in
  (Z.of_nat (length old),
   {| users := users sm;
      sessions := foldl (fun m sid => delete sid m) (sessions sm) old |}).

(** The registry is consistent when every entry is filed under its own
    identifier and every session references a registered user. *)
Definition consistent (sm : SessionManager) : Prop :=
  (forall uid u, users sm !! uid = Some u -> u_user_id u = uid)
  /\ (forall sid s, sessions sm !! sid = Some s -> session_id s = sid)
  /\ (forall sid s, sessions sm !! sid = Some s -> is_Some (users sm !! user_id s)).

End Registry.

(** ** The ChromaDB collection and the embedding endpoint (external) *)

Module Chroma.

(** The values a metadata dictionary holds in the sources. *)
Inductive Value :=
| VNone
| VBool (b : bool)
| VInt (z : Z)
| VFloat (q : Q)
| VStr (s : string)
| VList (l : list string).

(** One row of a [collection.query] answer: the i-th entries of its
    [ids], [documents], [metadatas] and [distances]. *)
Record Hit := {
  hit_id : string;
  hit_document : string;
  hit_metadata : gmap string Value;
  hit_distance : Q
}.

(** The external calls the vector store makes.  [Emb] is the type of
    embedding vectors and [Coll] the state of one collection.  A query
    and a get are reads: they answer with copies of the stored rows
    and leave the collection as it is; [collection_add] is the only
    write the sources issue (they never call update or upsert). *)
Record Services (Emb Coll : Type) := {
  embed_text : string -> result Emb;
  collection_add :
    Coll -> Emb -> string -> gmap string Value -> string -> result Coll;
  collection_query : Coll -> Emb -> Z -> result (list Hit);
  collection_get : Coll -> string -> result (list (string * gmap string Value))
}.
Arguments embed_text {Emb Coll} _ _.
Arguments collection_add {Emb Coll} _ _ _ _ _ _.
Arguments collection_query {Emb Coll} _ _ _ _.
Arguments collection_get {Emb Coll} _ _ _.

(** [v + 1] and [v < x] on metadata values; a string, a list or None
    raises TypeError. *)
Definition add_one (v : Value) : result Value :=
  match v with
  | VInt z => Ok (VInt (z + 1))
  | VBool b => Ok (VInt ((if b then 1 else 0) + 1))
  | VFloat q => Ok (VFloat (q + 1))
  | _ => Raise "TypeError"
  end.

(** The number a value stands for in a comparison, if any. *)
Definition number (v : Value) : option Q :=
  match v with
  | VInt z => Some (inject_Z z)
  | VBool b => Some (if b then 1%Q else 0%Q)
  | VFloat q => Some q
  | _ => None
  end.

Definition less_than (v : Value) (x : Q) : result bool :=
  match number v with
  | Some q => Ok (Qlt_bool q x)
  | None => Raise "TypeError"
  end.

(** [v != s] for the value a [dict.get] returned and a string. *)
Definition differs (v : option Value) (s : string) : bool :=
  match v with
  | Some (VStr s') => negb (String.eqb s' s)
  | _ => true
  end.

End Chroma.

(** ** vector_store.py *)

Module VectorStore.
Import Chroma.

(** A search result: the dictionary with keys text, metadata,
    similarity and id. *)
Record Memory := {
  text : string;
  metadata : gmap string Value;
  similarity : Q;
  id : string
}.

(** The loop over the rows of a query answer in [search_memories]. *)
Fixpoint collect (threshold : option Q) (rows : list Hit) : list Memory :=
  match rows with
  | [] => []
  | row :: rest =>
    let similarity := (1 - hit_distance row)%Q in
    let skip :=
      match threshold with
      | Some t => Qlt_bool similarity t
      | None => false
      end in
    if skip then collect threshold rest
    else {| text := hit_document row; metadata := hit_metadata row;
            similarity := similarity; id := hit_id row |}
         :: collect threshold rest
  end.

Section Store.
Context {Emb Coll : Type} (svc : Services Emb Coll).

(** [VectorStore.add_memory]; [now] is the clock reading and [uuid]
    the string [uuid.uuid4()] produces. *)
Definition add_memory (c : Coll) (now : Q) (uuid : string) (text : string)
    (metadata : option (gmap string Value)) (memory_id : option string)
  : result (string * Coll) :=
  embedding ← embed_text svc text;
  let memory_id := default uuid memory_id in
  let metadata := default ∅ metadata in
  let metadata :=
    match metadata !! "timestamp" with
    | Some _ => metadata
    | None => <["timestamp" := VFloat now]> metadata
    end in
  c' ← collection_add svc c embedding text metadata memory_id;
  mret (memory_id, c').

(** [VectorStore.search_memories]. *)
Definition search_memories (c : Coll) (query : string) (n_results : Z)
    (threshold : option Q) : result (list Memory) :=
  query_embedding ← embed_text svc query;
  results ← collection_query svc c query_embedding n_results;
  mret (collect threshold results).

(** [VectorStore.get_memory_by_id]: a failure of the index is
    logged and answered with None; an empty first document is
    falsy and answered with None as well. *)
Definition get_memory_by_id (c : Coll) (memory_id : string)
  : option (string * string * gmap string Value) :=
  match collection_get svc c memory_id with
  | Raise _ => None
  | Ok results =>
    match results with
    | (document, metadata) :: _ =>
      if String.eqb document "" then None
      else Some (memory_id, document, metadata)
    | [] => None
    end
  end.

End Store.

End VectorStore.

(** ** long_term.py *)

Module LongTermMemoryManager.
Import Chroma.

Record LongTermMemory := {
  content : string;
  memory_type : string;
  importance : Q;
  created_at : Q;
  last_accessed : Q;
  access_count : Z;
  tags : list string;
  context : option string;
  source : option string
}.

Definition of_option (o : option string) : Value :=
  match o with
  | Some s => VStr s
  | None => VNone
  end.

(** [LongTermMemory.to_dict], that is [dataclasses.asdict]. *)
Definition to_dict (m : LongTermMemory) : gmap string Value :=
  <["content" := VStr (content m)]>
  (<["memory_type" := VStr (memory_type m)]>
  (<["importance" := VFloat (importance m)]>
  (<["created_at" := VFloat (created_at m)]>
  (<["last_accessed" := VFloat (last_accessed m)]>
  (<["access_count" := VInt (access_count m)]>
  (<["tags" := VList (tags m)]>
  (<["context" := of_option (context m)]>
  (<["source" := of_option (source m)]> ∅)))))))).

(** [max(0.0, min(1.0, importance))]: [min(a, b)] is [b] when
    [b < a] and [max(a, b)] is [b] when [b > a]. *)
Definition clamp (importance : Q) : Q :=
  let m := if Qlt_bool importance 1 then importance else 1%Q in
  if Qlt_bool 0 m then m else 0%Q.

(** The conversion of the tags entry before the write. *)
Definition join_tags (v : Value) : Value :=
  match v with
  | VList l => VStr (join "," l)
  | v => v
  end.

(** The cleaning loop: None is dropped, str, int, float and bool are
    kept, anything else is replaced by its [str()].  No list is left
    at that point, so the rendering of a list below is never used. *)
Definition clean (v : Value) : option Value :=
  match v with
  | VNone => None
  | VList l => Some (VStr ("[" ++ join ", " l ++ "]"))
  | v => Some v
  end.

(** The two attributes [__init__] reads from [Config]. *)
Definition similarity_threshold : Q := Config.LONG_TERM_MEMORY_THRESHOLD.
Definition max_memories : Z := Config.MAX_LONG_TERM_MEMORIES.

(** What the manager returns for one record: [base] holds the keys
    written before [**metadata], which [metadata] overrides. *)
Definition refresh (now : Q) (metadata base : gmap string Value)
  : result (gmap string Value) :=
  let metadata := <["last_accessed" := VFloat now]> metadata in
  count ← add_one (default (VInt 0) (metadata !! "access_count"));
  let metadata := <["access_count" := count]> metadata in
  mret (metadata ∪ base).

Definition memory_result (now : Q) (memory_data : VectorStore.Memory)
  : result (gmap string Value) :=
  refresh now (VectorStore.metadata memory_data)
    (<["id" := VStr (VectorStore.id memory_data)]>
    (<["content" := VStr (VectorStore.text memory_data)]>
    (<["similarity" := VFloat (VectorStore.similarity memory_data)]> ∅))).

(** The filtering loop of [retrieve_memories]; [filtered] is the list
    built so far. *)
Fixpoint filter_loop (now : Q) (memory_type : option string)
    (min_importance : option Q) (max_results : Z)
    (memories : list VectorStore.Memory) (filtered : list (gmap string Value))
  : result (list (gmap string Value)) :=
  match memories with
  | [] => Ok filtered
  | memory_data :: rest =>
    let metadata := VectorStore.metadata memory_data in
    if truthy_str memory_type
       && differs (metadata !! "memory_type") (default "" memory_type)
    then filter_loop now memory_type min_importance max_results rest filtered
    else
      match
        (if truthy_float min_importance then
           less_than (default (VInt 0) (metadata !! "importance"))
                     (default 0%Q min_importance)
         else Ok false)
      with
      | Raise e => Raise e
      | Ok true =>
        filter_loop now memory_type min_importance max_results rest filtered
      | Ok false =>
        match memory_result now memory_data with
        | Raise e => Raise e
        | Ok r =>
          let filtered := (filtered ++ [r])%list in
          if max_results <=? Z.of_nat (length filtered) then Ok filtered
          else filter_loop now memory_type min_importance max_results
                 rest filtered
        end
      end
  end.

Section Manager.
Context {Emb Coll : Type} (svc : Services Emb Coll).

(** [LongTermMemoryManager.store_memory]: the identifier and the
    collection after the write, or the exception it re-raises. *)
Definition store_memory (c : Coll) (now : Q) (uuid : string)
    (content memory_type : string) (importance : Q)
    (tags : option (list string)) (context source : option string)
  : result (string * Coll) :=
  let memory :=
    {| content := content; memory_type := memory_type;
       importance := clamp importance;
       created_at := now; last_accessed := now; access_count := 0;
       tags := default [] tags; context := context; source := source |} in
  let metadata := to_dict memory in
  let metadata := delete "content" metadata in
  let metadata := alter join_tags "tags" metadata in
  let metadata := omap clean metadata in
  VectorStore.add_memory svc c now uuid content (Some metadata) None.

(** The body of the [try] block of [retrieve_memories]. *)
Definition retrieve_memories_try (c : Coll) (now : Q) (query : string)
    (memory_type : option string) (max_results : option Z)
    (min_importance : option Q) : result (list (gmap string Value)) :=
  let max_results := or_int max_results max_memories in
  memories ← VectorStore.search_memories svc c query (max_results * 2)
               (Some similarity_threshold);
  memories ←
    match memories with
    | [] => VectorStore.search_memories svc c query max_results None
    | _ => Ok memories
    end;
  filter_loop now memory_type min_importance max_results memories [].

(** [LongTermMemoryManager.retrieve_memories]: any exception of the
    body is logged and answered with the empty list. *)
Definition retrieve_memories (c : Coll) (now : Q) (query : string)
    (memory_type : option string) (max_results : option Z)
    (min_importance : option Q) : result (list (gmap string Value)) :=
  match retrieve_memories_try c now query memory_type max_results
          min_importance with
  | Ok filtered_memories => Ok filtered_memories
  | Raise _ => Ok []
  end.

(** [LongTermMemoryManager.get_memory_by_id] (no [try] here). *)
Definition get_memory_by_id (c : Coll) (now : Q) (memory_id : string)
  : result (option (gmap string Value)) :=
  match VectorStore.get_memory_by_id svc c memory_id with
  | Some (id, text, metadata) =>
    r ← refresh now metadata
          (<["id" := VStr id]> (<["content" := VStr text]> ∅));
    mret (Some r)
  | None => Ok None
  end.

End Manager.

Section Variants.
Context {Emb Coll : Type} (svc : Services Emb Coll).

(** [store_conversation_summary], [store_user_preference] and
    [store_fact]: [store_memory] with fixed type, source and tags. *)
Definition store_conversation_summary (c : Coll) (now : Q) (uuid : string)
    (summary conversation_context : string) (importance : Q)
  : result (string * Coll) :=
  store_memory svc c now uuid summary "experience" importance
    (Some ["conversation"; "summary"]) (Some conversation_context)
    (Some "conversation_summary").

Definition store_user_preference (c : Coll) (now : Q) (uuid : string)
    (preference : string) (context : option string)
  : result (string * Coll) :=
  store_memory svc c now uuid preference "preference" 0.8
    (Some ["preference"; "user"]) context (Some "user_preference").

Definition store_fact (c : Coll) (now : Q) (uuid : string)
    (fact : string) (context : option string) (importance : Q)
  : result (string * Coll) :=
  store_memory svc c now uuid fact "fact" importance
    (Some ["fact"; "information"]) context (Some "factual_information").

(** [get_memories_by_type]: a retrieval whose query is the type name. *)
Definition get_memories_by_type (c : Coll) (now : Q) (memory_type : string)
    (limit : Z) : result (list (gmap string Value)) :=
  retrieve_memories svc c now memory_type (Some memory_type) (Some limit) None.

End Variants.

End LongTermMemoryManager.

(** ** agents/graph_builder.py *)

Module Workflow.
Import Chroma Analyzer.

(** The [AgentState] dictionary (all keys are set by [run]). *)
Record AgentState := {
  messages : list string;
  user_input : string;
  agent_response : string;
  relevant_memories : list (gmap string Value);
  memory_suggestions : list Suggestion;
  should_store_memory : bool;
  stored_memory_ids : list string;
  error : option string
}.

Definition set_error (e : option string) (s : AgentState) : AgentState :=
  {| messages := messages s; user_input := user_input s;
     agent_response := agent_response s;
     relevant_memories := relevant_memories s;
     memory_suggestions := memory_suggestions s;
     should_store_memory := should_store_memory s;
     stored_memory_ids := stored_memory_ids s; error := e |}.

Definition set_relevant_memories (l : list (gmap string Value))
    (s : AgentState) : AgentState :=
  {| messages := messages s; user_input := user_input s;
     agent_response := agent_response s;
     relevant_memories := l;
     memory_suggestions := memory_suggestions s;
     should_store_memory := should_store_memory s;
     stored_memory_ids := stored_memory_ids s; error := error s |}.

Definition set_agent_response (r : string) (s : AgentState) : AgentState :=
  {| messages := messages s; user_input := user_input s;
     agent_response := r;
     relevant_memories := relevant_memories s;
     memory_suggestions := memory_suggestions s;
     should_store_memory := should_store_memory s;
     stored_memory_ids := stored_memory_ids s; error := error s |}.

Definition set_suggestions (l : list Suggestion) (b : bool)
    (s : AgentState) : AgentState :=
  {| messages := messages s; user_input := user_input s;
     agent_response := agent_response s;
     relevant_memories := relevant_memories s;
     memory_suggestions := l;
     should_store_memory := b;
     stored_memory_ids := stored_memory_ids s; error := error s |}.

Definition set_stored_memory_ids (l : list string) (s : AgentState)
  : AgentState :=
  {| messages := messages s; user_input := user_input s;
     agent_response := agent_response s;
     relevant_memories := relevant_memories s;
     memory_suggestions := memory_suggestions s;
     should_store_memory := should_store_memory s;
     stored_memory_ids := l; error := error s |}.

(** A call on the agent: it may raise, and it may change the agent's
    own state [W] (the short-term buffer, the long-term store). *)
Definition Act (W A : Type) : Type := W -> result A * W.

Definition and_then {W A B : Type} (a : Act W A) (k : A -> Act W B) : Act W B :=
  fun w =>
    match a w with
    | (Ok x, w') => k x w'
    | (Raise e, w') => (Raise e, w')
    end.

Definition pure {W A : Type} (x : A) : Act W A := fun w => (Ok x, w).

(** The methods of [MemoryAgent] and of its memories that the nodes
    call.  The short-term buffer ([memory/short_term.py]) is not part
    of the sources at hand: its three methods are taken as they are
    called. *)
Record Agent (W : Type) := {
  add_user_message : string -> Act W unit;
  retrieve_memories : string -> Z -> Act W (list (gmap string Value));
  _prepare_context :
    string -> list (gmap string Value) -> Act W (list (string * string));
  _generate_response : list (string * string) -> Act W string;
  add_assistant_message : string -> Act W unit;
  analyze_for_memory_storage :
    string -> string -> list (gmap string Value) -> Act W (list Suggestion);
  store_memory_suggestion : Suggestion -> Act W string;
  get_conversation_context : Act W (list (string * string))
}.
Arguments add_user_message {W} _ _ _.
Arguments retrieve_memories {W} _ _ _ _.
Arguments _prepare_context {W} _ _ _ _.
Arguments _generate_response {W} _ _ _.
Arguments add_assistant_message {W} _ _ _.
Arguments analyze_for_memory_storage {W} _ _ _ _ _.
Arguments store_memory_suggestion {W} _ _ _.
Arguments get_conversation_context {W} _ _.

Inductive Node :=
| process_input
| retrieve_memories_node
| generate_response
| analyze_memory
| store_memory
| finalize.

#[global] Instance Node_eq_dec : EqDecision Node.
Proof. solve_decision. Defined.

Definition apology : string :=
  "I apologize, but I encountered an error generating a response.".

(** The state [run] starts the graph with. *)
Definition initial_state (user_input : string) : AgentState :=
  {| messages := []; user_input := user_input; agent_response := "";
     relevant_memories := []; memory_suggestions := [];
     should_store_memory := false; stored_memory_ids := [];
     error := None |}.



Section Nodes.
Context {W : Type} (agent : Agent W).

(** The loop of [_store_memory_node]: a suggestion whose storage
    raises is logged and skipped. *)
Fixpoint store_each (suggestions : list Suggestion) (stored_ids : list string)
  : Act W (list string) :=
  match suggestions with
  | [] => pure stored_ids
  | suggestion :: rest =>
    fun w =>
      match store_memory_suggestion agent suggestion w with
      | (Ok memory_id, w') => store_each rest (stored_ids ++ [memory_id])%list w'
      | (Raise _, w') => store_each rest stored_ids w'
      end
  end.

(** The [try] block of each node.  In every node the state is
    written after the last call that may raise, so that the handler
    sees the state the node was entered with. *)
Definition body (n : Node) (state : AgentState) : Act W AgentState :=
  match n with
  | process_input =>
    and_then (add_user_message agent (user_input state)) (fun _ =>
    pure (set_error None state))
  | retrieve_memories_node =>
    and_then (retrieve_memories agent (user_input state)
                Config.MAX_LONG_TERM_MEMORIES) (fun relevant =>
    pure (set_relevant_memories relevant state))
  | generate_response =>
    and_then (_prepare_context agent (user_input state)
                (relevant_memories state)) (fun context =>
    and_then (_generate_response agent context) (fun response =>
    and_then (add_assistant_message agent response) (fun _ =>
    pure (set_agent_response response state))))
  | analyze_memory =>
    and_then (analyze_for_memory_storage agent (user_input state)
                (agent_response state) (relevant_memories state))
      (fun suggestions =>
    pure (set_suggestions suggestions
            (0 <? Z.of_nat (length suggestions)) state))
  | store_memory =>
    and_then (store_each (memory_suggestions state) []) (fun stored_ids =>
    pure (set_stored_memory_ids stored_ids state))
  | finalize => pure state
  end.

(** The [except] block of each node ([finalize] has none). *)
Definition handler (n : Node) (e : string) (state : AgentState) : AgentState :=
  match n with
  | process_input => set_error (Some e) state
  | retrieve_memories_node =>
    set_relevant_memories [] (set_error (Some e) state)
  | generate_response =>
    set_agent_response apology (set_error (Some e) state)
  | analyze_memory => set_suggestions [] false (set_error (Some e) state)
  | store_memory => set_stored_memory_ids [] (set_error (Some e) state)
  | finalize => state
  end.

Definition run_node (n : Node) (state : AgentState) (w : W) : AgentState * W :=
  match body n state w with
  | (Ok state', w') => (state', w')
  | (Raise e, w') => (handler n e state, w')
  end.

(** [_should_store_memory], the guard of the conditional edge. *)
Definition _should_store_memory (state : AgentState) : string :=
  if should_store_memory state then "store" else "skip".

(** The edges added by [_build_graph]; [None] is [END]. *)
Definition next (n : Node) (state : AgentState) : option Node :=
  match n with
  | process_input => Some retrieve_memories_node
  | retrieve_memories_node => Some generate_response
  | generate_response => Some analyze_memory
  | analyze_memory =>
    if String.eqb (_should_store_memory state) "store" then Some store_memory
    else Some finalize
  | store_memory => Some finalize
  | finalize => None
  end.

(** [graph.ainvoke]: nodes run from [n] until [END]; the graph
    library gives up with an exception after [limit] steps.
    The list is the sequence of nodes that ran. *)
Fixpoint ainvoke (limit : nat) (n : Node) (state : AgentState)
    (visited : list Node) : Act W (AgentState * list Node) :=
  fun w =>
    match limit with
    | O => (Raise "GraphRecursionError", w)
    | S limit =>
      let '(state', w') := run_node n state w in
      let visited := (visited ++ [n])%list in
      match next n state' with
      | None => (Ok (state', visited), w')
      | Some n' => ainvoke limit n' state' visited w'
      end
    end.

(** The fields of the dictionary [run] returns. *)
Inductive Field :=
| FNone
| FStr (s : string)
| FMemories (l : list (gmap string Value))
| FSuggestions (l : list Suggestion)
| FIds (l : list string)
| FContext (l : list (string * string)).

Definition of_error (e : option string) : Field :=
  match e with
  | Some e => FStr e
  | None => FNone
  end.

Definition recursion_limit : nat := 25.

(** [MemoryAgentWorkflow.run]. *)
Definition run (user_input : string) (w : W) : gmap string Field * W :=
  let attempt :=
    and_then (ainvoke recursion_limit process_input
                (initial_state user_input) [])
      (fun '(final_state, _) =>
    and_then (get_conversation_context agent) (fun short_term =>
    pure (<["response" := FStr (agent_response final_state)]>
         (<["relevant_memories" := FMemories (relevant_memories final_state)]>
         (<["memory_suggestions" := FSuggestions (memory_suggestions final_state)]>
         (<["stored_memory_ids" := FIds (stored_memory_ids final_state)]>
         (<["error" := of_error (error final_state)]>
         (<["short_term_context" := FContext short_term]>
          (∅ : gmap string Field))))))))) in
  match attempt w with
  | (Ok r, w') => (r, w')
  | (Raise e, w') =>
    (<["response" :=
         FStr "I apologize, but I encountered an error processing your request."]>
     (<["error" := FStr e]>
     (<["relevant_memories" := FMemories []]>
     (<["memory_suggestions" := FSuggestions []]>
     (<["stored_memory_ids" := FIds []]>
     (<["short_term_context" := FContext []]>
      (∅ : gmap string Field)))))), w')
  end.

End Nodes.

End Workflow.

(** ** agents/memory_agent.py *)

Module MemoryAgent.
Import Chroma Analyzer.

(** [MemoryAgent.store_memory_suggestion]. *)
Definition store_memory_suggestion {Emb Coll : Type} (svc : Services Emb Coll)
    (c : Coll) (now : Q) (uuid : string) (suggestion : Suggestion)
  : result (string * Coll) :=
  LongTermMemoryManager.store_memory svc c now uuid (s_content suggestion)
    (s_type suggestion) (s_importance suggestion) None
    (Some ("Stored from conversation - " ++ s_reason suggestion)) None.

(** The rendering of one retrieved memory in the system prompt.  The
    conversions of Python ([str] of an integer, [str.upper], [str] and
    the format [.2f] of a value, each of which may raise on a value of
    the wrong type) are parameters. *)
Record Formatting := {
  str_of_int : nat -> string;
  upper : Value -> result string;
  str_of : Value -> string;
  format_2f : Value -> result string
}.

Definition truthy_value (v : option Value) : bool :=
  match v with
  | Some (VStr s) => negb (String.eqb s "")
  | Some (VInt z) => negb (z =? 0)
  | Some (VFloat q) => negb (Qnum q =? 0)
  | Some (VBool b) => b
  | Some (VList l) => negb (Nat.eqb (length l) 0)
  | Some VNone => false
  | None => false
  end.

Definition item (d : gmap string Value) (k : string) : result Value :=
  match d !! k with
  | Some v => Ok v
  | None => Raise "KeyError"
  end.

Definition memory_line (fmt : Formatting) (i : nat) (memory : gmap string Value)
  : result string :=
  memory_type ← item memory "memory_type";
  shout ← upper fmt memory_type;
  content ← item memory "content";
  let line := str_of_int fmt i ++ ". [" ++ shout ++ "] " ++ str_of fmt content in
  line ←
    (if truthy_value (memory !! "context") then
       context ← item memory "context";
       mret (line ++ " (Context: " ++ str_of fmt context ++ ")")
     else mret line);
  similarity ← item memory "similarity";
  shown ← format_2f fmt similarity;
  mret (line ++ " [Similarity: " ++ shown ++ "]" ++ String "010" "").

Fixpoint memory_lines (fmt : Formatting) (i : nat)
    (memories : list (gmap string Value)) (memory_context : string)
  : result string :=
  match memories with
  | [] => Ok memory_context
  | memory :: rest =>
    line ← memory_line fmt i memory;
    memory_lines fmt (S i) rest (memory_context ++ line)
  end.

(** [MemoryAgent._prepare_context]; [conversation_history] is the
    answer of the short-term buffer to
    [get_conversation_context(include_system=False)], as (role, content)
    pairs. *)
Definition _prepare_context (fmt : Formatting) (system_prompt : string)
    (conversation_history : list (string * string))
    (user_message : string) (relevant_memories : list (gmap string Value))
  : result (list (string * string)) :=
  system_content ←
    match relevant_memories with
    | [] => Ok system_prompt
    | _ =>
      memory_context ←
        memory_lines fmt 1 relevant_memories
          (String "010" (String "010" "RELEVANT MEMORIES:" ++ String "010" ""));
      mret (system_prompt ++ memory_context)
    end;
  let conversation_history :=
    match last conversation_history with
    | Some (role, content) =>
      if String.eqb role "user" && String.eqb content user_message
      then take (length conversation_history - 1) conversation_history
      else conversation_history
    | None => conversation_history
    end in
  mret ([("system", system_content)] ++ conversation_history
        ++ [("user", user_message)])%list.

(** [MemoryAgent.process_message], on the calls of [Workflow.Agent]. *)
Definition process_message {W : Type} (agent : Workflow.Agent W)
    (user_message : string) (store_in_memory : bool) (w : W)
  : gmap string Workflow.Field * W :=
  let attempt :=
    Workflow.and_then
      (if store_in_memory then Workflow.add_user_message agent user_message
       else Workflow.pure tt) (fun _ =>
    Workflow.and_then
      (Workflow.retrieve_memories agent user_message
         Config.MAX_LONG_TERM_MEMORIES) (fun relevant_memories =>
    Workflow.and_then
      (Workflow._prepare_context agent user_message relevant_memories)
      (fun context =>
    Workflow.and_then (Workflow._generate_response agent context)
      (fun response =>
    Workflow.and_then
      (if store_in_memory then Workflow.add_assistant_message agent response
       else Workflow.pure tt) (fun _ =>
    Workflow.and_then
      (Workflow.analyze_for_memory_storage agent user_message response
         relevant_memories) (fun memory_suggestions =>
    Workflow.and_then (Workflow.get_conversation_context agent)
      (fun short_term =>
    Workflow.pure
      (<["response" := Workflow.FStr response]>
      (<["relevant_memories" := Workflow.FMemories relevant_memories]>
      (<["memory_suggestions" := Workflow.FSuggestions memory_suggestions]>
      (<["short_term_context" := Workflow.FContext short_term]>
       (∅ : gmap string Workflow.Field)))))))))))) in
  match attempt w with
  | (Ok r, w') => (r, w')
  | (Raise e, w') =>
    (<["response" :=
         Workflow.FStr
           "I apologize, but I encountered an error processing your message. Please try again."]>
     (<["error" := Workflow.FStr e]> (∅ : gmap string Workflow.Field)), w')
  end.

End MemoryAgent.

(** ** Vocabulary of the statements *)

Module Props.
Import Chroma.

(** A record whose access counter, if it has one, is a number, as for
    every record written by [store_memory]. *)
Definition counted (metadata : gmap string Value) : Prop :=
  exists v, add_one (default (VInt 0) (metadata !! "access_count")) = Ok v.

(** The two post-filters of [retrieve_memories], as they apply to a
    search result: the type filter when [memory_type] is a non-empty
    string, the importance floor when [min_importance] is not zero. *)
Definition passes (memory_type : option string) (min_importance : option Q)
    (m : VectorStore.Memory) : Prop :=
  (forall t, memory_type = Some t -> t <> "" ->
     VectorStore.metadata m !! "memory_type" = Some (VStr t))
  /\ (forall x, min_importance = Some x -> ~ (x == 0)%Q ->
        exists q,
          number (default (VInt 0) (VectorStore.metadata m !! "importance"))
          = Some q /\ (x <= q)%Q).

(** [s.split(sep)] for a one-character separator: the reading of the
    tags that the specification expects at read time. *)
Fixpoint split (sep : ascii) (s : string) : list string :=
  match s with
  | EmptyString => [""]
  | String c rest =>
    if Ascii.eqb c sep then "" :: split sep rest
    else
      match split sep rest with
      | w :: ws => String c w :: ws
      | [] => [String c ""]
      end
  end.

Fixpoint comma_free (s : string) : bool :=
  match s with
  | EmptyString => true
  | String c rest => negb (Ascii.eqb c ",") && comma_free rest
  end.

(** The contract of the index that the round trip relies on: a row
    that was added is what a get by its identifier answers. *)
Definition get_after_add {Emb Coll : Type} (svc : Services Emb Coll) : Prop :=
  forall c emb document metadata i c',
    collection_add svc c emb document metadata i = Ok c' ->
    collection_get svc c' i = Ok [(document, metadata)].

(** The tags field [v] of a returned record holds the sequence [T]:
    either it is the list, or it is a string that splits into it. *)
Definition tags_recovered (v : option Value) (T : list string) : Prop :=
  v = Some (VList T)
  \/ exists s, v = Some (VStr s) /\ split ","%char s = T.

(** The field [k] of the record a read returned, and of each record
    a retrieval returned. *)
Definition field (k : string) (r : result (option (gmap string Value)))
  : option Value :=
  match r with
  | Ok (Some d) => d !! k
  | _ => None
  end.

Definition fields (k : string) (r : result (list (gmap string Value)))
  : list (option Value) :=
  match r with
  | Ok l => (fun d : gmap string Value => d !! k) <$> l
  | Raise _ => []
  end.

(** The test of the filtering loop on one search result: not skipped
    by the type filter and not below the importance floor. *)
Definition kept (memory_type : option string) (min_importance : option Q)
    (m : VectorStore.Memory) : bool :=
  negb (truthy_str memory_type
        && differs (VectorStore.metadata m !! "memory_type")
             (default "" memory_type))
  && negb (truthy_float min_importance
           && match less_than
                      (default (VInt 0) (VectorStore.metadata m !! "importance"))
                      (default 0%Q min_importance) with
              | Ok b => b
              | Raise _ => true
              end).

(** A value the index stores as it is: a string or a number. *)
Definition flat (v : Value) : Prop :=
  match v with
  | VStr _ | VInt _ | VFloat _ | VBool _ => True
  | VNone | VList _ => False
  end.

(** A dictionary with one more string entry when the value is given. *)
Definition with_entry (k : string) (o : option string)
    (d : gmap string Value) : gmap string Value :=
  match o with
  | Some s => <[k := VStr s]> d
  | None => d
  end.

(** A chunk without white space at either end. *)
Definition stripped (t : list ascii) : Prop :=
  (forall c, head t = Some c -> Embeddings.is_space c = false)
  /\ (forall c, last t = Some c -> Embeddings.is_space c = false).

(** A record that [_prepare_context] can render: it holds the three
    keys that are read without a default. *)
Definition renderable (memory : gmap string Value) : Prop :=
  is_Some (memory !! "memory_type") /\ is_Some (memory !! "content")
  /\ is_Some (memory !! "similarity").

(** The entries of the metadata of a memory stored at time [now]. *)
Definition written (now : Q) (memory_type : string) (importance : Q)
    (tags : list string) (context source : option string)
  : gmap string Value :=
  <["memory_type" := VStr memory_type]>
  (<["importance" := VFloat (LongTermMemoryManager.clamp importance)]>
  (<["created_at" := VFloat now]>
  (<["last_accessed" := VFloat now]>
  (<["access_count" := VInt 0]>
  (<["tags" := VStr (join "," tags)]>
  (<["timestamp" := VFloat now]>
  (with_entry "context" context (with_entry "source" source ∅)))))))).



(** A sequence of calls on one manager.  The collection is handed on
    from call to call; only [store_memory] returns a new one, the two
    reads return records only (the sources write to the index nowhere
    but in [add_memory]). *)
Inductive Call :=
| call_store (now : Q) (uuid content memory_type : string) (importance : Q)
    (tags : option (list string)) (context source : option string)
| call_retrieve (now : Q) (query : string) (memory_type : option string)
    (max_results : option Z) (min_importance : option Q)
| call_get (now : Q) (memory_id : string).




(** The outcomes of storing the suggestions one after the other, each
    call on the agent state the previous one left, and the identifiers of
    those that did not raise. *)
Fixpoint attempts {W : Type} (agent : Workflow.Agent W)
    (suggestions : list Analyzer.Suggestion) (w : W)
  : list (result string) * W :=
  match suggestions with
  | [] => ([], w)
  | suggestion :: rest =>
    let '(outcome, w1) := Workflow.store_memory_suggestion agent suggestion w in
    let '(outcomes, w') := attempts agent rest w1 in
    (outcome :: outcomes, w')
  end.

Definition identifier (outcome : result string) : option string :=
  match outcome with
  | Ok i => Some i
  | Raise _ => None
  end.




End Props.

(** ** Instances of the external services, to run the definitions on *)

Module Instances.
Import Chroma.

(** An in-memory collection: the rows in insertion order. *)
Record Row := {
  row_id : string;
  row_document : string;
  row_metadata : gmap string Value
}.

(** The embedding of a text is the text itself, and a stored document
    is near a query (distance 0.1) when it contains the query, far
    (distance 0.9) otherwise. *)
Definition distance (query document : string) : Q :=
  if contains (lower query) (lower document) then 0.1%Q else 0.9%Q.

Definition to_hit (query : string) (r : Row) : Hit :=
  {| hit_id := row_id r; hit_document := row_document r;
     hit_metadata := row_metadata r;
     hit_distance := distance query (row_document r) |}.

Definition near (query : string) (r : Row) : bool :=
  Qle_bool (distance query (row_document r)) 0.1.

(** Nearest rows first; like ChromaDB, a request for no rows or for a
    negative number of rows is refused. *)
Definition query_rows (c : list Row) (query : string) (n_results : Z)
  : result (list Hit) :=
  if n_results <=? 0 then Raise "ValueError"
  else
    Ok (to_hit query <$>
          take (Z.to_nat n_results)
               (List.filter (near query) c
                ++ List.filter (fun r => negb (near query r)) c)%list).

Definition add_row (c : list Row) (embedding document : string)
    (metadata : gmap string Value) (id : string) : result (list Row) :=
  if existsb (fun r => String.eqb (row_id r) id) c then Raise "DuplicateIDError"
  else Ok (c ++ [{| row_id := id; row_document := document;
                    row_metadata := metadata |}])%list.

Definition get_rows (c : list Row) (id : string)
  : result (list (string * gmap string Value)) :=
  Ok ((fun r => (row_document r, row_metadata r)) <$>
        List.filter (fun r => String.eqb (row_id r) id) c).

Definition memory_index : Services string (list Row) :=
  {| embed_text := fun text => Ok text;
     collection_add := add_row;
     collection_query := query_rows;
     collection_get := get_rows |}.

(** An index that is down: the embedding works, every call on the
    collection raises. *)
Definition broken_index : Services string unit :=
  {| embed_text := fun text => Ok text;
     collection_add := fun _ _ _ _ _ => Raise "index unavailable";
     collection_query := fun _ _ _ => Raise "index unavailable";
     collection_get := fun _ _ => Raise "index unavailable" |}.

(** Two users of the registry: alice with two sessions, bob with one. *)
Definition alice : Registry.User :=
  {| Registry.u_user_id := "user_0000000a"; Registry.username := "alice";
     Registry.u_created_at := 1; Registry.last_login := 2;
     Registry.total_sessions := 1; Registry.u_metadata := ∅ |}.

Definition bob : Registry.User :=
  {| Registry.u_user_id := "user_0000000b"; Registry.username := "bob";
     Registry.u_created_at := 1; Registry.last_login := 2;
     Registry.total_sessions := 1; Registry.u_metadata := ∅ |}.

Definition session_of (sid uid : string) : Registry.ChatSession :=
  {| Registry.session_id := sid; Registry.user_id := uid;
     Registry.created_at := 2; Registry.last_activity := 3;
     Registry.metadata := ∅ |}.

Definition registry : Registry.SessionManager :=
  {| Registry.users :=
       <["user_0000000a" := alice]> (<["user_0000000b" := bob]> ∅);
     Registry.sessions :=
       <["session_00000000000a" :=
           session_of "session_00000000000a" "user_0000000a"]>
       (<["session_00000000000b" :=
            session_of "session_00000000000b" "user_0000000b"]>
       (<["session_00000000000c" :=
            session_of "session_00000000000c" "user_0000000a"]> ∅)) |}.

(** The collection after one [store_memory] on an empty one. *)
Definition peanuts : list Row :=
  match
    LongTermMemoryManager.store_memory memory_index [] 100 "3f2a"
      "I am allergic to peanuts" "fact" 0.9 (Some ["health"; "food"])
      None (Some "chat")
  with
  | Ok (_, c) => c
  | Raise _ => []
  end.

(** The collection after a [store_memory] with the default tags and
    an importance above 1, and after one with a tag that holds a comma. *)
Definition untagged : list Row :=
  match
    LongTermMemoryManager.store_memory memory_index [] 100 "9c0d"
      "The meeting is on Friday" "knowledge" 1.7 None None None
  with
  | Ok (_, c) => c
  | Raise _ => []
  end.

Definition comma_tagged : list Row :=
  match
    LongTermMemoryManager.store_memory memory_index [] 100 "51be"
      "Lives in Paris, France" "fact" 0.6 (Some ["Paris, France"]) None None
  with
  | Ok (_, c) => c
  | Raise _ => []
  end.

(** A collection with one row written through [VectorStore.add_memory]
    directly, with an importance below zero. *)
Definition ledger : list Row :=
  match
    VectorStore.add_memory memory_index [] 100 "77aa" "ledger entry"
      (Some (<["memory_type" := VStr "note"]>
             (<["importance" := VFloat (-1)]> ∅))) None
  with
  | Ok (_, c) => c
  | Raise _ => []
  end.

(** The client of the index: the collections by name;
    [get_or_create_collection] opens a collection, empty when new. *)
Definition get_or_create_collection (client : gmap string (list Row))
    (name : string) : list Row :=
  default [] (client !! name).

(** What a store opened for the identity ("a", "b_session_c") retrieves
    after a store opened for ("a_session_b", "c") has written one memory
    on a fresh client: the contents of the records returned. *)
Definition seen_by_the_other_identity : list (option Value) :=
  let writer := Namespace.collection_name None (Some "a_session_b") (Some "c") in
  let reader := Namespace.collection_name None (Some "a") (Some "b_session_c") in
  match
    LongTermMemoryManager.store_memory memory_index
      (get_or_create_collection ∅ writer) 100 "3f2a"
      "I am allergic to peanuts" "fact" 0.9 None None None
  with
  | Ok (_, c) =>
    let client : gmap string (list Row) := <[writer := c]> ∅ in
    Props.fields "content"
      (LongTermMemoryManager.retrieve_memories memory_index
         (get_or_create_collection client reader) 200 "peanuts" None None None)
  | Raise _ => []
  end.

(** An agent whose language model is down: the short-term buffer is a
    list of (role, content) pairs, nothing is retrieved, the analyzer is
    the one of the sources and every suggestion is stored under the
    identifier "m-" followed by its type. *)
Definition offline_agent : Workflow.Agent (list (string * string)) :=
  {| Workflow.add_user_message := fun m w => (Ok tt, (w ++ [("user", m)])%list);
     Workflow.retrieve_memories := fun _ _ w => (Ok [], w);
     Workflow._prepare_context := fun _ _ w => (Ok w, w);
     Workflow._generate_response := fun _ w => (Raise "model unavailable", w);
     Workflow.add_assistant_message :=
       fun r w => (Ok tt, (w ++ [("assistant", r)])%list);
     Workflow.analyze_for_memory_storage :=
       fun u r ms w => (Ok (Analyzer._analyze_for_memory_storage u r ms), w);
     Workflow.store_memory_suggestion :=
       fun s w => (Ok ("m-" ++ Analyzer.s_type s), w);
     Workflow.get_conversation_context := fun w => (Ok w, w) |}.

(** The same agent with a language model that answers "Noted." to
    every context. *)
Definition echo_agent : Workflow.Agent (list (string * string)) :=
  {| Workflow.add_user_message := fun m w => (Ok tt, (w ++ [("user", m)])%list);
     Workflow.retrieve_memories := fun _ _ w => (Ok [], w);
     Workflow._prepare_context := fun _ _ w => (Ok w, w);
     Workflow._generate_response := fun _ w => (Ok "Noted.", w);
     Workflow.add_assistant_message :=
       fun r w => (Ok tt, (w ++ [("assistant", r)])%list);
     Workflow.analyze_for_memory_storage :=
       fun u r ms w => (Ok (Analyzer._analyze_for_memory_storage u r ms), w);
     Workflow.store_memory_suggestion :=
       fun s w => (Ok ("m-" ++ Analyzer.s_type s), w);
     Workflow.get_conversation_context := fun w => (Ok w, w) |}.

(** A rendering that never raises: every number is shown as "1", a
    string as itself and any other value as "?". *)
Definition plain : MemoryAgent.Formatting :=
  {| MemoryAgent.str_of_int := fun _ => "1";
     MemoryAgent.upper :=
       fun v => Ok match v with VStr s => s | _ => "?" end;
     MemoryAgent.str_of := fun v => match v with VStr s => s | _ => "?" end;
     MemoryAgent.format_2f := fun _ => Ok "1.00" |}.

(** An embeddings endpoint that answers every text with its length. *)
Definition lengths (batch : list string) : result (list nat) :=
  Ok (String.length <$> batch).


(** A collection with one row whose access counter is a string, as
    [add_memory] accepts it from any caller. *)
Definition miscounted : list Row :=
  match
    VectorStore.add_memory memory_index [] 100 "77ab" "ledger entry"
      (Some (<["access_count" := VStr "3"]> ∅)) None
  with
  | Ok (_, c) => c
  | Raise _ => []
  end.

(** A collection of four rows as [store_memory] writes them: three
    preferences and, in second place, a fact. *)
Definition shelf : list Row :=
  [ {| row_id := "p1"; row_document := "I like green tea";
       row_metadata := Props.written 100 "preference" 0.8 [] None None |};
    {| row_id := "f1"; row_document := "Tea is made from leaves";
       row_metadata := Props.written 101 "fact" 0.9 [] None None |};
    {| row_id := "p2"; row_document := "I prefer tea to coffee";
       row_metadata := Props.written 102 "preference" 0.8 [] None None |};
    {| row_id := "p3"; row_document := "I love iced tea";
       row_metadata := Props.written 103 "preference" 0.8 [] None None |} ].

(** One store followed by two retrievals and a read by identifier. *)
Definition history : list Props.Call :=
  [ Props.call_store 100 "3f2a" "I am allergic to peanuts" "fact" 0.9
      (Some ["health"; "food"]) None (Some "chat");
    Props.call_retrieve 200 "peanuts" None None None;
    Props.call_retrieve 300 "peanuts" None None None;
    Props.call_get 400 "3f2a" ].

(** A text of 1200 characters, longer than the default chunk size. *)
Definition long_text : list ascii := repeat "a"%char 1200.

(** Eleven characters, to be cut in chunks of ten. *)
Definition eleven : list ascii := list_ascii_of_string "aaaaaaaaaaa".

End Instances.

(** * Properties *)

(** ** Namespace derivation *)

(** Two identity pairs that the derivation maps to one collection. *)
Lemma collection_name_clash :
  Namespace.collection_name None (Some "a_session_b") (Some "c")
  = Namespace.collection_name None (Some "a") (Some "b_session_c").
Proof. reflexivity. Qed.

Lemma append_cancel_l (p s t : string) : p ++ s = p ++ t -> s = t.
Proof. induction p as [|c p IH]; simpl; intros H; [done | injection H; auto]. Qed.

Lemma append_same_length (u u' s s' : string) :
  String.length u = String.length u' -> u ++ s = u' ++ s' -> u = u' /\ s = s'.
Proof.
  revert u'. induction u as [|c u IH]; intros [|c' u']; simpl; try discriminate.
  - auto.
  - intros Hlen Heq. injection Hlen as Hlen. injection Heq as -> Heq.
    destruct (IH _ Hlen Heq) as [-> ->]. auto.
Qed.

(** Identifiers of one length, as the registry generates them ("user_"
    and eight hexadecimal digits), do get distinct collection names. *)
Lemma generate_collection_name_injective (u s u' s' : string) :
  String.length u = String.length u' ->
  Namespace.generate_collection_name u s = Namespace.generate_collection_name u' s' ->
  u = u' /\ s = s'.
Proof.
  unfold Namespace.generate_collection_name. intros Hlen Heq.
  apply append_cancel_l in Heq.
  destruct (append_same_length _ _ _ _ Hlen Heq) as [-> Heq'].
  split; [done | by apply append_cancel_l in Heq'].
Qed.

(** C2 (at the failing input).  The identity pairs ("a_session_b", "c")
    and ("a", "b_session_c") are distinct, all four identifiers are
    present, and [VectorStore.__init__] derives the same collection name,
    "user_a_session_b_session_c", for both, as does
    [SessionManager.generate_collection_name]; a memory stored under the
    first pair is returned to a query issued under the second. *)
Theorem C2_distinct_pairs_share_a_collection :
  ("a_session_b", "c") <> ("a", "b_session_c")
  /\ truthy_str (Some "a_session_b") = true /\ truthy_str (Some "c") = true
  /\ truthy_str (Some "a") = true /\ truthy_str (Some "b_session_c") = true
  /\ Namespace.collection_name None (Some "a_session_b") (Some "c")
     = "user_a_session_b_session_c"
  /\ Namespace.collection_name None (Some "a") (Some "b_session_c")
     = "user_a_session_b_session_c"
  /\ Namespace.generate_collection_name "a_session_b" "c"
     = Namespace.generate_collection_name "a" "b_session_c"
  /\ Instances.seen_by_the_other_identity
     = [Some (Chroma.VStr "I am allergic to peanuts")].
Proof.
  repeat split; [discriminate | vm_compute; reflexivity..].
Qed.

(** The derivation is not injective on present identifiers. *)
Lemma collection_name_not_injective :
  ~ (forall u s u' s' : string,
       u <> "" -> s <> "" -> u' <> "" -> s' <> "" -> (u, s) <> (u', s') ->
       Namespace.collection_name None (Some u) (Some s)
       <> Namespace.collection_name None (Some u') (Some s')).
Proof.
  intros H.
  apply (H "a_session_b" "c" "a" "b_session_c"); try discriminate.
  reflexivity.
Qed.

(** ** The suggestion analyzer *)

Lemma any_keyword_spec (keywords : list string) (u : string) :
  Analyzer.any_keyword keywords u = true <->
  exists k, In k keywords /\ contains k (lower u) = true.
Proof. unfold Analyzer.any_keyword. apply existsb_exists. Qed.

(** The analyzer ignores the response and the retrieved memories. *)
Lemma analyze_depends_on_utterance_only {M N : Type}
    (u r r' : string) (ms : list M) (ns : list N) :
  Analyzer._analyze_for_memory_storage u r ms
  = Analyzer._analyze_for_memory_storage u r' ns.
Proof. reflexivity. Qed.

Example analyze_pizza :
  Analyzer._analyze_for_memory_storage
    "I love pizza and my name is Sam" "Nice to meet you" (@nil nat)
  = [ {| Analyzer.s_type := "preference";
         Analyzer.s_content := "I love pizza and my name is Sam";
         Analyzer.s_reason := "User expressed a preference";
         Analyzer.s_importance := 0.8 |};
      {| Analyzer.s_type := "fact";
         Analyzer.s_content := "I love pizza and my name is Sam";
         Analyzer.s_reason := "User shared personal information";
         Analyzer.s_importance := 0.9 |} ].
Proof. reflexivity. Qed.

(** No deduplication: an utterance matching the personal and the
    explicit-memory categories yields two suggestions of type fact. *)
Example analyze_two_facts :
  Analyzer.s_type <$>
    Analyzer._analyze_for_memory_storage
      "Remember that I am a vegetarian" "" (@nil nat)
  = ["fact"; "fact"].
Proof. reflexivity. Qed.

(** C8.  The analyzer is a function of the user utterance alone (the
    response and the retrieved memories do not matter), and whenever the
    lower-cased utterance contains a preference marker and a personal-fact
    marker, the result starts with a suggestion of type preference and
    importance 0.8 followed by one of type fact and importance 0.9, both
    carrying the utterance; the result has at least two elements, and it
    has a third one, again of type fact, exactly when an explicit-memory
    marker occurs as well. *)
Theorem C8_analyzer_categories_fire_independently
    (u r r' : string) (ms ns : list (gmap string Chroma.Value)) :
  (exists k, In k Analyzer.preference_keywords /\ contains k (lower u) = true) ->
  (exists k, In k Analyzer.personal_keywords /\ contains k (lower u) = true) ->
  Analyzer._analyze_for_memory_storage u r ms
  = Analyzer._analyze_for_memory_storage u r' ns
  /\ exists pref fact rest,
       Analyzer._analyze_for_memory_storage u r ms = pref :: fact :: rest
       /\ Analyzer.s_type pref = "preference"
       /\ Analyzer.s_importance pref = 0.8%Q
       /\ Analyzer.s_content pref = u
       /\ Analyzer.s_type fact = "fact"
       /\ Analyzer.s_importance fact = 0.9%Q
       /\ Analyzer.s_content fact = u
       /\ (2 <= length (Analyzer._analyze_for_memory_storage u r ms))%nat
       /\ (rest <> [] <->
           exists k, In k Analyzer.fact_keywords /\ contains k (lower u) = true)
       /\ Forall (fun s => Analyzer.s_type s = "fact") rest.
Proof.
  intros Hpref Hpers.
  apply any_keyword_spec in Hpref. apply any_keyword_spec in Hpers.
  split; [reflexivity |].
  unfold Analyzer._analyze_for_memory_storage. rewrite Hpref, Hpers.
  destruct (Analyzer.any_keyword Analyzer.fact_keywords u) eqn:Hfact.
  - do 3 eexists. split; [reflexivity |].
    do 6 (split; [reflexivity |]).
    split; [simpl; lia |]. split.
    + split; [intros _; by apply any_keyword_spec | done].
    + by repeat constructor.
  - do 3 eexists. split; [reflexivity |].
    do 6 (split; [reflexivity |]).
    split; [simpl; lia |]. split; [| constructor].
    split; [done |]. intros Hk. apply any_keyword_spec in Hk. congruence.
Qed.

Lemma C8_witness :
  exists pref fact rest,
    Analyzer._analyze_for_memory_storage
      "I love pizza and my name is Sam" "" (@nil (gmap string Chroma.Value))
    = pref :: fact :: rest
    /\ Analyzer.s_type pref = "preference"
    /\ Analyzer.s_type fact = "fact".
Proof.
  destruct (C8_analyzer_categories_fire_independently
              "I love pizza and my name is Sam" "" "" [] [])
    as [_ (pref & fact & rest & H & Hp & _ & _ & Hf & _)].
  - exists "i love". split; [simpl; tauto | reflexivity].
  - exists "my name is". split; [simpl; tauto | reflexivity].
  - exists pref, fact, rest. auto.
Defined.

(** ** The registry *)

Section RegistryFacts.
Import Registry.

Lemma elem_of_sessions_of (sm : SessionManager) (uid sid : string) :
  sid ∈ sessions_of sm uid <->
  exists s, sessions sm !! sid = Some s /\ user_id s = uid.
Proof.
  unfold sessions_of. rewrite list_elem_of_bind. split.
  - intros [[sid' s] [Hin Hl]].
    apply elem_of_map_to_list in Hl.
    destruct (String.eqb_spec (user_id s) uid) as [Heq | Hne].
    + apply list_elem_of_singleton in Hin as ->. eauto.
    + by apply elem_of_nil in Hin.
  - intros (s & Hl & Hu). exists (sid, s). split.
    + rewrite <- Hu, String.eqb_refl. by apply list_elem_of_singleton.
    + by apply elem_of_map_to_list.
Qed.

Lemma lookup_foldl_delete (ks : list string) (m : gmap string ChatSession)
    (i : string) :
  foldl (fun m k => delete k m) m ks !! i
  = if decide (i ∈ ks) then None else m !! i.
Proof.
  revert m. induction ks as [|k ks IH]; intros m.
  - destruct (decide (i ∈ [])) as [H | _]; [by apply elem_of_nil in H | done].
  - cbn [foldl]. rewrite IH.
    destruct (decide (i ∈ ks)) as [Hin | Hin];
      destruct (decide (i ∈ k :: ks)) as [Hin' | Hin']; try done.
    + exfalso. apply Hin'. by right.
    + apply elem_of_cons in Hin' as [-> | ?]; [| done].
      by rewrite lookup_delete_eq.
    + apply lookup_delete_ne. intros ->. apply Hin'. by left.
Qed.

Lemma referencing_nil (sm : SessionManager) (uid : string) :
  (forall sid s, sessions sm !! sid = Some s -> user_id s <> uid) ->
  referencing sm uid = [].
Proof.
  intros H. unfold referencing.
  apply elem_of_nil_inv. intros s Hs.
  apply list_elem_of_filter in Hs as [Hu Hs].
  apply list_elem_of_fmap in Hs as ([sid s'] & -> & Hin).
  apply elem_of_map_to_list in Hin. by eapply H.
Qed.

End RegistryFacts.

(** C7.  When the user is registered, [delete_user] answers True; the
    user is gone, no remaining session carries its identifier (whatever
    the number of sessions that did), and the other users and the
    sessions of other users are kept as they were.  When the user is not
    registered, it answers False and the registry is unchanged. *)
Theorem C7_delete_user_cascades (sm : Registry.SessionManager) (uid : string) :
  (is_Some (Registry.users sm !! uid) ->
     (Registry.delete_user sm uid).1 = true
     /\ Registry.users (Registry.delete_user sm uid).2 !! uid = None
     /\ (forall sid s,
           Registry.sessions (Registry.delete_user sm uid).2 !! sid = Some s ->
           Registry.user_id s <> uid)
     /\ Registry.referencing (Registry.delete_user sm uid).2 uid = []
     /\ (forall sid s,
           Registry.sessions sm !! sid = Some s -> Registry.user_id s <> uid ->
           Registry.sessions (Registry.delete_user sm uid).2 !! sid = Some s)
     /\ (forall uid', uid' <> uid ->
           Registry.users (Registry.delete_user sm uid).2 !! uid'
           = Registry.users sm !! uid'))
  /\ (Registry.users sm !! uid = None ->
      Registry.delete_user sm uid = (false, sm)).
Proof.
  split.
  - intros [u Hu]. unfold Registry.delete_user. rewrite Hu. simpl.
    assert (Hgone : forall sid s,
      foldl (fun m k => delete k m) (Registry.sessions sm)
        (Registry.sessions_of sm uid) !! sid = Some s ->
      Registry.user_id s <> uid).
    { intros sid s. rewrite lookup_foldl_delete. case_decide as Hin; [done |].
      intros Hs Heq. apply Hin. apply elem_of_sessions_of. eauto. }
    split; [done |]. split; [apply lookup_delete_eq |].
    split; [exact Hgone |].
    split; [by apply referencing_nil |]. split.
    + intros sid s Hs Hne. rewrite lookup_foldl_delete.
      case_decide as Hin; [| done].
      apply elem_of_sessions_of in Hin as (s' & Hs' & Heq). congruence.
    + intros uid' Hne. by apply lookup_delete_ne.
  - intros Hnone. unfold Registry.delete_user. by rewrite Hnone.
Qed.

Lemma C7_witness :
  (Registry.delete_user Instances.registry "user_0000000a").1 = true
  /\ Registry.referencing
       (Registry.delete_user Instances.registry "user_0000000a").2
       "user_0000000a" = []
  /\ Registry.delete_user Instances.registry "user_0000000z"
     = (false, Instances.registry).
Proof.
  destruct (C7_delete_user_cascades Instances.registry "user_0000000a")
    as [Hyes _].
  destruct (C7_delete_user_cascades Instances.registry "user_0000000z")
    as [_ Hno].
  destruct Hyes as (H1 & _ & _ & H4 & _).
  - eexists. reflexivity.
  - split; [exact H1 |]. split; [exact H4 |]. apply Hno. reflexivity.
Defined.

Example delete_user_two_sessions :
  length (Registry.referencing Instances.registry "user_0000000a") = 2%nat
  /\ dom (Registry.sessions
            (Registry.delete_user Instances.registry "user_0000000a").2)
     = {["session_00000000000b"]}.
Proof. split; vm_compute; reflexivity. Qed.

(** ** Text chunking *)

Section ChunkFacts.
Import Embeddings.

Lemma len_nonneg (t : list ascii) : 0 <= len t.
Proof. unfold len. lia. Qed.

Lemma clamp_index_range (n i : Z) : 0 <= n -> 0 <= clamp_index n i <= n.
Proof. unfold clamp_index. destruct (i <? 0) eqn:E; lia. Qed.

Lemma len_slice (t : list ascii) (start stop : Z) :
  len (slice t start stop)
  <= Z.max 0 (clamp_index (len t) stop - clamp_index (len t) start).
Proof.
  unfold slice, len at 1. rewrite length_take. lia.
Qed.

Lemma len_slice_le (t : list ascii) (start stop : Z) :
  len (slice t start stop) <= len t.
Proof.
  pose proof (len_slice t start stop).
  pose proof (clamp_index_range (len t) start (len_nonneg t)).
  pose proof (clamp_index_range (len t) stop (len_nonneg t)). lia.
Qed.

Lemma len_slice_window (t : list ascii) (start size : Z) :
  0 <= start -> 0 <= size -> len (slice t start (start + size)) <= size.
Proof.
  intros Hs Hz. pose proof (len_slice t start (start + size)) as H.
  pose proof (len_nonneg t).
  unfold clamp_index in H.
  destruct (start <? 0) eqn:E1; [lia |].
  destruct (start + size <? 0) eqn:E2; lia.
Qed.

Lemma length_lstrip (t : list ascii) : (length (lstrip t) <= length t)%nat.
Proof.
  induction t as [|c t IH]; simpl; [lia |].
  destruct (is_space c); simpl; lia.
Qed.

Lemma len_strip (t : list ascii) : len (strip t) <= len t.
Proof.
  unfold strip, len. rewrite length_rev.
  pose proof (length_lstrip (rev (lstrip t))) as H1.
  rewrite length_rev in H1.
  pose proof (length_lstrip t). lia.
Qed.

Lemma rfind_from_range (c : ascii) (t : list ascii) (i found : Z) :
  found < i ->
  found <= rfind_from c t i found < i + len t.
Proof.
  revert i found. induction t as [|x t IH]; intros i found Hlt.
  - unfold len. cbn [rfind_from length]. lia.
  - assert (Hlen : len (x :: t) = len t + 1)
      by (unfold len; cbn [length]; lia).
    rewrite Hlen. cbn [rfind_from].
    destruct (Ascii.eqb x c).
    + specialize (IH (i + 1) i). lia.
    + specialize (IH (i + 1) found). lia.
Qed.

Lemma rfind_range (c : ascii) (t : list ascii) : -1 <= rfind c t < len t.
Proof. unfold rfind. pose proof (rfind_from_range c t 0 (-1)). lia. Qed.

(** The loop ends within [fuel] passes when every pass moves [start]
    forward, and all the chunks it adds fit in [chunk_size]. *)
Lemma chunk_loop_total (text : list ascii) (chunk_size overlap : Z) :
  0 < chunk_size -> 0 <= overlap -> 5 * overlap < 4 * chunk_size ->
  forall (fuel : nat) (start : Z) (chunks : list (list ascii)),
    0 <= start ->
    Z.max 0 (len text - start) < Z.of_nat fuel ->
    Forall (fun c => len c <= chunk_size) chunks ->
    exists res,
      chunk_loop fuel text chunk_size overlap start chunks = Some res
      /\ Forall (fun c => len c <= chunk_size) res
      /\ (start < len text -> res <> []).
Proof.
  intros Hcs Hov Hlt. induction fuel as [|fuel IH]; intros start chunks Hs Hf Hall.
  - lia.
  - cbn [chunk_loop].
    destruct (start <? len text) eqn:Hwhile;
      [| exists chunks; split; [done | split; [done | lia]]].
    apply Z.ltb_lt in Hwhile.
    set (chunk := slice text start (start + chunk_size)).
    assert (Hchunk : len chunk <= chunk_size)
      by (apply len_slice_window; lia).
    set (cut :=
      if start + chunk_size <? len text then
        if 4 * chunk_size <? 5 * rfind " " chunk then
          (slice chunk 0 (rfind " " chunk), start + rfind " " chunk)
        else (chunk, start + chunk_size)
      else (chunk, start + chunk_size)).
    assert (Hcut : len cut.1 <= chunk_size /\ start + overlap < cut.2).
    { unfold cut. pose proof (rfind_range " " chunk).
      pose proof (len_slice_le chunk 0 (rfind " " chunk)).
      destruct (start + chunk_size <? len text);
        [destruct (4 * chunk_size <? 5 * rfind " " chunk) eqn:E |];
        simpl; try apply Z.ltb_lt in E; lia. }
    destruct cut as [chunk' end_]. simpl in Hcut. destruct Hcut as [Hc Hend].
    assert (Hall' : Forall (fun c => len c <= chunk_size)
                      (chunks ++ [strip chunk'])).
    { apply Forall_app. split; [done |]. constructor; [| done].
      pose proof (len_strip chunk'). lia. }
    destruct (len text <=? end_ - overlap) eqn:Hbreak.
    + eexists. split; [reflexivity |]. split; [done |].
      intros _. by destruct chunks.
    + apply Z.leb_gt in Hbreak.
      destruct (IH (end_ - overlap) (chunks ++ [strip chunk'])%list)
        as (res & Hres & Hfor & Hne); [lia | lia | done |].
      exists res. split; [done |]. split; [done |]. intros _. apply Hne. lia.
Qed.

End ChunkFacts.

(** With an effective overlap (the argument, or 200 when the argument is
    None or 0) that is non-negative and below 0.8 times the effective
    chunk size, [chunk_text] returns within [len(text) + 1] passes, the
    result is not empty and every chunk fits in the chunk size. *)
Lemma chunk_text_terminates (text : list ascii) (chunk_size overlap : option Z) :
  let cs := or_int chunk_size Config.CHUNK_SIZE in
  let ov := or_int overlap Config.CHUNK_OVERLAP in
  0 < cs -> 0 <= ov -> 5 * ov < 4 * cs ->
  exists chunks,
    Embeddings.chunk_text (S (length text)) text chunk_size overlap = Some chunks
    /\ chunks <> []
    /\ Forall (fun c => Embeddings.len c <= cs) chunks.
Proof.
  intros cs ov Hcs Hov Hlt. unfold Embeddings.chunk_text. fold cs. fold ov.
  destruct (Embeddings.len text <=? cs) eqn:Hshort.
  - apply Z.leb_le in Hshort. exists [text]. split; [done |]. split; [done |].
    by constructor.
  - apply Z.leb_gt in Hshort.
    destruct (chunk_loop_total text cs ov Hcs Hov Hlt (S (length text)) 0 [])
      as (res & Hres & Hall & Hne).
    + lia.
    + unfold Embeddings.len. lia.
    + constructor.
    + exists res. split; [done |]. split; [| done]. apply Hne. lia.
Qed.

Lemma chunk_text_terminates_defaults :
  exists chunks,
    Embeddings.chunk_text 12 (list_ascii_of_string "hello world") None None
    = Some chunks /\ chunks <> [].
Proof.
  destruct (chunk_text_terminates (list_ascii_of_string "hello world") None None)
    as (chunks & H & Hne & _); [reflexivity | discriminate | reflexivity |].
  exists chunks. auto.
Defined.

(** An explicit overlap of 0 is falsy: [chunk_text] replaces it by the
    configured 200. *)
Lemma overlap_zero_is_default :
  or_int (Some 0) Config.CHUNK_OVERLAP = 200.
Proof. reflexivity. Qed.

Lemma chunk_loop_stuck (fuel : nat) (start : Z) (chunks : list (list ascii)) :
  start <= -21 ->
  Embeddings.chunk_loop fuel Instances.eleven 10 200 start chunks = None.
Proof.
  revert start chunks. induction fuel as [|fuel IH]; intros start chunks Hs.
  - reflexivity.
  - cbn [Embeddings.chunk_loop].
    change (Embeddings.len Instances.eleven) with 11.
    assert (Hslice : Embeddings.slice Instances.eleven start (start + 10) = []).
    { unfold Embeddings.slice. change (Embeddings.len Instances.eleven) with 11.
      unfold Embeddings.clamp_index.
      destruct (start <? 0) eqn:E1; [| lia].
      destruct (start + 10 <? 0) eqn:E2; [| lia].
      replace (Z.max 0 (11 + (start + 10)) - Z.max 0 (11 + start)) with 0 by lia.
      reflexivity. }
    rewrite Hslice.
    destruct (start <? 11) eqn:E1; [| lia].
    destruct (start + 10 <? 11) eqn:E2; [| lia].
    change (Embeddings.rfind " " []) with (-1).
    change (4 * 10 <? 5 * -1) with false. cbv iota beta.
    destruct (11 <=? start + 10 - 200) eqn:E3; [lia |].
    apply IH. lia.
Qed.

(** C10 (at the failing input).  For an eleven-character text, chunk
    size 10 and overlap 0 (so that 0 <= overlap < 0.8 * chunk_size),
    [chunk_text] takes 200 for the overlap, the start index drops to -190
    after the first pass and never reaches the end of the text again: no
    number of passes makes the loop return. *)
Theorem C10_chunk_text_overlap_zero_never_returns :
  0 < 10 /\ 0 <= 0 /\ 5 * 0 < 4 * 10
  /\ forall fuel : nat,
       Embeddings.chunk_text fuel Instances.eleven (Some 10) (Some 0) = None.
Proof.
  repeat split; try lia.
  intros [|fuel]; [reflexivity |].
  unfold Embeddings.chunk_text.
  change (or_int (Some 10) Config.CHUNK_SIZE) with 10.
  change (or_int (Some 0) Config.CHUNK_OVERLAP) with 200.
  change (Embeddings.len Instances.eleven <=? 10) with false. cbv iota.
  cbn [Embeddings.chunk_loop].
  change (Embeddings.len Instances.eleven) with 11.
  change (0 <? 11) with true. cbv iota.
  change (0 + 10 <? 11) with true.
  set (chunk := Embeddings.slice Instances.eleven 0 (0 + 10)).
  change (Embeddings.rfind " " chunk) with (-1).
  change (4 * 10 <? 5 * -1) with false. cbv iota beta.
  change (11 <=? 0 + 10 - 200) with false. cbv iota.
  apply chunk_loop_stuck. lia.
Qed.

(** The same text is chunked as soon as the overlap is not falsy. *)
Example chunk_text_overlap_one :
  Embeddings.chunk_text 12 Instances.eleven (Some 10) (Some 1)
  = Some [list_ascii_of_string "aaaaaaaaaa"; list_ascii_of_string "aa"].
Proof. reflexivity. Qed.

(** ** The long-term memory manager *)

Section ManagerFacts.
Import Chroma.
Context {Emb Coll : Type} (svc : Services Emb Coll).

(** The [except] clause of [retrieve_memories] leaves no exception. *)
Lemma retrieve_memories_never_raises (c : Coll) (now : Q) (query : string)
    (memory_type : option string) (max_results : option Z)
    (min_importance : option Q) :
  exists l,
    LongTermMemoryManager.retrieve_memories svc c now query memory_type
      max_results min_importance = Ok l.
Proof.
  unfold LongTermMemoryManager.retrieve_memories.
  destruct (LongTermMemoryManager.retrieve_memories_try _ _ _ _ _ _ _); eauto.
Qed.

Lemma search_memories_raises (c : Coll) (query : string) (n : Z)
    (threshold : option Q) :
  (forall emb, exists err, collection_query svc c emb n = Raise err) ->
  exists err, VectorStore.search_memories svc c query n threshold = Raise err.
Proof.
  intros Hq. unfold VectorStore.search_memories.
  destruct (embed_text svc query) as [emb | err]; simpl; [| eauto].
  destruct (Hq emb) as [err ->]. simpl. eauto.
Qed.

Lemma add_memory_raises (c : Coll) (now : Q) (uuid text : string)
    (metadata : option (gmap string Value)) (memory_id : option string) :
  (forall emb doc meta i, exists err,
      collection_add svc c emb doc meta i = Raise err) ->
  exists err,
    VectorStore.add_memory svc c now uuid text metadata memory_id = Raise err.
Proof.
  intros Ha. unfold VectorStore.add_memory.
  destruct (embed_text svc text) as [emb | err]; simpl; [| eauto].
  match goal with
  | |- context [collection_add svc c emb ?d ?m ?i] =>
      destruct (Ha emb d m i) as [err ->]
  end.
  simpl. eauto.
Qed.

End ManagerFacts.

(** C3.  When every call on the collection raises (add, query and get,
    whatever the arguments), [retrieve_memories] returns the empty list
    for every input and does not raise, and [store_memory] raises for
    every input. *)
Theorem C3_retrieval_swallows_storage_propagates
    {Emb Coll : Type} (svc : Chroma.Services Emb Coll)
    (Hadd : forall c emb doc meta i, exists err,
        Chroma.collection_add svc c emb doc meta i = Raise err)
    (Hquery : forall c emb n, exists err,
        Chroma.collection_query svc c emb n = Raise err)
    (Hget : forall c i, exists err, Chroma.collection_get svc c i = Raise err) :
  (forall c now query memory_type max_results min_importance,
      LongTermMemoryManager.retrieve_memories svc c now query memory_type
        max_results min_importance = Ok [])
  /\ (forall c now uuid content memory_type importance tags context source,
      exists err,
        LongTermMemoryManager.store_memory svc c now uuid content memory_type
          importance tags context source = Raise err).
Proof.
  split.
  - intros c now query memory_type max_results min_importance.
    unfold LongTermMemoryManager.retrieve_memories,
      LongTermMemoryManager.retrieve_memories_try.
    destruct (search_memories_raises svc c query
                (or_int max_results LongTermMemoryManager.max_memories * 2)
                (Some LongTermMemoryManager.similarity_threshold)
                (fun emb => Hquery c emb _)) as [err ->].
    reflexivity.
  - intros. unfold LongTermMemoryManager.store_memory.
    apply add_memory_raises. intros. apply Hadd.
Qed.

Lemma C3_witness :
  LongTermMemoryManager.retrieve_memories Instances.broken_index tt 100
    "What foods should I avoid?" None None None = Ok []
  /\ exists err,
       LongTermMemoryManager.store_memory Instances.broken_index tt 100
         "4f1c" "I am allergic to peanuts" "fact" 0.9 None None None
       = Raise err.
Proof.
  destruct (C3_retrieval_swallows_storage_propagates Instances.broken_index)
    as [Hr Hs].
  - intros. eexists. reflexivity.
  - intros. eexists. reflexivity.
  - intros. eexists. reflexivity.
  - split; [apply Hr | apply Hs].
Defined.

Section FilterFacts.
Import Chroma LongTermMemoryManager Props.

Lemma refresh_spec (now : Q) (metadata base r : gmap string Value) :
  refresh now metadata base = Ok r ->
  r !! "last_accessed" = Some (VFloat now)
  /\ (exists v, add_one (default (VInt 0) (metadata !! "access_count")) = Ok v
                /\ r !! "access_count" = Some v)
  /\ (forall k, k <> "last_accessed" -> k <> "access_count" ->
        r !! k = match metadata !! k with
                 | Some v => Some v
                 | None => base !! k
                 end).
Proof.
  unfold refresh. rewrite lookup_insert_ne by done.
  destruct (add_one (default (VInt 0) (metadata !! "access_count")))
    as [v | e] eqn:Hv; simpl; [| discriminate].
  intros [= <-]. split; [| split].
  - apply lookup_union_Some_l. rewrite lookup_insert_ne by done.
    apply lookup_insert_eq.
  - exists v. split; [done |]. apply lookup_union_Some_l. apply lookup_insert_eq.
  - intros k Hk1 Hk2. rewrite lookup_union.
    rewrite !lookup_insert_ne by done.
    destruct (metadata !! k), (base !! k); reflexivity.
Qed.

Lemma refresh_counted (now : Q) (metadata base : gmap string Value) :
  counted metadata -> exists r, refresh now metadata base = Ok r.
Proof.
  intros [v Hv]. unfold refresh. rewrite lookup_insert_ne by done.
  rewrite Hv. simpl. eauto.
Qed.

Lemma differs_false (v : option Value) (s : string) :
  differs v s = false -> v = Some (VStr s).
Proof.
  destruct v as [[]|]; simpl; try discriminate.
  intros H. apply negb_false_iff, String.eqb_eq in H. by subst.
Qed.

Lemma less_than_false (v : Value) (x : Q) :
  less_than v x = Ok false -> exists q, number v = Some q /\ (x <= q)%Q.
Proof.
  unfold less_than. destruct (number v) as [q|]; [| discriminate].
  intros [= H]. exists q. split; [done |].
  apply negb_false_iff in H. by apply Qle_bool_iff.
Qed.

Lemma truthy_str_Some (t : string) : t <> "" -> truthy_str (Some t) = true.
Proof.
  intros H. simpl. apply negb_true_iff. by apply String.eqb_neq.
Qed.

Lemma truthy_float_Some (x : Q) : ~ (x == 0)%Q -> truthy_float (Some x) = true.
Proof.
  intros H. simpl. apply negb_true_iff. apply Z.eqb_neq. intros Hn.
  apply H. unfold Qeq. simpl. lia.
Qed.

(** What the filtering loop returns: the records of a subsequence of
    the search results, in the same order, appended to the list built so
    far; every selected result passes the filters, and the list stops
    growing at [max_results]. *)
Lemma filter_loop_spec (now : Q) (memory_type : option string)
    (min_importance : option Q) (max_results : Z) :
  forall (memories : list VectorStore.Memory)
         (filtered res : list (gmap string Value)),
    filter_loop now memory_type min_importance max_results memories filtered
    = Ok res ->
    exists sel new,
      sel `sublist_of` memories
      /\ Forall (passes memory_type min_importance) sel
      /\ Forall2 (fun m r => memory_result now m = Ok r) sel new
      /\ res = (filtered ++ new)%list
      /\ (Z.of_nat (length filtered) < max_results ->
          Z.of_nat (length res) <= max_results).
Proof.
  induction memories as [|m rest IH]; intros filtered res; cbn [filter_loop].
  - intros [= <-]. exists [], []. rewrite app_nil_r.
    repeat split; try done; lia.
  - destruct (truthy_str memory_type
              && differs (VectorStore.metadata m !! "memory_type")
                   (default "" memory_type)) eqn:Htype.
    { intros H. destruct (IH _ _ H) as (sel & new & Hsub & Hpass & Hres & Heq & Hlen).
      exists sel, new. repeat split; try done. by apply sublist_cons. }
    destruct (if truthy_float min_importance
              then less_than (default (VInt 0) (VectorStore.metadata m !! "importance"))
                     (default 0%Q min_importance)
              else Ok false) as [[|] | e] eqn:Himp; [| | discriminate].
    { intros H. destruct (IH _ _ H) as (sel & new & Hsub & Hpass & Hres & Heq & Hlen).
      exists sel, new. repeat split; try done. by apply sublist_cons. }
    assert (Hm : passes memory_type min_importance m).
    { split.
      - intros t -> Ht. rewrite truthy_str_Some in Htype by done.
        simpl in Htype. by apply differs_false.
      - intros x -> Hx. rewrite truthy_float_Some in Himp by done.
        simpl in Himp. by apply less_than_false. }
    destruct (memory_result now m) as [r | e] eqn:Hr; [| discriminate].
    destruct (max_results <=? Z.of_nat (length (filtered ++ [r]))) eqn:Hfull.
    + intros [= <-]. exists [m], [r].
      split; [apply sublist_skip, sublist_nil_l |].
      split; [by constructor |]. split; [by repeat constructor |].
      split; [done |]. rewrite length_app. simpl. lia.
    + intros H. apply Z.leb_gt in Hfull.
      destruct (IH _ _ H) as (sel & new & Hsub & Hpass & Hres & Heq & Hlen).
      exists (m :: sel), (r :: new).
      split; [by apply sublist_skip |]. split; [by constructor |].
      split; [by constructor |].
      split; [by rewrite Heq, <- app_assoc |]. intros _. by apply Hlen.
Qed.

(** Without filters the loop cannot fail on counted records, and it
    keeps the first one. *)
Lemma filter_loop_unfiltered (now : Q) (memory_type : option string)
    (min_importance : option Q) (max_results : Z) :
  truthy_str memory_type = false -> truthy_float min_importance = false ->
  forall (memories : list VectorStore.Memory)
         (filtered : list (gmap string Value)),
    Forall (fun m => counted (VectorStore.metadata m)) memories ->
    exists new,
      filter_loop now memory_type min_importance max_results memories filtered
      = Ok (filtered ++ new)%list
      /\ (memories <> [] -> new <> []).
Proof.
  intros Ht Hi. induction memories as [|m rest IH]; intros filtered Hall;
    cbn [filter_loop].
  - exists []. by rewrite app_nil_r.
  - rewrite Ht, Hi. cbn [andb].
    apply Forall_cons in Hall as [Hm Hall].
    destruct (refresh_counted now (VectorStore.metadata m)
                (<["id" := VStr (VectorStore.id m)]>
                 (<["content" := VStr (VectorStore.text m)]>
                  (<["similarity" := VFloat (VectorStore.similarity m)]> ∅))) Hm)
      as [r Hr].
    unfold memory_result. rewrite Hr.
    destruct (max_results <=? Z.of_nat (length (filtered ++ [r]))).
    + exists [r]. done.
    + destruct (IH (filtered ++ [r])%list Hall) as (new & Hnew & _).
      exists (r :: new). rewrite Hnew, <- app_assoc. done.
Qed.

Lemma collect_counted (threshold : option Q) (rows : list Hit) :
  Forall (fun h => counted (hit_metadata h)) rows ->
  Forall (fun m => counted (VectorStore.metadata m))
    (VectorStore.collect threshold rows).
Proof.
  induction 1 as [|h rows Hh Hall IH]; cbn [VectorStore.collect]; [constructor |].
  destruct (match threshold with
            | Some t => Qlt_bool (1 - hit_distance h) t
            | None => false
            end); [done | by constructor].
Qed.

Lemma collect_unthresholded (rows : list Hit) :
  rows <> [] -> VectorStore.collect None rows <> [].
Proof. by destruct rows. Qed.

End FilterFacts.

(** C1 (amended).  Let n be the effective [max_results] (the argument, or 5 when
    it is None or 0), and suppose the embedding of the query and the two
    index queries (for 2n and for n rows) succeed.  If no row of the first
    answer reaches the configured similarity threshold, the result is
    computed from all the rows of the second, unthresholded answer.
    Consequently, when that answer has at least one row, the rows are
    records with a numeric access counter and neither filter is given,
    [retrieve_memories] returns a non-empty list. *)
Theorem C1_threshold_fallback
    {Emb Coll : Type} (svc : Chroma.Services Emb Coll) (c : Coll) (now : Q)
    (query : string) (memory_type : option string) (max_results : option Z)
    (min_importance : option Q) (emb : Emb) (rows1 rows2 : list Chroma.Hit) :
  let n := or_int max_results LongTermMemoryManager.max_memories in
  Chroma.embed_text svc query = Ok emb ->
  Chroma.collection_query svc c emb (n * 2) = Ok rows1 ->
  Chroma.collection_query svc c emb n = Ok rows2 ->
  (VectorStore.search_memories svc c query (n * 2)
     (Some LongTermMemoryManager.similarity_threshold) = Ok [] ->
   LongTermMemoryManager.retrieve_memories_try svc c now query memory_type
     max_results min_importance
   = LongTermMemoryManager.filter_loop now memory_type min_importance n
       (VectorStore.collect None rows2) [])
  /\ (rows2 <> [] ->
      Forall (fun h => Props.counted (Chroma.hit_metadata h)) (rows1 ++ rows2) ->
      memory_type = None -> min_importance = None ->
      exists r rest,
        LongTermMemoryManager.retrieve_memories svc c now query memory_type
          max_results min_importance = Ok (r :: rest)).
Proof.
  intros n Hemb H1 H2.
  assert (Hs1 : VectorStore.search_memories svc c query (n * 2)
                  (Some LongTermMemoryManager.similarity_threshold)
                = Ok (VectorStore.collect
                        (Some LongTermMemoryManager.similarity_threshold) rows1)).
  { unfold VectorStore.search_memories. rewrite Hemb. simpl. by rewrite H1. }
  assert (Hs2 : VectorStore.search_memories svc c query n None
                = Ok (VectorStore.collect None rows2)).
  { unfold VectorStore.search_memories. rewrite Hemb. simpl. by rewrite H2. }
  split.
  - intros Hnone. unfold LongTermMemoryManager.retrieve_memories_try.
    fold n. rewrite Hnone. simpl. rewrite Hs2. reflexivity.
  - intros Hrows Hall -> ->.
    apply Forall_app in Hall as [Hall1 Hall2].
    unfold LongTermMemoryManager.retrieve_memories,
      LongTermMemoryManager.retrieve_memories_try.
    fold n. rewrite Hs1. simpl.
    set (first := VectorStore.collect
                    (Some LongTermMemoryManager.similarity_threshold) rows1).
    assert (Hfirst : Forall (fun m => Props.counted (VectorStore.metadata m)) first)
      by by apply collect_counted.
    destruct first as [|m first'] eqn:Efirst.
    + rewrite Hs2. simpl.
      destruct (filter_loop_unfiltered now None None n eq_refl eq_refl
                  (VectorStore.collect None rows2) [])
        as (new & -> & Hne); [by apply collect_counted |].
      destruct new as [|r rest]; [| by eauto].
      exfalso. apply Hne; [| done]. by apply collect_unthresholded.
    + destruct (filter_loop_unfiltered now None None n eq_refl eq_refl
                  (m :: first') [] Hfirst) as (new & Hnew & Hne).
      unfold mbind, result_bind. rewrite Hnew. clear Hnew.
      destruct new as [|r rest]; [| by eauto].
      exfalso. by apply Hne.
Qed.

Lemma C1_witness :
  exists r rest,
    LongTermMemoryManager.retrieve_memories Instances.memory_index
      Instances.peanuts 200 "What foods should I avoid?" None None None
    = Ok (r :: rest).
Proof.
  destruct (C1_threshold_fallback Instances.memory_index Instances.peanuts 200
              "What foods should I avoid?" None None None
              "What foods should I avoid?"
              (Instances.to_hit "What foods should I avoid?" <$> Instances.peanuts)
              (Instances.to_hit "What foods should I avoid?" <$> Instances.peanuts))
    as [_ H]; [reflexivity | reflexivity | reflexivity |].
  apply H; [discriminate | | reflexivity | reflexivity].
  repeat constructor; eexists; vm_compute; reflexivity.
Defined.

(** C1 (as stated) fails on a row whose access counter is not a
    number.  The collection holds one memory, nothing reaches the
    threshold for the query, the unthresholded query answers that row and
    no filter is given; the TypeError raised when the record is built is
    caught by [retrieve_memories], which returns the empty list. *)
Lemma C1_counterexample :
  match VectorStore.search_memories Instances.memory_index Instances.miscounted
          "What foods should I avoid?" 10
          (Some LongTermMemoryManager.similarity_threshold) with
  | Ok first => Some (VectorStore.id <$> first)
  | Raise _ => None
  end = Some []
  /\ match VectorStore.search_memories Instances.memory_index
             Instances.miscounted "What foods should I avoid?" 5 None with
     | Ok memories =>
       Some ((fun m => (VectorStore.id m,
                        VectorStore.metadata m !! "access_count"))
               <$> memories)
     | Raise _ => None
     end = Some [("77ab", Some (Chroma.VStr "3"))]
  /\ LongTermMemoryManager.retrieve_memories Instances.memory_index
       Instances.miscounted 200 "What foods should I avoid?" None None None
     = Ok [].
Proof. repeat split; vm_compute; reflexivity. Qed.

(** On the witness the fallback is what fires: nothing passes the
    threshold, the stored record comes back with similarity 0.1. *)
Example fallback_fires :
  VectorStore.search_memories Instances.memory_index Instances.peanuts
    "What foods should I avoid?" 10
    (Some LongTermMemoryManager.similarity_threshold) = Ok []
  /\ match VectorStore.search_memories Instances.memory_index
             Instances.peanuts "What foods should I avoid?" 5 None with
     | Ok l => VectorStore.similarity <$> l
     | Raise _ => []
     end = [0.1%Q].
Proof. split; reflexivity. Qed.

Lemma memory_result_lookup (now : Q) (m : VectorStore.Memory)
    (r : gmap string Chroma.Value) (k : string) :
  LongTermMemoryManager.memory_result now m = Ok r ->
  k <> "last_accessed" -> k <> "access_count" ->
  k <> "id" -> k <> "content" -> k <> "similarity" ->
  r !! k = VectorStore.metadata m !! k.
Proof.
  intros Hr H1 H2 H3 H4 H5. unfold LongTermMemoryManager.memory_result in Hr.
  apply refresh_spec in Hr as (_ & _ & Hk). rewrite (Hk k H1 H2).
  destruct (VectorStore.metadata m !! k); [done |].
  by rewrite !lookup_insert_ne, lookup_empty by done.
Qed.

(** What [retrieve_memories] returns, in terms of the searches. *)
Lemma retrieve_memories_spec
    {Emb Coll : Type} (svc : Chroma.Services Emb Coll) (c : Coll) (now : Q)
    (query : string) (memory_type : option string) (max_results : option Z)
    (min_importance : option Q) :
  let n := or_int max_results LongTermMemoryManager.max_memories in
  exists res,
    LongTermMemoryManager.retrieve_memories svc c now query memory_type
      max_results min_importance = Ok res
    /\ (forall t, memory_type = Some t -> t <> "" ->
          Forall (fun r => r !! "memory_type" = Some (Chroma.VStr t)) res)
    /\ (forall x, min_importance = Some x -> ~ (x == 0)%Q ->
          Forall (fun r => exists q,
                    Chroma.number (default (Chroma.VInt 0) (r !! "importance"))
                    = Some q /\ (x <= q)%Q) res)
    /\ (exists memories sel,
          (memories = []
           \/ VectorStore.search_memories svc c query (n * 2)
                (Some LongTermMemoryManager.similarity_threshold) = Ok memories
           \/ VectorStore.search_memories svc c query n None = Ok memories)
          /\ sel `sublist_of` memories
          /\ Forall2 (fun m r => LongTermMemoryManager.memory_result now m = Ok r)
               sel res)
    /\ (0 < n -> Z.of_nat (length res) <= n).
Proof.
  intros n.
  assert (Hnil : exists res : list (gmap string Chroma.Value),
    Ok [] = Ok res
    /\ (forall t, memory_type = Some t -> t <> "" ->
          Forall (fun r => r !! "memory_type" = Some (Chroma.VStr t)) res)
    /\ (forall x, min_importance = Some x -> ~ (x == 0)%Q ->
          Forall (fun r => exists q,
                    Chroma.number (default (Chroma.VInt 0) (r !! "importance"))
                    = Some q /\ (x <= q)%Q) res)
    /\ (exists memories sel,
          (memories = []
           \/ VectorStore.search_memories svc c query (n * 2)
                (Some LongTermMemoryManager.similarity_threshold) = Ok memories
           \/ VectorStore.search_memories svc c query n None = Ok memories)
          /\ sel `sublist_of` memories
          /\ Forall2 (fun m r => LongTermMemoryManager.memory_result now m = Ok r)
               sel res)
    /\ (0 < n -> Z.of_nat (length res) <= n)).
  { exists []. split; [done |]. split; [by constructor |].
    split; [by constructor |]. split; [| simpl; lia].
    exists [], []. split; [by left |]. split; constructor. }
  unfold LongTermMemoryManager.retrieve_memories,
    LongTermMemoryManager.retrieve_memories_try. fold n.
  destruct (VectorStore.search_memories svc c query (n * 2)
              (Some LongTermMemoryManager.similarity_threshold))
    as [first | e] eqn:Hs1; [| exact Hnil].
  unfold mbind at 1, result_bind at 1.
  set (second := match first with
                 | [] => VectorStore.search_memories svc c query n None
                 | _ => Ok first
                 end).
  destruct second as [memories | e] eqn:Hs2; [| exact Hnil].
  unfold mbind, result_bind.
  assert (Hfrom : VectorStore.search_memories svc c query (n * 2)
                    (Some LongTermMemoryManager.similarity_threshold) = Ok memories
                  \/ VectorStore.search_memories svc c query n None = Ok memories).
  { subst second. destruct first; [by right | left]. congruence. }
  destruct (LongTermMemoryManager.filter_loop now memory_type min_importance n
              memories []) as [res | e] eqn:Hloop; [| exact Hnil].
  clear Hnil.
  apply filter_loop_spec in Hloop
    as (sel & new & Hsub & Hpass & Hbuilt & -> & Hlen).
  exists new. simpl. split; [done |].
  assert (Hboth : Forall2 (fun m r =>
            LongTermMemoryManager.memory_result now m = Ok r
            /\ Props.passes memory_type min_importance m) sel new).
  { clear -Hpass Hbuilt. induction Hbuilt; [constructor |].
    apply Forall_cons in Hpass as [? ?]. constructor; auto. }
  split; [| split; [| split]].
  - intros t Ht Hne. clear -Hboth Ht Hne.
    induction Hboth as [|m r sel new [Hr [Hp _]] _ IH]; constructor; [| done].
    rewrite (memory_result_lookup now m r "memory_type" Hr) by done.
    by apply Hp.
  - intros x Hx Hne. clear -Hboth Hx Hne.
    induction Hboth as [|m r sel new [Hr [_ Hp]] _ IH]; constructor; [| done].
    rewrite (memory_result_lookup now m r "importance" Hr) by done.
    by apply Hp.
  - exists memories, sel. split; [| done].
    right. destruct Hfrom as [H | H]; [left; congruence | by right].
  - intros Hn. apply Hlen. simpl. lia.
Qed.

(** C6 (amended).  [retrieve_memories] always returns a list, and with
    n the effective [max_results] (the argument, or 5 when it is None or
    0): when [memory_type] is a non-empty string every returned record has
    exactly that memory_type; when [min_importance] is not zero every
    returned record has a numeric importance (0 when absent) of at least
    [min_importance]; the returned records are built, in order, from a
    subsequence of the rows of one of the two searches; and when n is
    positive the list has at most n elements. *)
Theorem C6_post_filters
    {Emb Coll : Type} (svc : Chroma.Services Emb Coll) (c : Coll) (now : Q)
    (query : string) (memory_type : option string) (max_results : option Z)
    (min_importance : option Q) :
  let n := or_int max_results LongTermMemoryManager.max_memories in
  exists res,
    LongTermMemoryManager.retrieve_memories svc c now query memory_type
      max_results min_importance = Ok res
    /\ (forall t, memory_type = Some t -> t <> "" ->
          Forall (fun r => r !! "memory_type" = Some (Chroma.VStr t)) res)
    /\ (forall x, min_importance = Some x -> ~ (x == 0)%Q ->
          Forall (fun r => exists q,
                    Chroma.number (default (Chroma.VInt 0) (r !! "importance"))
                    = Some q /\ (x <= q)%Q) res)
    /\ (exists memories sel,
          (memories = []
           \/ VectorStore.search_memories svc c query (n * 2)
                (Some LongTermMemoryManager.similarity_threshold) = Ok memories
           \/ VectorStore.search_memories svc c query n None = Ok memories)
          /\ sel `sublist_of` memories
          /\ Forall2 (fun m r => LongTermMemoryManager.memory_result now m = Ok r)
               sel res)
    /\ (0 < n -> Z.of_nat (length res) <= n).
Proof.
  exact (retrieve_memories_spec svc c now query memory_type max_results
           min_importance).
Qed.

(** C6 (as stated) fails on the falsy arguments.  With [max_results=0]
    and a type filter the call returns one record, more than
    [max_results]; with [max_results=-1] the index refuses the query and
    the empty list is still longer than -1; an empty [memory_type] filters
    nothing, so the returned record has type "fact"; a [min_importance] of
    0.0 filters nothing, so a record of importance -1 is returned. *)
Lemma C6_counterexample :
  (Props.fields "content"
     (LongTermMemoryManager.retrieve_memories Instances.memory_index
        Instances.peanuts 200 "What foods should I avoid?" (Some "fact")
        (Some 0) None)
   = [Some (Chroma.VStr "I am allergic to peanuts")]
   /\ ~ (Z.of_nat (length [Some (Chroma.VStr "I am allergic to peanuts")]) <= 0))
  /\ (LongTermMemoryManager.retrieve_memories Instances.memory_index
        Instances.peanuts 200 "What foods should I avoid?" (Some "fact")
        (Some (-1)) None = Ok []
      /\ ~ (Z.of_nat (length (@nil (gmap string Chroma.Value))) <= -1))
  /\ (Props.fields "memory_type"
        (LongTermMemoryManager.retrieve_memories Instances.memory_index
           Instances.peanuts 200 "What foods should I avoid?" (Some "")
           (Some 3) None)
      = [Some (Chroma.VStr "fact")]
      /\ Some (Chroma.VStr "fact") <> Some (Chroma.VStr ""))
  /\ (Props.fields "importance"
        (LongTermMemoryManager.retrieve_memories Instances.memory_index
           Instances.ledger 200 "ledger" None (Some 3) (Some 0%Q))
      = [Some (Chroma.VFloat (-1))]
      /\ ~ (0 <= -1)%Q).
Proof.
  split; [| split; [| split]]; (split; [vm_compute; reflexivity |]).
  - simpl. lia.
  - simpl. lia.
  - discriminate.
  - intros H. by vm_compute in H.
Qed.

Example post_filters_on_peanuts :
  Props.fields "content"
    (LongTermMemoryManager.retrieve_memories Instances.memory_index
       Instances.peanuts 200 "peanuts" (Some "fact") (Some 3) (Some 0.5%Q))
  = [Some (Chroma.VStr "I am allergic to peanuts")]
  /\ LongTermMemoryManager.retrieve_memories Instances.memory_index
       Instances.peanuts 200 "peanuts" (Some "preference") (Some 3) None = Ok []
  /\ LongTermMemoryManager.retrieve_memories Instances.memory_index
       Instances.peanuts 200 "peanuts" None (Some 3) (Some 0.95%Q) = Ok [].
Proof. repeat split; vm_compute; reflexivity. Qed.

(** ** Round trip through the index *)

Section RoundTrip.
Import Chroma LongTermMemoryManager Props.

Lemma split_comma_free (p : string) :
  comma_free p = true -> split "," p = [p].
Proof.
  induction p as [|c p IH]; [done |]. cbn [comma_free split].
  intros [Hc Hp]%andb_true_iff. apply negb_true_iff in Hc.
  rewrite Hc, (IH Hp). done.
Qed.

Lemma split_append (p rest : string) :
  comma_free p = true ->
  split "," (p ++ "," ++ rest) = p :: split "," rest.
Proof.
  induction p as [|c p IH]; [done |]. cbn [comma_free].
  intros [Hc Hp]%andb_true_iff. apply negb_true_iff in Hc.
  change (String c p ++ "," ++ rest) with (String c (p ++ "," ++ rest)).
  cbn [split]. rewrite Hc, (IH Hp). done.
Qed.

(** Splitting undoes the join exactly on non-empty sequences of tags
    without commas. *)
Lemma split_join (T : list string) :
  T <> [] -> Forall (fun t => comma_free t = true) T ->
  split "," (join "," T) = T.
Proof.
  induction T as [|p T IH]; [done |]. intros _ Hall.
  apply Forall_cons in Hall as [Hp Hall].
  destruct T as [|q T]; [by apply split_comma_free |].
  change (join "," (p :: q :: T)) with (p ++ "," ++ join "," (q :: T)).
  rewrite split_append by done. by rewrite IH.
Qed.

Lemma clamp_range (x : Q) : (0 <= clamp x <= 1)%Q.
Proof.
  unfold clamp, Qlt_bool.
  destruct (Qle_bool 1 x) eqn:E1; cbn [negb].
  - split; [done | apply Qle_refl].
  - destruct (Qle_bool x 0) eqn:E2; cbn [negb].
    + split; [apply Qle_refl | done].
    + split.
      * apply Qlt_le_weak, Qnot_le_lt. intros H.
        apply Qle_bool_iff in H. congruence.
      * apply Qlt_le_weak, Qnot_le_lt. intros H.
        apply Qle_bool_iff in H. congruence.
Qed.

Lemma clamp_inside (x : Q) : (0 <= x <= 1)%Q -> (clamp x == x)%Q.
Proof.
  intros [H0 H1]. unfold clamp, Qlt_bool.
  destruct (Qle_bool 1 x) eqn:E1; cbn [negb].
  - apply Qle_bool_iff in E1. change (1 == x)%Q. by apply Qle_antisym.
  - destruct (Qle_bool x 0) eqn:E2; cbn [negb]; [| reflexivity].
    apply Qle_bool_iff in E2. by apply Qle_antisym.
Qed.

(** The metadata [store_memory] hands to the index. *)
Lemma store_memory_inv {Emb Coll : Type} (svc : Services Emb Coll)
    (c c' : Coll) (now : Q) (uuid content memory_type : string)
    (importance : Q) (tags : option (list string))
    (context source : option string) (i : string) :
  store_memory svc c now uuid content memory_type importance tags context
    source = Ok (i, c') ->
  i = uuid
  /\ exists emb metadata,
       collection_add svc c emb content metadata uuid = Ok c'
       /\ metadata !! "memory_type" = Some (VStr memory_type)
       /\ metadata !! "importance" = Some (VFloat (clamp importance))
       /\ metadata !! "created_at" = Some (VFloat now)
       /\ metadata !! "access_count" = Some (VInt 0)
       /\ metadata !! "tags" = Some (VStr (join "," (default [] tags)))
       /\ metadata !! "context" = VStr <$> context
       /\ metadata !! "source" = VStr <$> source
       /\ metadata !! "content" = None
       /\ metadata !! "id" = None.
Proof.
  unfold store_memory, VectorStore.add_memory.
  destruct (embed_text svc content) as [emb | e]; [| discriminate].
  unfold mbind at 1, result_bind at 1. cbn [default].
  set (metadata := omap clean _). change (id metadata) with metadata.
  assert (Hk : forall k, metadata !! k
    = (alter join_tags "tags" (delete "content" (to_dict
         {| content := content; memory_type := memory_type;
            importance := clamp importance; created_at := now;
            last_accessed := now; access_count := 0;
            tags := default [] tags; context := context;
            source := source |})) !! k) ≫= clean)
    by (intros k; apply lookup_omap).
  assert (Hts : metadata !! "timestamp" = None).
  { rewrite Hk, lookup_alter_ne, lookup_delete_ne by done.
    unfold to_dict. by rewrite !lookup_insert_ne, lookup_empty by done. }
  rewrite Hts.
  destruct (collection_add svc c emb content _ uuid) as [c1 | e] eqn:Hadd;
    [| discriminate].
  intros [= <- <-]. split; [done |].
  eexists emb, _. split; [exact Hadd |].
  rewrite !lookup_insert_ne by done. rewrite !Hk.
  rewrite lookup_alter_eq, !lookup_alter_ne by done.
  rewrite lookup_delete_eq, !lookup_delete_ne by done.
  unfold to_dict. cbn [LongTermMemoryManager.memory_type
    LongTermMemoryManager.importance LongTermMemoryManager.created_at
    LongTermMemoryManager.access_count LongTermMemoryManager.last_accessed
    LongTermMemoryManager.tags LongTermMemoryManager.context
    LongTermMemoryManager.source LongTermMemoryManager.content].
  repeat split;
    repeat (rewrite lookup_insert_eq || rewrite lookup_insert_ne by done);
    try (rewrite lookup_empty); try done.
  - by destruct context.
  - by destruct source.
Qed.

End RoundTrip.

Lemma memory_index_get_after_add : Props.get_after_add Instances.memory_index.
Proof.
  intros c emb document metadata i c'. cbn.
  unfold Instances.add_row, Instances.get_rows.
  destruct (existsb (fun r => String.eqb (Instances.row_id r) i) c) eqn:Hex;
    [discriminate |].
  intros [= <-]. f_equal.
  rewrite List.filter_app. cbn. rewrite String.eqb_refl.
  replace (List.filter (fun r => String.eqb (Instances.row_id r) i) c) with
    (@nil Instances.Row); [done |].
  symmetry. clear -Hex. induction c as [|r c IH]; [done |].
  cbn in *. apply orb_false_iff in Hex as [-> Hex]. by apply IH.
Qed.

(** The record read back after a write, field by field. *)
Lemma store_then_get
    {Emb Coll : Type} (svc : Chroma.Services Emb Coll)
    (Hindex : Props.get_after_add svc)
    (c c' : Coll) (now now' : Q) (uuid content memory_type : string)
    (importance : Q) (tags : option (list string))
    (context source : option string) (i : string) :
  LongTermMemoryManager.store_memory svc c now uuid content memory_type
    importance tags context source = Ok (i, c') ->
  content <> "" ->
  exists r,
    LongTermMemoryManager.get_memory_by_id svc c' now' i = Ok (Some r)
    /\ r !! "id" = Some (Chroma.VStr i)
    /\ r !! "content" = Some (Chroma.VStr content)
    /\ r !! "memory_type" = Some (Chroma.VStr memory_type)
    /\ r !! "context" = Chroma.VStr <$> context
    /\ r !! "source" = Chroma.VStr <$> source
    /\ r !! "importance"
       = Some (Chroma.VFloat (LongTermMemoryManager.clamp importance))
    /\ ((0 <= importance <= 1)%Q ->
        (LongTermMemoryManager.clamp importance == importance)%Q)
    /\ r !! "created_at" = Some (Chroma.VFloat now)
    /\ r !! "access_count" = Some (Chroma.VInt 1)
    /\ r !! "last_accessed" = Some (Chroma.VFloat now')
    /\ r !! "tags" = Some (Chroma.VStr (join "," (default [] tags)))
    /\ (default [] tags <> [] ->
        Forall (fun t => Props.comma_free t = true) (default [] tags) ->
        Props.tags_recovered (r !! "tags") (default [] tags)).
Proof.
  intros Hstore Hcontent.
  apply store_memory_inv in Hstore
    as (-> & emb & metadata & Hadd & Hty & Himp & Hcr & Hac & Htags & Hctx
        & Hsrc & Hnc & Hni).
  apply Hindex in Hadd.
  unfold LongTermMemoryManager.get_memory_by_id, VectorStore.get_memory_by_id.
  rewrite Hadd.
  apply String.eqb_neq in Hcontent. rewrite Hcontent.
  destruct (LongTermMemoryManager.refresh now' metadata
              (<["id" := Chroma.VStr uuid]>
               (<["content" := Chroma.VStr content]> ∅))) as [r | e] eqn:Hr.
  2: { exfalso. unfold LongTermMemoryManager.refresh in Hr.
       rewrite lookup_insert_ne, Hac in Hr by done. discriminate. }
  pose proof (refresh_spec _ _ _ _ Hr) as (Hla & (v & Hv & Hcount) & Hk).
  rewrite Hac in Hv. injection Hv as <-.
  exists r. split; [done |].
  assert (Htg : r !! "tags" = Some (Chroma.VStr (join "," (default [] tags))))
    by (rewrite Hk, Htags by done; done).
  repeat split.
  - rewrite Hk, Hni by done. apply lookup_insert_eq.
  - rewrite Hk, Hnc by done. rewrite lookup_insert_ne by done.
    apply lookup_insert_eq.
  - by rewrite Hk, Hty by done.
  - rewrite Hk, Hctx by done. destruct context; [done |].
    by rewrite !lookup_insert_ne, lookup_empty by done.
  - rewrite Hk, Hsrc by done. destruct source; [done |].
    by rewrite !lookup_insert_ne, lookup_empty by done.
  - by rewrite Hk, Himp by done.
  - apply clamp_inside.
  - by rewrite Hk, Hcr by done.
  - exact Hcount.
  - exact Hla.
  - exact Htg.
  - intros Hne Hfree. right. eexists. split; [exact Htg |].
    by apply split_join.
Qed.

(** C4 (amended).  On an index that answers a get with the row that was
    added, a [store_memory] of a non-empty content followed by
    [get_memory_by_id] on the returned identifier yields a record with
    that content and identifier, the memory_type, context and source that
    were passed (context and source absent when they were None), the
    importance clamped into [0, 1] (unchanged when it was in range),
    created_at as written, access_count 1 and last_accessed at the time of
    the read; its tags field is the string [",".join(tags)], which no read
    path turns back into a list, and which splits at the commas into the
    tags that were passed exactly when these are a non-empty sequence of
    comma-free strings. *)
Theorem C4_store_then_get_by_id
    {Emb Coll : Type} (svc : Chroma.Services Emb Coll)
    (Hindex : Props.get_after_add svc)
    (c c' : Coll) (now now' : Q) (uuid content memory_type : string)
    (importance : Q) (tags : option (list string))
    (context source : option string) (i : string) :
  LongTermMemoryManager.store_memory svc c now uuid content memory_type
    importance tags context source = Ok (i, c') ->
  content <> "" ->
  exists r,
    LongTermMemoryManager.get_memory_by_id svc c' now' i = Ok (Some r)
    /\ r !! "id" = Some (Chroma.VStr i)
    /\ r !! "content" = Some (Chroma.VStr content)
    /\ r !! "memory_type" = Some (Chroma.VStr memory_type)
    /\ r !! "context" = Chroma.VStr <$> context
    /\ r !! "source" = Chroma.VStr <$> source
    /\ r !! "importance"
       = Some (Chroma.VFloat (LongTermMemoryManager.clamp importance))
    /\ ((0 <= importance <= 1)%Q ->
        (LongTermMemoryManager.clamp importance == importance)%Q)
    /\ r !! "created_at" = Some (Chroma.VFloat now)
    /\ r !! "access_count" = Some (Chroma.VInt 1)
    /\ r !! "last_accessed" = Some (Chroma.VFloat now')
    /\ r !! "tags" = Some (Chroma.VStr (join "," (default [] tags)))
    /\ (default [] tags <> [] ->
        Forall (fun t => Props.comma_free t = true) (default [] tags) ->
        Props.tags_recovered (r !! "tags") (default [] tags)).
Proof.
  exact (store_then_get svc Hindex c c' now now' uuid content memory_type
           importance tags context source i).
Qed.

Lemma C4_witness :
  Props.field "content"
    (LongTermMemoryManager.get_memory_by_id Instances.memory_index
       Instances.peanuts 200 "3f2a")
  = Some (Chroma.VStr "I am allergic to peanuts")
  /\ Props.tags_recovered
       (Props.field "tags"
          (LongTermMemoryManager.get_memory_by_id Instances.memory_index
             Instances.peanuts 200 "3f2a"))
       ["health"; "food"].
Proof.
  destruct (C4_store_then_get_by_id Instances.memory_index
              memory_index_get_after_add [] Instances.peanuts 100 200 "3f2a"
              "I am allergic to peanuts" "fact" 0.9 (Some ["health"; "food"])
              None (Some "chat") "3f2a")
    as (r & Hget & _ & Hc & _ & _ & _ & _ & _ & _ & _ & _ & _ & Hrec).
  - vm_compute. reflexivity.
  - discriminate.
  - rewrite Hget. cbn [Props.field]. split; [exact Hc |].
    apply Hrec; [discriminate | by repeat constructor].
Defined.

(** C4 (as stated) fails on the tags and on the importance.  With the
    default tags (None, stored as the empty sequence) the record read back
    has the empty string for its tags, which is not the list and splits
    into one empty tag; with the single tag "Paris, France" it has that
    string, which splits into two tags; an importance of 1.7 is read back
    as 1. *)
Lemma C4_counterexample :
  (Props.field "content"
     (LongTermMemoryManager.get_memory_by_id Instances.memory_index
        Instances.untagged 200 "9c0d")
   = Some (Chroma.VStr "The meeting is on Friday")
   /\ ~ Props.tags_recovered
         (Props.field "tags"
            (LongTermMemoryManager.get_memory_by_id Instances.memory_index
               Instances.untagged 200 "9c0d")) []
   /\ Props.field "importance"
        (LongTermMemoryManager.get_memory_by_id Instances.memory_index
           Instances.untagged 200 "9c0d")
      = Some (Chroma.VFloat 1)
   /\ ~ (1 == 1.7)%Q)
  /\ Props.field "tags"
       (LongTermMemoryManager.get_memory_by_id Instances.memory_index
          Instances.comma_tagged 200 "51be")
     = Some (Chroma.VStr "Paris, France")
  /\ Props.split "," "Paris, France" = ["Paris"; " France"]
  /\ ~ Props.tags_recovered
        (Props.field "tags"
           (LongTermMemoryManager.get_memory_by_id Instances.memory_index
              Instances.comma_tagged 200 "51be")) ["Paris, France"].
Proof.
  assert (H1 : Props.field "tags"
                 (LongTermMemoryManager.get_memory_by_id Instances.memory_index
                    Instances.untagged 200 "9c0d") = Some (Chroma.VStr ""))
    by (vm_compute; reflexivity).
  assert (H2 : Props.field "tags"
                 (LongTermMemoryManager.get_memory_by_id Instances.memory_index
                    Instances.comma_tagged 200 "51be")
               = Some (Chroma.VStr "Paris, France"))
    by (vm_compute; reflexivity).
  rewrite H1, H2. clear H1 H2.
  split; [split; [| split; [| split]] | split; [| split]].
  - vm_compute. reflexivity.
  - intros [H | (s & H & Hs)]; [discriminate |].
    injection H as <-. discriminate.
  - vm_compute. reflexivity.
  - discriminate.
  - reflexivity.
  - reflexivity.
  - intros [H | (s & H & Hs)]; [discriminate |].
    injection H as <-. discriminate.
Qed.

(** ** Reads do not write *)

Section ReadFacts.
Context {Emb Coll : Type} (svc : Chroma.Services Emb Coll).








End ReadFacts.





(** ** The orchestration workflow *)

Section WorkflowFacts.
Import Workflow.
Context {W : Type} (agent : Agent W).

Lemma ainvoke_step (limit : nat) (n : Node) (state : AgentState)
    (visited : list Node) (w : W) :
  ainvoke agent (S limit) n state visited w
  = let '(state', w') := run_node agent n state w in
    match next n state' with
    | None => (Ok (state', (visited ++ [n])%list), w')
    | Some n' => ainvoke agent limit n' state' (visited ++ [n])%list w'
    end.
Proof. reflexivity. Qed.

(** The loop of the store node cannot raise. *)
Lemma store_each_ok (suggestions : list Analyzer.Suggestion) :
  forall (stored_ids : list string) (w : W),
    exists ids w', store_each agent suggestions stored_ids w = (Ok ids, w').
Proof.
  induction suggestions as [|s rest IH]; intros stored_ids w; cbn [store_each].
  - by exists stored_ids, w.
  - destruct (store_memory_suggestion agent s w) as [[memory_id | e] w'];
      apply IH.
Qed.

Lemma body_store_memory_ok (state : AgentState) (w : W) :
  exists ids w',
    body agent store_memory state w = (Ok (set_stored_memory_ids ids state), w').
Proof.
  destruct (store_each_ok (memory_suggestions state) [] w) as (ids & w' & H).
  exists ids, w'. cbn [body]. unfold and_then. by rewrite H.
Qed.




(** Only the analysis node writes the suggestions, and it sets the
    guard of the conditional edge accordingly. *)
Lemma run_node_analyze_guard (state : AgentState) (w : W) :
  should_store_memory (run_node agent analyze_memory state w).1 = true
  <-> memory_suggestions (run_node agent analyze_memory state w).1 <> [].
Proof.
  unfold run_node. cbn [body]. unfold and_then.
  destruct (analyze_for_memory_storage agent _ _ _ w) as [[l | e] w'];
    cbn; [| done].
  destruct l; cbn; [done |]. split; [done | intros _; reflexivity].
Qed.

Lemma run_node_keeps_suggestions (n : Node) (state : AgentState) (w : W) :
  n = store_memory \/ n = finalize ->
  memory_suggestions (run_node agent n state w).1 = memory_suggestions state
  /\ should_store_memory (run_node agent n state w).1
     = should_store_memory state.
Proof.
  intros [-> | ->]; unfold run_node.
  - destruct (body_store_memory_ok state w) as (ids & w' & ->). done.
  - done.
Qed.

(** A node that does not raise keeps the error a previous node set;
    only [process_input], the first node, clears it. *)
Lemma run_node_keeps_error (n : Node) (state state' : AgentState) (w w' : W) :
  n <> process_input ->
  body agent n state w = (Ok state', w') -> error state' = error state.
Proof.
  intros Hn. destruct n; try done; cbn [body]; unfold and_then, pure.
  - destruct (retrieve_memories agent _ _ w) as [[l | e] w1]; [| done].
    by intros [= <- _].
  - destruct (_prepare_context agent _ _ w) as [[cx | e] w1]; [| done].
    destruct (_generate_response agent cx w1) as [[r | e] w2]; [| done].
    destruct (add_assistant_message agent r w2) as [[[] | e] w3]; [| done].
    by intros [= <- _].
  - destruct (analyze_for_memory_storage agent _ _ _ w) as [[l | e] w1];
      [| done].
    by intros [= <- _].
  - destruct (store_each agent _ _ w) as [[ids | e] w1]; [| done].
    by intros [= <- _].
  - by intros [= <- _].
Qed.

(** The graph always runs to [END], along one of two paths. *)
Lemma ainvoke_paths (u : string) (w : W) :
  exists final visited w',
    ainvoke agent recursion_limit process_input (initial_state u) [] w
    = (Ok (final, visited), w')
    /\ (visited = [process_input; retrieve_memories_node; generate_response;
                   analyze_memory; store_memory; finalize]
        /\ memory_suggestions final <> []
        \/ visited = [process_input; retrieve_memories_node; generate_response;
                      analyze_memory; finalize]
           /\ memory_suggestions final = []).
Proof.
  unfold recursion_limit.
  rewrite ainvoke_step.
  destruct (run_node agent process_input (initial_state u) w) as [s1 w1].
  cbn [next]. rewrite ainvoke_step.
  destruct (run_node agent retrieve_memories_node s1 w1) as [s2 w2].
  cbn [next]. rewrite ainvoke_step.
  destruct (run_node agent generate_response s2 w2) as [s3 w3].
  cbn [next]. rewrite ainvoke_step.
  pose proof (run_node_analyze_guard s3 w3) as Hguard.
  destruct (run_node agent analyze_memory s3 w3) as [s4 w4].
  cbn [fst] in Hguard. cbn [next]. unfold _should_store_memory.
  destruct (should_store_memory s4) eqn:Hstore.
  - change (String.eqb "store" "store") with true. cbv iota.
    rewrite ainvoke_step.
    pose proof (run_node_keeps_suggestions store_memory s4 w4 (or_introl eq_refl))
      as [Hk5 _].
    destruct (run_node agent store_memory s4 w4) as [s5 w5].
    cbn [fst] in Hk5. cbn [next]. rewrite ainvoke_step.
    pose proof (run_node_keeps_suggestions finalize s5 w5 (or_intror eq_refl))
      as [Hk6 _].
    destruct (run_node agent finalize s5 w5) as [s6 w6].
    cbn [fst] in Hk6. cbn [next].
    eexists s6, _, w6. split; [reflexivity |]. left. split; [reflexivity |].
    rewrite Hk6, Hk5. by apply Hguard.
  - change (String.eqb "skip" "store") with false. cbv iota.
    rewrite ainvoke_step.
    pose proof (run_node_keeps_suggestions finalize s4 w4 (or_intror eq_refl))
      as [Hk5 _].
    destruct (run_node agent finalize s4 w4) as [s5 w5].
    cbn [fst] in Hk5. cbn [next].
    eexists s5, _, w5. split; [reflexivity |]. right. split; [reflexivity |].
    rewrite Hk5. destruct (memory_suggestions s4) as [|x l]; [done |].
    exfalso. destruct Hguard as [_ Hg]. by discriminate Hg.
Qed.


End WorkflowFacts.


(** Each node is the stage of the specification: its calls, and on a
    raise its fallback with the message in the error field. *)
Section TurnFacts.
Import Workflow.
Context {W : Type} (agent : Agent W).





(** The loop of the store node keeps the identifiers of the storages
    that did not raise, in the order of the suggestions. *)
Lemma store_each_attempts (suggestions : list Analyzer.Suggestion) :
  forall (stored_ids : list string) (w : W),
    store_each agent suggestions stored_ids w
    = let '(outcomes, w') := Props.attempts agent suggestions w in
      (Ok (stored_ids ++ omap Props.identifier outcomes)%list, w').
Proof.
  induction suggestions as [|s rest IH]; intros stored_ids w;
    cbn [store_each Props.attempts].
  - unfold pure. by rewrite app_nil_r.
  - destruct (store_memory_suggestion agent s w) as [[i | e] w1]; rewrite IH;
      destruct (Props.attempts agent rest w1) as [outcomes w'];
      cbn [omap list_omap Props.identifier]; [| done].
    by rewrite <- app_assoc.
Qed.

Lemma run_node_store_memory (state : AgentState) (w : W) :
  run_node agent store_memory state w
  = let '(outcomes, w') :=
      Props.attempts agent (memory_suggestions state) w in
    (set_stored_memory_ids (omap Props.identifier outcomes) state, w').
Proof.
  unfold run_node. cbn [body]. unfold and_then.
  rewrite store_each_attempts.
  by destruct (Props.attempts agent (memory_suggestions state) w).
Qed.



End TurnFacts.


(** A turn with the language model down: the response is the apology,
    the error is the message of the failure, the analyzer still fires on
    the utterance and both suggestions are stored. *)
Example run_with_model_down :
  let r := (Workflow.run Instances.offline_agent
              "I love pizza and my name is Sam" []).1 in
  r !! "response" = Some (Workflow.FStr Workflow.apology)
  /\ r !! "error" = Some (Workflow.FStr "model unavailable")
  /\ r !! "stored_memory_ids" = Some (Workflow.FIds ["m-preference"; "m-fact"])
  /\ r !! "short_term_context"
     = Some (Workflow.FContext [("user", "I love pizza and my name is Sam")]).
Proof. repeat split; vm_compute; reflexivity. Qed.

Example run_without_suggestion :
  (Workflow.ainvoke Instances.offline_agent Workflow.recursion_limit
     Workflow.process_input (Workflow.initial_state "What time is it?") [] []).1
  = Ok ({| Workflow.messages := [];
           Workflow.user_input := "What time is it?";
           Workflow.agent_response := Workflow.apology;
           Workflow.relevant_memories := [];
           Workflow.memory_suggestions := [];
           Workflow.should_store_memory := false;
           Workflow.stored_memory_ids := [];
           Workflow.error := Some "model unavailable" |},
        [Workflow.process_input; Workflow.retrieve_memories_node;
         Workflow.generate_response; Workflow.analyze_memory;
         Workflow.finalize]).
Proof. vm_compute. reflexivity. Qed.

(** * Further properties of the sources *)

(** ** The registry: sessions and users *)

Section RegistryOps.
Import Registry.

(** The list comprehensions over [items()] select the keys whose value
    passes the test, each once. *)
Lemma elem_of_keys_if {V : Type} (f : V -> bool) (m : gmap string V)
    (k : string) :
  k ∈ map_to_list m ≫= (fun '(k, v) => if f v then [k] else [])
  <-> exists v, m !! k = Some v /\ f v = true.
Proof.
  rewrite list_elem_of_bind. split.
  - intros [[k' v] [Hin Hl]]. apply elem_of_map_to_list in Hl.
    destruct (f v) eqn:Hf; [| by apply elem_of_nil in Hin].
    apply list_elem_of_singleton in Hin as ->. eauto.
  - intros (v & Hl & Hf). exists (k, v). split.
    + rewrite Hf. by apply list_elem_of_singleton.
    + by apply elem_of_map_to_list.
Qed.

Lemma NoDup_keys_if {V : Type} (f : V -> bool) (l : list (string * V)) :
  NoDup l.*1 ->
  NoDup (l ≫= (fun '(k, v) => if f v then [k] else [])).
Proof.
  induction l as [|[k v] l IH]; [constructor |].
  cbn [fmap list_fmap fst]. intros Hnd. apply NoDup_cons in Hnd as [Hk Hnd].
  change (((k, v) :: l) ≫= (fun '(k, v) => if f v then [k] else []))
    with ((if f v then [k] else [])
          ++ (l ≫= (fun '(k, v) => if f v then [k] else [])))%list.
  destruct (f v); [| by apply IH].
  cbn [app]. apply NoDup_cons. split; [| by apply IH].
  intros Hin. apply Hk. apply list_elem_of_bind in Hin as [[k' v'] [Hin Hl]].
  destruct (f v'); [| by apply elem_of_nil in Hin].
  apply list_elem_of_singleton in Hin as ->.
  apply list_elem_of_fmap. by exists (k', v').
Qed.

Lemma size_foldl_delete {V : Type} (ks : list string) :
  forall m : gmap string V,
    NoDup ks -> (forall k, k ∈ ks -> is_Some (m !! k)) ->
    (size (foldl (fun m k => delete k m) m ks) + length ks)%nat = size m.
Proof.
  induction ks as [|k ks IH]; intros m Hnd Hin; cbn [foldl length]; [lia |].
  apply NoDup_cons in Hnd as [Hk Hnd].
  rewrite Nat.add_succ_r, IH; [| done |].
  - destruct (Hin k) as [v Hv]; [by left |].
    rewrite map_size_delete, Hv.
    assert (size m <> 0%nat); [| simpl; lia].
    intros H0. apply map_size_empty_inv in H0. subst m.
    by rewrite lookup_empty in Hv.
  - intros k' Hk'. rewrite lookup_delete_ne; [apply Hin; by right |].
    intros ->. done.
Qed.

Lemma lookup_foldl_delete_gen {V : Type} (ks : list string) (m : gmap string V)
    (i : string) :
  foldl (fun m k => delete k m) m ks !! i
  = if decide (i ∈ ks) then None else m !! i.
Proof.
  revert m. induction ks as [|k ks IH]; intros m.
  - destruct (decide (i ∈ [])) as [H | _]; [by apply elem_of_nil in H | done].
  - cbn [foldl]. rewrite IH.
    destruct (decide (i ∈ ks)) as [Hin | Hin];
      destruct (decide (i ∈ k :: ks)) as [Hin' | Hin']; try done.
    + exfalso. apply Hin'. by right.
    + apply elem_of_cons in Hin' as [-> | ?]; [| done].
      by rewrite lookup_delete_eq.
    + apply lookup_delete_ne. intros ->. apply Hin'. by left.
Qed.

(** The sessions left by [delete_user] and by [cleanup_old_sessions]. *)
Lemma delete_user_sessions (sm : SessionManager) (uid sid : string) :
  is_Some (users sm !! uid) ->
  sessions (delete_user sm uid).2 !! sid
  = match sessions sm !! sid with
    | Some s => if String.eqb (user_id s) uid then None else Some s
    | None => None
    end.
Proof.
  intros [u Hu]. unfold delete_user. rewrite Hu. cbn [snd sessions].
  rewrite lookup_foldl_delete_gen.
  destruct (decide (sid ∈ sessions_of sm uid)) as [Hin | Hin].
  - apply (elem_of_keys_if (fun s => String.eqb (user_id s) uid)) in Hin
      as (s & -> & ->). done.
  - destruct (sessions sm !! sid) as [s|] eqn:Hs; [| done].
    destruct (String.eqb (user_id s) uid) eqn:E; [| done].
    exfalso. apply Hin.
    apply (elem_of_keys_if (fun s => String.eqb (user_id s) uid)). eauto.
Qed.

Lemma cleanup_sessions (sm : SessionManager) (now : Q) (h : Z) (sid : string) :
  sessions (cleanup_old_sessions sm now h).2 !! sid
  = match sessions sm !! sid with
    | Some s =>
      if Qlt_bool (last_activity s) (now - inject_Z (h * 3600)) then None
      else Some s
    | None => None
    end.
Proof.
  unfold cleanup_old_sessions. cbn [snd sessions].
  rewrite lookup_foldl_delete_gen.
  set (cutoff := (now - inject_Z (h * 3600))%Q).
  destruct (decide (sid ∈ old_sessions sm cutoff)) as [Hin | Hin].
  - apply (elem_of_keys_if (fun s => Qlt_bool (last_activity s) cutoff)) in Hin
      as (s & -> & ->). done.
  - destruct (sessions sm !! sid) as [s|] eqn:Hs; [| done].
    destruct (Qlt_bool (last_activity s) cutoff) eqn:E; [| done].
    exfalso. apply Hin.
    apply (elem_of_keys_if (fun s => Qlt_bool (last_activity s) cutoff)). eauto.
Qed.

End RegistryOps.

Lemma Qlt_bool_iff (x y : Q) : Qlt_bool x y = true <-> (x < y)%Q.
Proof.
  unfold Qlt_bool. rewrite negb_true_iff. split.
  - intros H. apply Qnot_le_lt. intros Hle. apply Qle_bool_iff in Hle. congruence.
  - intros H. destruct (Qle_bool y x) eqn:E; [| done].
    apply Qle_bool_iff in E. by apply Qlt_not_le in H.
Qed.

Section Consistency.
Import Registry.
Context (sm : SessionManager) (Hc : consistent sm).

Lemma create_user_consistent hex now name meta :
  consistent (create_user sm hex now name meta).2.
Proof.
  destruct Hc as (Hu & Hs & Hr). split; [| split]; cbn.
  - intros uid u.
    destruct (decide ("user_" ++ substring 0 8 hex = uid)) as [<- | Hne].
    + rewrite lookup_insert_eq. by intros [= <-].
    + rewrite lookup_insert_ne by done. apply Hu.
  - exact Hs.
  - intros sid s Hsid. apply Hr in Hsid. rewrite lookup_insert_is_Some.
    destruct (decide ("user_" ++ substring 0 8 hex = user_id s)); auto.
Qed.

Lemma create_session_consistent hex now uid meta sid sm' :
  create_session sm hex now uid meta = Ok (sid, sm') -> consistent sm'.
Proof.
  destruct Hc as (Hu & Hs & Hr). unfold create_session.
  destruct (users sm !! uid) as [u|] eqn:Hlu; [| discriminate].
  intros [= <- <-]. split; [| split]; cbn.
  - intros uid' u'. destruct (decide (uid = uid')) as [<- | Hne].
    + rewrite lookup_insert_eq. intros [= <-]. cbn. by apply Hu.
    + rewrite lookup_insert_ne by done. apply Hu.
  - intros sid' s'.
    destruct (decide ("session_" ++ substring 0 12 hex = sid')) as [<- | Hne].
    + rewrite lookup_insert_eq. by intros [= <-].
    + rewrite lookup_insert_ne by done. apply Hs.
  - intros sid' s'. rewrite lookup_insert_is_Some.
    destruct (decide ("session_" ++ substring 0 12 hex = sid')) as [<- | Hne].
    + rewrite lookup_insert_eq. intros [= <-]. cbn. by left.
    + rewrite lookup_insert_ne by done. intros Hs'. apply Hr in Hs'.
      destruct (decide (uid = user_id s')); auto.
Qed.

Lemma update_session_activity_consistent now sid :
  consistent (update_session_activity sm now sid).
Proof.
  destruct Hc as (Hu & Hs & Hr). unfold update_session_activity.
  destruct (sessions sm !! sid) as [s0|] eqn:Hs0; [| done].
  split; [| split]; cbn; [exact Hu | |].
  - intros sid' s'. destruct (decide (sid = sid')) as [<- | Hne].
    + rewrite lookup_insert_eq. intros [= <-]. cbn. by apply Hs.
    + rewrite lookup_insert_ne by done. apply Hs.
  - intros sid' s'. destruct (decide (sid = sid')) as [<- | Hne].
    + rewrite lookup_insert_eq. intros [= <-]. cbn. by eapply Hr.
    + rewrite lookup_insert_ne by done. apply Hr.
Qed.

Lemma end_session_consistent sid : consistent (end_session sm sid).2.
Proof.
  destruct Hc as (Hu & Hs & Hr). unfold end_session.
  destruct (sessions sm !! sid); [| done].
  split; [| split]; cbn; [exact Hu | |].
  - intros sid' s' [_ H]%lookup_delete_Some. by apply Hs.
  - intros sid' s' [_ H]%lookup_delete_Some. by eapply Hr.
Qed.

Lemma cleanup_old_sessions_consistent now h :
  consistent (cleanup_old_sessions sm now h).2.
Proof.
  destruct Hc as (Hu & Hs & Hr). split; [| split]; [exact Hu | |].
  - intros sid s. rewrite cleanup_sessions.
    destruct (sessions sm !! sid) as [s0|] eqn:Hs0; [| done].
    destruct (Qlt_bool _ _); [done |]. intros [= <-]. by apply Hs.
  - intros sid s. rewrite cleanup_sessions.
    destruct (sessions sm !! sid) as [s0|] eqn:Hs0; [| done].
    destruct (Qlt_bool _ _); [done |]. intros [= <-]. by eapply Hr.
Qed.

Lemma delete_user_consistent uid : consistent (delete_user sm uid).2.
Proof.
  destruct Hc as (Hu & Hs & Hr).
  destruct (users sm !! uid) as [u|] eqn:Hlu;
    [| unfold delete_user; by rewrite Hlu].
  split; [| split].
  - unfold delete_user. rewrite Hlu. cbn.
    intros uid' u' [_ H]%lookup_delete_Some. by apply Hu.
  - intros sid s. rewrite delete_user_sessions by eauto.
    destruct (sessions sm !! sid) as [s0|] eqn:Hs0; [| done].
    destruct (String.eqb _ _); [done |]. intros [= <-]. by apply Hs.
  - intros sid s. rewrite delete_user_sessions by eauto.
    destruct (sessions sm !! sid) as [s0|] eqn:Hs0; [| done].
    destruct (String.eqb_spec (user_id s0) uid) as [? | Hne]; [done |].
    intros [= <-]. unfold delete_user. rewrite Hlu. cbn.
    rewrite lookup_delete_ne by done. by eapply Hr.
Qed.

End Consistency.

(** X1.  Every operation of the registry keeps it consistent: entries stay
    filed under their own identifier and no session is left referencing a
    user that is not registered. *)
Theorem registry_stays_consistent (sm : Registry.SessionManager) :
  Registry.consistent sm ->
  (forall hex now name meta,
      Registry.consistent (Registry.create_user sm hex now name meta).2)
  /\ (forall hex now uid meta sid sm',
        Registry.create_session sm hex now uid meta = Ok (sid, sm') ->
        Registry.consistent sm')
  /\ (forall now sid,
        Registry.consistent (Registry.update_session_activity sm now sid))
  /\ (forall sid, Registry.consistent (Registry.end_session sm sid).2)
  /\ (forall now h,
        Registry.consistent (Registry.cleanup_old_sessions sm now h).2)
  /\ (forall uid, Registry.consistent (Registry.delete_user sm uid).2).
Proof.
  intros Hc. split; [| split; [| split; [| split; [| split]]]].
  - by apply create_user_consistent.
  - intros. by eapply create_session_consistent.
  - by apply update_session_activity_consistent.
  - by apply end_session_consistent.
  - by apply cleanup_old_sessions_consistent.
  - by apply delete_user_consistent.
Qed.

(** The registry of the two users and three sessions is consistent. *)
Lemma registry_consistent : Registry.consistent Instances.registry.
Proof.
  unfold Registry.consistent, Instances.registry.
  cbn [Registry.users Registry.sessions].
  split; [| split].
  - intros uid u Hu.
    apply lookup_insert_Some in Hu as [[<- <-] | [_ Hu]]; [done |].
    apply lookup_insert_Some in Hu as [[<- <-] | [_ Hu]]; [done |].
    by rewrite lookup_empty in Hu.
  - intros sid s Hs.
    apply lookup_insert_Some in Hs as [[<- <-] | [_ Hs]]; [done |].
    apply lookup_insert_Some in Hs as [[<- <-] | [_ Hs]]; [done |].
    apply lookup_insert_Some in Hs as [[<- <-] | [_ Hs]]; [done |].
    by rewrite lookup_empty in Hs.
  - intros sid s Hs.
    apply lookup_insert_Some in Hs as [[<- <-] | [_ Hs]];
      [cbn [Instances.session_of Registry.user_id];
       rewrite lookup_insert_eq; by eexists |].
    apply lookup_insert_Some in Hs as [[<- <-] | [_ Hs]];
      [cbn [Instances.session_of Registry.user_id];
       rewrite lookup_insert_ne, lookup_insert_eq by done; by eexists |].
    apply lookup_insert_Some in Hs as [[<- <-] | [_ Hs]];
      [cbn [Instances.session_of Registry.user_id];
       rewrite lookup_insert_eq; by eexists |].
    by rewrite lookup_empty in Hs.
Qed.

Lemma registry_stays_consistent_witness :
  Registry.consistent
    (Registry.delete_user Instances.registry "user_0000000a").2
  /\ Registry.consistent
       (Registry.end_session Instances.registry "session_00000000000b").2
  /\ Registry.consistent
       (Registry.cleanup_old_sessions Instances.registry 100000 24).2
  /\ Registry.consistent
       (Registry.create_user Instances.registry
          "0123456789abcdef0123456789abcdef" 10 "carol" None).2.
Proof.
  destruct (registry_stays_consistent Instances.registry registry_consistent)
    as (Hcreate & _ & _ & Hend & Hclean & Hdelete).
  split; [apply Hdelete |]. split; [apply Hend |]. split; [apply Hclean |].
  apply Hcreate.
Defined.

(** X2.  Opening and closing a session.  For a registered user and a fresh
    session identifier, [create_session] records a session of that user
    stamped with the time of the call; [end_session] on it answers True
    and puts the session dictionary back as it was, while the user keeps
    the incremented counter and the new login time; a second
    [end_session] answers False and changes nothing. *)
Theorem session_open_then_close (sm : Registry.SessionManager)
    (hex : string) (now : Q) (uid : string) (meta : option (gmap string string))
    (u : Registry.User) :
  Registry.users sm !! uid = Some u ->
  Registry.sessions sm !! ("session_" ++ substring 0 12 hex) = None ->
  exists sid sm1,
    Registry.create_session sm hex now uid meta = Ok (sid, sm1)
    /\ (exists s, Registry.get_session sm1 sid = Some s
                  /\ Registry.user_id s = uid
                  /\ Registry.created_at s = now
                  /\ Registry.last_activity s = now)
    /\ (exists u1, Registry.get_user sm1 uid = Some u1
                   /\ Registry.total_sessions u1 = Registry.total_sessions u + 1
                   /\ Registry.last_login u1 = now
                   /\ Registry.username u1 = Registry.username u)
    /\ Registry.end_session sm1 sid
       = (true, {| Registry.users := Registry.users sm1;
                   Registry.sessions := Registry.sessions sm |})
    /\ Registry.end_session (Registry.end_session sm1 sid).2 sid
       = (false, (Registry.end_session sm1 sid).2).
Proof.
  intros Hu Hfresh. unfold Registry.create_session. rewrite Hu.
  eexists _, _. split; [reflexivity |].
  unfold Registry.get_session, Registry.get_user, Registry.end_session. cbn.
  rewrite !lookup_insert_eq. cbn.
  rewrite delete_insert_id by done. rewrite Hfresh.
  split; [eexists; repeat split; reflexivity |].
  split; [eexists; repeat split; reflexivity |].
  split; reflexivity.
Qed.

Lemma session_open_then_close_witness :
  exists sid sm1,
    Registry.create_session Instances.registry
      "0123456789abcdef0123456789abcdef" 50 "user_0000000b" None
    = Ok (sid, sm1)
    /\ Registry.end_session sm1 sid
       = (true, {| Registry.users := Registry.users sm1;
                   Registry.sessions := Registry.sessions Instances.registry |}).
Proof.
  destruct (session_open_then_close Instances.registry
              "0123456789abcdef0123456789abcdef" 50 "user_0000000b" None
              Instances.bob)
    as (sid & sm1 & H1 & _ & _ & H2 & _).
  - vm_compute. reflexivity.
  - vm_compute. reflexivity.
  - exists sid, sm1. auto.
Defined.

(** X3.  A deleted user is gone for good: it cannot be looked up, a second
    [delete_user] answers False and changes nothing, [create_session]
    for it raises, and a session opened for the user before the deletion
    is not found afterwards. *)
Theorem deleted_user_is_gone (sm : Registry.SessionManager) (uid : string) :
  is_Some (Registry.users sm !! uid) ->
  Registry.get_user (Registry.delete_user sm uid).2 uid = None
  /\ Registry.delete_user (Registry.delete_user sm uid).2 uid
     = (false, (Registry.delete_user sm uid).2)
  /\ (forall hex now meta,
        exists e,
          Registry.create_session (Registry.delete_user sm uid).2 hex now uid
            meta = Raise e)
  /\ (forall hex now meta sid sm1,
        Registry.create_session sm hex now uid meta = Ok (sid, sm1) ->
        Registry.get_session (Registry.delete_user sm1 uid).2 sid = None).
Proof.
  intros [u Hu].
  assert (Hgone : Registry.users (Registry.delete_user sm uid).2 !! uid = None).
  { unfold Registry.delete_user. rewrite Hu. cbn. apply lookup_delete_eq. }
  split; [exact Hgone |]. split; [| split].
  - unfold Registry.delete_user at 1. by rewrite Hgone.
  - intros. unfold Registry.create_session. rewrite Hgone. eauto.
  - intros hex now meta sid sm1. unfold Registry.create_session. rewrite Hu.
    intros [= <- <-]. unfold Registry.get_session.
    rewrite delete_user_sessions; cbn.
    + rewrite lookup_insert_eq. cbn. by rewrite String.eqb_refl.
    + rewrite lookup_insert_eq. eauto.
Qed.

Lemma deleted_user_is_gone_witness :
  Registry.get_user (Registry.delete_user Instances.registry "user_0000000b").2
    "user_0000000b" = None.
Proof.
  apply (deleted_user_is_gone Instances.registry "user_0000000b").
  eexists. vm_compute. reflexivity.
Defined.

(** X4.  [cleanup_old_sessions] keeps exactly the sessions that are not
    older than the cutoff [now - max_age_hours * 3600] (a session last
    active at the cutoff itself is kept), leaves the users alone, returns
    the number of sessions it removed, and finds nothing more to remove
    when it is run again with the same arguments. *)
Theorem cleanup_old_sessions_keeps_the_recent
    (sm : Registry.SessionManager) (now : Q) (h : Z) :
  let cutoff := (now - inject_Z (h * 3600))%Q in
  Registry.users (Registry.cleanup_old_sessions sm now h).2 = Registry.users sm
  /\ (forall sid s,
        Registry.sessions (Registry.cleanup_old_sessions sm now h).2 !! sid
        = Some s
        <-> Registry.sessions sm !! sid = Some s
            /\ (cutoff <= Registry.last_activity s)%Q)
  /\ (Registry.cleanup_old_sessions sm now h).1
     = Z.of_nat (size (Registry.sessions sm))
       - Z.of_nat (size (Registry.sessions
                           (Registry.cleanup_old_sessions sm now h).2))
  /\ Registry.cleanup_old_sessions
       (Registry.cleanup_old_sessions sm now h).2 now h
     = (0, (Registry.cleanup_old_sessions sm now h).2).
Proof.
  intros cutoff. split; [done |].
  assert (Hlook : forall sid s,
    Registry.sessions (Registry.cleanup_old_sessions sm now h).2 !! sid = Some s
    <-> Registry.sessions sm !! sid = Some s
        /\ (cutoff <= Registry.last_activity s)%Q).
  { intros sid s. rewrite cleanup_sessions. fold cutoff.
    destruct (Registry.sessions sm !! sid) as [s0|];
      [| split; [done | by intros [? _]]].
    destruct (Qlt_bool (Registry.last_activity s0) cutoff) eqn:E.
    - apply Qlt_bool_iff in E. split; [done |]. intros [[= <-] Hle].
      by apply Qlt_not_le in E.
    - split.
      + intros [= <-]. split; [done |]. apply Qnot_lt_le. intros Hlt.
        apply Qlt_bool_iff in Hlt. congruence.
      + by intros [[= <-] _]. }
  split; [exact Hlook |]. split.
  - unfold Registry.cleanup_old_sessions. cbn [fst snd Registry.sessions].
    fold cutoff.
    pose proof (size_foldl_delete (Registry.old_sessions sm cutoff)
                  (Registry.sessions sm)) as Hsize.
    rewrite <- Hsize; [lia | |].
    + apply (NoDup_keys_if (fun s => Qlt_bool (Registry.last_activity s) cutoff)).
      apply NoDup_fst_map_to_list.
    + intros k Hk.
      apply (elem_of_keys_if
               (fun s => Qlt_bool (Registry.last_activity s) cutoff)) in Hk
        as (v & -> & _). eauto.
  - assert (Hnone : Registry.old_sessions
                      (Registry.cleanup_old_sessions sm now h).2 cutoff = []).
    { apply elem_of_nil_inv. intros sid Hin.
      apply (elem_of_keys_if
               (fun s => Qlt_bool (Registry.last_activity s) cutoff)) in Hin
        as (s & Hs & Hold).
      apply Hlook in Hs as [_ Hle]. apply Qlt_bool_iff in Hold.
      by apply Qlt_not_le in Hold. }
    unfold Registry.cleanup_old_sessions at 1. fold cutoff. rewrite Hnone.
    reflexivity.
Qed.

Example cleanup_on_the_registry :
  (Registry.cleanup_old_sessions Instances.registry 3603 1).1 = 0
  /\ (Registry.cleanup_old_sessions Instances.registry 3604 1).1 = 3.
Proof. split; vm_compute; reflexivity. Qed.

(** X5.  The registry does not keep user names apart, and it keeps only the
    first eight hexadecimal digits of the uuid.  Two [create_user] calls
    with one username give two registered users with that name when the
    two uuids differ in their first eight digits; when they agree there,
    both calls return the same identifier and the second user replaces
    the first. *)
Theorem create_user_twice (sm : Registry.SessionManager)
    (hex1 hex2 : string) (now1 now2 : Q) (name1 name2 : string)
    (meta1 meta2 : option (gmap string string)) :
  let r1 := Registry.create_user sm hex1 now1 name1 meta1 in
  let r2 := Registry.create_user r1.2 hex2 now2 name2 meta2 in
  (substring 0 8 hex1 <> substring 0 8 hex2 ->
   r1.1 <> r2.1
   /\ exists u1 u2,
        Registry.get_user r2.2 r1.1 = Some u1
        /\ Registry.get_user r2.2 r2.1 = Some u2
        /\ Registry.username u1 = name1 /\ Registry.username u2 = name2
        /\ Registry.total_sessions u1 = 0 /\ Registry.total_sessions u2 = 0)
  /\ (substring 0 8 hex1 = substring 0 8 hex2 ->
      r1.1 = r2.1
      /\ exists u2,
           Registry.get_user r2.2 r1.1 = Some u2
           /\ Registry.username u2 = name2
           /\ Registry.u_created_at u2 = now2
           /\ Registry.users r2.2
              = Registry.users (Registry.create_user sm hex2 now2 name2 meta2).2).
Proof.
  cbn. unfold Registry.get_user. cbn. split.
  - intros Hne.
    assert (Hid : "user_" ++ substring 0 8 hex1 <> "user_" ++ substring 0 8 hex2).
    { intros H. apply Hne. by apply append_cancel_l in H. }
    split; [exact Hid |].
    rewrite lookup_insert_ne by done. rewrite !lookup_insert_eq.
    eexists _, _. repeat split; reflexivity.
  - intros ->. split; [done |]. rewrite lookup_insert_eq.
    eexists. repeat split; try reflexivity. cbn.
    apply insert_insert_eq.
Qed.

Lemma create_user_twice_witness :
  exists u1 u2,
    Registry.users
      (Registry.create_user
         (Registry.create_user Instances.registry
            "11111111aaaaaaaaaaaaaaaaaaaaaaaa" 5 "carol" None).2
         "22222222bbbbbbbbbbbbbbbbbbbbbbbb" 6 "carol" None).2
    !! "user_11111111" = Some u1
    /\ Registry.users
         (Registry.create_user
            (Registry.create_user Instances.registry
               "11111111aaaaaaaaaaaaaaaaaaaaaaaa" 5 "carol" None).2
            "22222222bbbbbbbbbbbbbbbbbbbbbbbb" 6 "carol" None).2
       !! "user_22222222" = Some u2
    /\ Registry.username u1 = "carol" /\ Registry.username u2 = "carol".
Proof.
  destruct (create_user_twice Instances.registry
              "11111111aaaaaaaaaaaaaaaaaaaaaaaa" "22222222bbbbbbbbbbbbbbbbbbbbbbbb"
              5 6 "carol" "carol" None None) as [H _].
  destruct H as (_ & u1 & u2 & H1 & H2 & Hn1 & Hn2 & _); [discriminate |].
  exists u1, u2. auto.
Defined.

Lemma length_substring_0 (n : nat) (s : string) :
  (n <= String.length s)%nat -> String.length (substring 0 n s) = n.
Proof.
  revert s. induction n as [|n IH]; intros [|c s]; cbn; try lia; try done.
  intros H. f_equal. apply IH. lia.
Qed.

Lemma length_append (s t : string) :
  String.length (s ++ t) = (String.length s + String.length t)%nat.
Proof.
  induction s as [|c s IH]; [reflexivity |].
  change (S (String.length (s ++ t)) = S (String.length s + String.length t)).
  by f_equal.
Qed.

(** X6.  The identifiers the registry generates are kept apart.  For user
    identifiers returned by [create_user] (from uuids of at least eight
    digits) and any session identifiers, two distinct (user, session)
    pairs never get the same collection name, and the collection of a
    user without session is never the collection of a (user, session)
    pair. *)
Theorem generated_ids_get_their_own_collection
    (sm sm' : Registry.SessionManager) (hex hex' : string) (now now' : Q)
    (name name' : string) (meta meta' : option (gmap string string))
    (sid sid' : string) :
  (8 <= String.length hex)%nat -> (8 <= String.length hex')%nat ->
  sid <> "" -> sid' <> "" ->
  let uid := (Registry.create_user sm hex now name meta).1 in
  let uid' := (Registry.create_user sm' hex' now' name' meta').1 in
  (Namespace.collection_name None (Some uid) (Some sid)
   = Namespace.collection_name None (Some uid') (Some sid')
   -> uid = uid' /\ sid = sid')
  /\ Namespace.collection_name None (Some uid) (Some sid)
     = Namespace.generate_collection_name uid sid
  /\ Namespace.collection_name None (Some uid) None
     <> Namespace.collection_name None (Some uid') (Some sid')
  /\ (Namespace.collection_name None (Some uid) None
      = Namespace.collection_name None (Some uid') None -> uid = uid').
Proof.
  intros Hl Hl' Hs Hs' uid uid'.
  assert (Hlen : String.length uid = String.length uid').
  { unfold uid, uid'. cbn [fst Registry.create_user].
    rewrite !length_append. by rewrite !length_substring_0. }
  assert (Ht : forall s, s <> "" -> truthy_str (Some s) = true).
  { intros s H. cbn. apply negb_true_iff. by apply String.eqb_neq. }
  unfold Namespace.collection_name.
  assert (Hu : truthy_str (Some uid) = true) by (apply Ht; discriminate).
  assert (Hu' : truthy_str (Some uid') = true) by (apply Ht; discriminate).
  rewrite Hu, Hu', (Ht sid Hs), (Ht sid' Hs'). cbn [andb truthy_str default].
  change (from_option id "" (Some ?x)) with x.
  split; [| split; [reflexivity | split]].
  - intros Heq. apply append_cancel_l in Heq.
    destruct (append_same_length _ _ _ _ Hlen Heq) as [-> Heq'].
    split; [done | by apply append_cancel_l in Heq'].
  - intros Heq. apply append_cancel_l in Heq.
    destruct (append_same_length _ _ _ _ Hlen Heq) as [_ Heq'].
    discriminate.
  - intros Heq. apply append_cancel_l in Heq.
    by destruct (append_same_length _ _ _ _ Hlen Heq) as [-> _].
Qed.

Lemma generated_ids_get_their_own_collection_witness :
  Namespace.collection_name None (Some "user_01234567") None
  <> Namespace.collection_name None (Some "user_89abcdef")
       (Some "session_0123456789ab").
Proof.
  apply (generated_ids_get_their_own_collection Instances.registry
           Instances.registry "0123456789abcdef0123456789abcdef"
           "89abcdef0123456789abcdef01234567" 1 2 "dave" "erin" None None
           "session_ba9876543210" "session_0123456789ab");
    [cbn; lia | cbn; lia | discriminate | discriminate].
Defined.

(** ** The vector store *)

Section SearchFacts.
Import Chroma.

Lemma collect_sublist (threshold : option Q) (rows : list Hit) :
  VectorStore.id <$> VectorStore.collect threshold rows
  `sublist_of` hit_id <$> rows.
Proof.
  induction rows as [|h rows IH]; cbn [VectorStore.collect]; [constructor |].
  destruct (match threshold with
            | Some t => Qlt_bool (1 - hit_distance h) t
            | None => false
            end).
  - by apply sublist_cons.
  - by apply sublist_skip.
Qed.

Lemma elem_of_collect (threshold : option Q) (rows : list Hit)
    (m : VectorStore.Memory) :
  m ∈ VectorStore.collect threshold rows
  <-> exists h,
        h ∈ rows
        /\ m = {| VectorStore.text := hit_document h;
                  VectorStore.metadata := hit_metadata h;
                  VectorStore.similarity := (1 - hit_distance h)%Q;
                  VectorStore.id := hit_id h |}
        /\ (forall t, threshold = Some t -> (t <= 1 - hit_distance h)%Q).
Proof.
  induction rows as [|h rows IH]; cbn [VectorStore.collect].
  - split; [by intros ?%elem_of_nil | by intros (? & ?%elem_of_nil & _)].
  - assert (Hskip :
      match threshold with
      | Some t => Qlt_bool (1 - hit_distance h) t
      | None => false
      end = false
      <-> forall t, threshold = Some t -> (t <= 1 - hit_distance h)%Q).
    { destruct threshold as [t|]; [| by split].
      split.
      - intros Hf t' [= <-]. apply Qnot_lt_le. intros Hlt.
        apply Qlt_bool_iff in Hlt. congruence.
      - intros Hle. destruct (Qlt_bool _ t) eqn:E; [| done].
        apply Qlt_bool_iff in E. specialize (Hle t eq_refl).
        by apply Qlt_not_le in E. }
    destruct (match threshold with
              | Some t => Qlt_bool (1 - hit_distance h) t
              | None => false
              end) eqn:E.
    + rewrite IH. split.
      * intros (h' & Hin & Hm & Ht). exists h'. split; [by right | done].
      * intros (h' & Hin & Hm & Ht).
        apply elem_of_cons in Hin as [-> | Hin]; [| eauto].
        apply Hskip in Ht. congruence.
    + rewrite elem_of_cons, IH. split.
      * intros [-> | (h' & Hin & Hm & Ht)].
        -- exists h. split; [by left |]. split; [done |]. by apply Hskip.
        -- exists h'. split; [by right | done].
      * intros (h' & Hin & Hm & Ht).
        apply elem_of_cons in Hin as [-> | Hin]; [by left | right; eauto].
Qed.

End SearchFacts.

(** X7.  [search_memories] keeps exactly the rows of the index answer whose
    similarity, one minus the distance, is not below the threshold, in
    the order of the answer, each with the row's identifier, document and
    metadata; without a threshold it keeps every row. *)
Theorem search_memories_keeps_the_similar
    {Emb Coll : Type} (svc : Chroma.Services Emb Coll) (c : Coll)
    (query : string) (n : Z) (threshold : option Q) (emb : Emb)
    (rows : list Chroma.Hit) :
  Chroma.embed_text svc query = Ok emb ->
  Chroma.collection_query svc c emb n = Ok rows ->
  exists ms,
    VectorStore.search_memories svc c query n threshold = Ok ms
    /\ VectorStore.id <$> ms `sublist_of` Chroma.hit_id <$> rows
    /\ (forall m,
          m ∈ ms
          <-> exists h,
                h ∈ rows
                /\ m = {| VectorStore.text := Chroma.hit_document h;
                          VectorStore.metadata := Chroma.hit_metadata h;
                          VectorStore.similarity := (1 - Chroma.hit_distance h)%Q;
                          VectorStore.id := Chroma.hit_id h |}
                /\ (forall t, threshold = Some t ->
                      (t <= 1 - Chroma.hit_distance h)%Q))
    /\ (threshold = None -> length ms = length rows).
Proof.
  intros Hemb Hq. exists (VectorStore.collect threshold rows).
  split; [| split; [apply collect_sublist | split; [apply elem_of_collect |]]].
  - unfold VectorStore.search_memories. rewrite Hemb. cbn. by rewrite Hq.
  - intros ->. clear. induction rows as [|h rows IH]; cbn; [done | by f_equal].
Qed.

Lemma search_memories_keeps_the_similar_witness :
  exists ms,
    VectorStore.search_memories Instances.memory_index Instances.peanuts
      "peanuts" 3 (Some 0.5%Q) = Ok ms
    /\ VectorStore.id <$> ms `sublist_of` ["3f2a"].
Proof.
  destruct (search_memories_keeps_the_similar Instances.memory_index
              Instances.peanuts "peanuts" 3 (Some 0.5%Q) "peanuts"
              (Instances.to_hit "peanuts" <$> Instances.peanuts))
    as (ms & Hms & Hsub & _); [reflexivity | reflexivity |].
  assert (Hrows : Chroma.hit_id <$> (Instances.to_hit "peanuts" <$> Instances.peanuts)
                  = ["3f2a"]) by (vm_compute; reflexivity).
  rewrite Hrows in Hsub. eauto.
Defined.

(** X8.  A row written by [add_memory] and read by identifier.  The
    identifier returned is the caller's [memory_id] when one is given and
    the uuid otherwise.  On an index that answers a get with the row that
    was added, [get_memory_by_id] returns the text and the caller's
    metadata, with the timestamp the caller gave or, when there was none,
    the time of the call; but a row whose text is empty is reported as
    not found. *)
Theorem add_memory_then_get_by_id
    {Emb Coll : Type} (svc : Chroma.Services Emb Coll)
    (Hindex : Props.get_after_add svc)
    (c c' : Coll) (now : Q) (uuid text : string)
    (metadata : option (gmap string Chroma.Value)) (memory_id : option string)
    (i : string) :
  VectorStore.add_memory svc c now uuid text metadata memory_id = Ok (i, c') ->
  i = default uuid memory_id
  /\ (text = "" -> VectorStore.get_memory_by_id svc c' i = None)
  /\ (text <> "" ->
      exists stored,
        VectorStore.get_memory_by_id svc c' i = Some (i, text, stored)
        /\ stored !! "timestamp"
           = Some (default (Chroma.VFloat now) (default ∅ metadata !! "timestamp"))
        /\ (forall k, k <> "timestamp" ->
              stored !! k = default ∅ metadata !! k)).
Proof.
  unfold VectorStore.add_memory.
  destruct (Chroma.embed_text svc text) as [emb | e]; [| discriminate].
  unfold mbind at 1, result_bind at 1.
  set (m0 := default ∅ metadata).
  set (stored := match m0 !! "timestamp" with
                 | Some _ => m0
                 | None => <["timestamp" := Chroma.VFloat now]> m0
                 end).
  destruct (Chroma.collection_add svc c emb text stored (default uuid memory_id))
    as [c1 | e] eqn:Hadd; [| discriminate].
  intros [= <- <-]. split; [done |].
  apply Hindex in Hadd. unfold VectorStore.get_memory_by_id. rewrite Hadd.
  split.
  - intros ->. done.
  - intros Hne. apply String.eqb_neq in Hne. rewrite Hne.
    exists stored. split; [done |]. subst stored.
    destruct (m0 !! "timestamp") as [v|] eqn:Hts.
    + split; [by rewrite Hts | done].
    + split; [by rewrite lookup_insert_eq |].
      intros k Hk. by rewrite lookup_insert_ne.
Qed.

Lemma add_memory_then_get_by_id_witness :
  VectorStore.get_memory_by_id Instances.memory_index
    (match VectorStore.add_memory Instances.memory_index [] 7 "ab12" ""
             None (Some "mine") with
     | Ok (_, c) => c
     | Raise _ => []
     end) "mine" = None.
Proof.
  destruct (add_memory_then_get_by_id Instances.memory_index
              memory_index_get_after_add []
              (match VectorStore.add_memory Instances.memory_index [] 7 "ab12" ""
                       None (Some "mine") with
               | Ok (_, c) => c
               | Raise _ => []
               end) 7 "ab12" "" None (Some "mine") "mine")
    as (_ & Hempty & _); [vm_compute; reflexivity |].
  by apply Hempty.
Defined.

(** A search result with a string for its access counter that passes
    the filters before the limit is reached makes the loop raise. *)
Lemma filter_loop_raises (now : Q) (memory_type : option string)
    (min_importance : option Q) (n : Z) (bad : VectorStore.Memory)
    (after : list VectorStore.Memory) (x : string) :
  Props.kept memory_type min_importance bad = true ->
  VectorStore.metadata bad !! "access_count" = Some (Chroma.VStr x) ->
  forall (before : list VectorStore.Memory)
         (acc : list (gmap string Chroma.Value)),
    Z.of_nat (length acc)
    + Z.of_nat (length (List.filter (Props.kept memory_type min_importance)
                          before)) < n ->
    exists e,
      LongTermMemoryManager.filter_loop now memory_type min_importance n
        (before ++ bad :: after)%list acc = Raise e.
Proof.
  intros Hkept Hbad.
  assert (Hraise : LongTermMemoryManager.memory_result now bad
                   = Raise "TypeError").
  { unfold LongTermMemoryManager.memory_result, LongTermMemoryManager.refresh.
    rewrite lookup_insert_ne, Hbad by done. reflexivity. }
  induction before as [|m before IH]; intros acc Hacc;
    cbn [app LongTermMemoryManager.filter_loop].
  - unfold Props.kept in Hkept.
    destruct (truthy_str memory_type
              && Chroma.differs (VectorStore.metadata bad !! "memory_type")
                   (default "" memory_type)); [done |].
    cbn [negb andb] in Hkept.
    destruct (truthy_float min_importance); cbn [andb] in Hkept.
    + destruct (Chroma.less_than _ _) as [[|] | e]; try done.
      rewrite Hraise. by eexists.
    + rewrite Hraise. by eexists.
  - cbn [List.filter] in Hacc. unfold Props.kept at 1 in Hacc.
    destruct (truthy_str memory_type
              && Chroma.differs (VectorStore.metadata m !! "memory_type")
                   (default "" memory_type)); cbn [negb andb] in Hacc.
    { by apply IH. }
    destruct (truthy_float min_importance); cbn [andb] in Hacc.
    + destruct (Chroma.less_than _ _) as [[|] | e]; cbn [negb] in Hacc;
        [by apply IH | | by eexists].
      destruct (LongTermMemoryManager.memory_result now m) as [r | e];
        [| by eexists].
      cbn [length] in Hacc.
      destruct (n <=? Z.of_nat (length (acc ++ [r]))) eqn:Hfull.
      * apply Z.leb_le in Hfull. rewrite length_app in Hfull.
        cbn [length] in Hfull. lia.
      * apply IH. rewrite length_app. cbn [length]. lia.
    + cbn [negb] in Hacc.
      destruct (LongTermMemoryManager.memory_result now m) as [r | e];
        [| by eexists].
      cbn [length] in Hacc.
      destruct (n <=? Z.of_nat (length (acc ++ [r]))) eqn:Hfull.
      * apply Z.leb_le in Hfull. rewrite length_app in Hfull.
        cbn [length] in Hfull. lia.
      * apply IH. rewrite length_app. cbn [length]. lia.
Qed.

(** X9.  Reading by identifier when things go wrong.  When the index raises
    or knows no row for the identifier, the manager's [get_memory_by_id]
    returns None without raising; when the row's access counter is a
    string, it raises TypeError, since this method has no [try].  The
    same row met by [retrieve_memories], with any filters that it passes
    and in the answer of either search, before the limit is reached, makes
    the whole retrieval return the empty list, whatever was collected
    before it. *)
Theorem malformed_counter_raises_or_empties
    {Emb Coll : Type} (svc : Chroma.Services Emb Coll) (c : Coll) (now : Q) :
  (forall i,
      (exists e, Chroma.collection_get svc c i = Raise e)
      \/ Chroma.collection_get svc c i = Ok [] ->
      LongTermMemoryManager.get_memory_by_id svc c now i = Ok None)
  /\ (forall i doc meta rest x,
        Chroma.collection_get svc c i = Ok ((doc, meta) :: rest) ->
        doc <> "" ->
        meta !! "access_count" = Some (Chroma.VStr x) ->
        LongTermMemoryManager.get_memory_by_id svc c now i = Raise "TypeError")
  /\ (forall query memory_type max_results min_importance first memories
             before bad after x,
        let n := or_int max_results LongTermMemoryManager.max_memories in
        VectorStore.search_memories svc c query (n * 2)
          (Some LongTermMemoryManager.similarity_threshold) = Ok first ->
        first <> [] /\ memories = first
        \/ first = []
           /\ VectorStore.search_memories svc c query n None = Ok memories ->
        memories = (before ++ bad :: after)%list ->
        Z.of_nat (length (List.filter (Props.kept memory_type min_importance)
                            before)) < n ->
        Props.kept memory_type min_importance bad = true ->
        VectorStore.metadata bad !! "access_count" = Some (Chroma.VStr x) ->
        LongTermMemoryManager.retrieve_memories svc c now query memory_type
          max_results min_importance = Ok []).
Proof.
  split; [| split].
  - intros i H. unfold LongTermMemoryManager.get_memory_by_id,
      VectorStore.get_memory_by_id.
    destruct H as [[e ->] | ->]; done.
  - intros i doc meta rest x Hget Hdoc Hcount.
    unfold LongTermMemoryManager.get_memory_by_id, VectorStore.get_memory_by_id.
    rewrite Hget. apply String.eqb_neq in Hdoc. rewrite Hdoc.
    unfold LongTermMemoryManager.refresh.
    rewrite lookup_insert_ne, Hcount by done. reflexivity.
  - intros query memory_type max_results min_importance first memories before
      bad after x n Hfirst Hfrom Hsplit Hlen Hkept Hbad.
    destruct (filter_loop_raises now memory_type min_importance n bad after x
                Hkept Hbad before []) as [e Hloop]; [cbn [length]; lia |].
    unfold LongTermMemoryManager.retrieve_memories,
      LongTermMemoryManager.retrieve_memories_try. fold n. rewrite Hfirst.
    unfold mbind at 1, result_bind at 1.
    destruct Hfrom as [[Hne ->] | [-> Hsecond]].
    + destruct first as [|m first]; [done |].
      unfold mbind, result_bind. rewrite Hsplit, Hloop. done.
    + rewrite Hsecond. unfold mbind, result_bind. rewrite Hsplit, Hloop. done.
Qed.

Lemma malformed_counter_raises_or_empties_witness :
  LongTermMemoryManager.get_memory_by_id Instances.memory_index
    Instances.miscounted 9 "77ab" = Raise "TypeError"
  /\ LongTermMemoryManager.retrieve_memories Instances.memory_index
       Instances.miscounted 9 "ledger" None None None = Ok []
  /\ LongTermMemoryManager.retrieve_memories Instances.memory_index
       Instances.miscounted 9 "peanuts" None None None = Ok [].
Proof.
  destruct (malformed_counter_raises_or_empties Instances.memory_index
              Instances.miscounted 9) as (_ & Hget & Hretrieve).
  split; [| split].
  - apply (Hget "77ab" "ledger entry"
             (<["timestamp" := Chroma.VFloat 100]>
                (<["access_count" := Chroma.VStr "3"]> ∅)) [] "3");
      [vm_compute; reflexivity | discriminate | vm_compute; reflexivity].
  - apply (Hretrieve "ledger" None None None
             [{| VectorStore.text := "ledger entry";
                 VectorStore.metadata :=
                   <["timestamp" := Chroma.VFloat 100]>
                     (<["access_count" := Chroma.VStr "3"]> ∅);
                 VectorStore.similarity := 1 - 0.1;
                 VectorStore.id := "77ab" |}]
             [{| VectorStore.text := "ledger entry";
                 VectorStore.metadata :=
                   <["timestamp" := Chroma.VFloat 100]>
                     (<["access_count" := Chroma.VStr "3"]> ∅);
                 VectorStore.similarity := 1 - 0.1;
                 VectorStore.id := "77ab" |}]
             []
             {| VectorStore.text := "ledger entry";
                VectorStore.metadata :=
                  <["timestamp" := Chroma.VFloat 100]>
                    (<["access_count" := Chroma.VStr "3"]> ∅);
                VectorStore.similarity := 1 - 0.1;
                VectorStore.id := "77ab" |}
             [] "3").
    + vm_compute. reflexivity.
    + left. split; [discriminate | reflexivity].
    + reflexivity.
    + reflexivity.
    + reflexivity.
    + vm_compute. reflexivity.
  - apply (Hretrieve "peanuts" None None None []
             [{| VectorStore.text := "ledger entry";
                 VectorStore.metadata :=
                   <["timestamp" := Chroma.VFloat 100]>
                     (<["access_count" := Chroma.VStr "3"]> ∅);
                 VectorStore.similarity := 1 - 0.9;
                 VectorStore.id := "77ab" |}]
             []
             {| VectorStore.text := "ledger entry";
                VectorStore.metadata :=
                  <["timestamp" := Chroma.VFloat 100]>
                    (<["access_count" := Chroma.VStr "3"]> ∅);
                VectorStore.similarity := 1 - 0.9;
                VectorStore.id := "77ab" |}
             [] "3").
    + vm_compute. reflexivity.
    + right. split; [reflexivity |]. vm_compute. reflexivity.
    + reflexivity.
    + reflexivity.
    + reflexivity.
    + vm_compute. reflexivity.
Defined.

(** ** What [store_memory] writes *)

Ltac lookups :=
  repeat first
    [ rewrite lookup_insert_eq
    | rewrite lookup_insert_ne by done
    | rewrite lookup_delete_eq
    | rewrite lookup_delete_ne by done
    | rewrite lookup_alter_eq
    | rewrite lookup_alter_ne by done
    | rewrite lookup_empty ].

Lemma lookup_written (now : Q) (mt : string) (imp : Q) (T : list string)
    (ctx src : option string) (k : string) :
  Props.written now mt imp T ctx src !! k
  = if decide (k = "memory_type") then Some (Chroma.VStr mt)
    else if decide (k = "importance")
    then Some (Chroma.VFloat (LongTermMemoryManager.clamp imp))
    else if decide (k = "created_at") then Some (Chroma.VFloat now)
    else if decide (k = "last_accessed") then Some (Chroma.VFloat now)
    else if decide (k = "access_count") then Some (Chroma.VInt 0)
    else if decide (k = "tags") then Some (Chroma.VStr (join "," T))
    else if decide (k = "timestamp") then Some (Chroma.VFloat now)
    else if decide (k = "context") then Chroma.VStr <$> ctx
    else if decide (k = "source") then Chroma.VStr <$> src
    else None.
Proof.
  unfold Props.written, Props.with_entry.
  repeat (case_decide; [subst k; lookups; try done |]).
  - destruct ctx; lookups; [done |]. destruct src; by lookups.
  - destruct ctx; lookups; destruct src; by lookups.
  - repeat (rewrite lookup_insert_ne; [| intros <-; done]).
    destruct ctx, src; cbn;
      repeat (rewrite lookup_insert_ne; [| intros <-; done]);
      by rewrite lookup_empty.
Qed.

(** The dictionary handed to the index by [store_memory]. *)
Lemma store_memory_writes {Emb Coll : Type} (svc : Chroma.Services Emb Coll)
    (c c' : Coll) (now : Q) (uuid content memory_type : string)
    (importance : Q) (tags : option (list string))
    (context source : option string) (i : string) :
  LongTermMemoryManager.store_memory svc c now uuid content memory_type
    importance tags context source = Ok (i, c') ->
  i = uuid
  /\ exists emb,
       Chroma.embed_text svc content = Ok emb
       /\ Chroma.collection_add svc c emb content
            (Props.written now memory_type importance (default [] tags)
               context source) uuid = Ok c'.
Proof.
  unfold LongTermMemoryManager.store_memory, VectorStore.add_memory.
  destruct (Chroma.embed_text svc content) as [emb | e]; [| discriminate].
  unfold mbind at 1, result_bind at 1. cbn [default].
  set (metadata := omap LongTermMemoryManager.clean _).
  change (id metadata) with metadata.
  assert (Hk : forall k, metadata !! k
    = (alter LongTermMemoryManager.join_tags "tags"
         (delete "content" (LongTermMemoryManager.to_dict
           {| LongTermMemoryManager.content := content;
              LongTermMemoryManager.memory_type := memory_type;
              LongTermMemoryManager.importance :=
                LongTermMemoryManager.clamp importance;
              LongTermMemoryManager.created_at := now;
              LongTermMemoryManager.last_accessed := now;
              LongTermMemoryManager.access_count := 0;
              LongTermMemoryManager.tags := default [] tags;
              LongTermMemoryManager.context := context;
              LongTermMemoryManager.source := source |})) !! k)
      ≫= LongTermMemoryManager.clean)
    by (intros k; apply lookup_omap).
  assert (Hts : metadata !! "timestamp" = None).
  { rewrite Hk. unfold LongTermMemoryManager.to_dict. by lookups. }
  rewrite Hts.
  assert (Heq : <["timestamp" := Chroma.VFloat now]> metadata
                = Props.written now memory_type importance (default [] tags)
                    context source).
  { apply map_eq. intros k. rewrite lookup_written.
    destruct (decide (k = "timestamp")) as [-> | Hts'].
    { by lookups. }
    rewrite lookup_insert_ne by done. rewrite Hk.
    unfold LongTermMemoryManager.to_dict.
    cbn [LongTermMemoryManager.memory_type
      LongTermMemoryManager.importance LongTermMemoryManager.created_at
      LongTermMemoryManager.access_count LongTermMemoryManager.last_accessed
      LongTermMemoryManager.tags LongTermMemoryManager.context
      LongTermMemoryManager.source LongTermMemoryManager.content].
    repeat (case_decide; [subst k; lookups; try done |]).
    - destruct context; done.
    - destruct source; done.
    - destruct (decide (k = "content")) as [-> | Hc]; [by lookups |].
      rewrite lookup_alter_ne by done. rewrite lookup_delete_ne by done.
      repeat (rewrite lookup_insert_ne; [| intros <-; done]).
      by rewrite lookup_empty. }
  rewrite Heq.
  destruct (Chroma.collection_add svc c emb content _ uuid) as [c1 | e] eqn:Hadd;
    [| discriminate].
  intros [= <- <-]. split; [done |]. exists emb. done.
Qed.

Lemma clamp_below (x : Q) : (x < 0)%Q -> LongTermMemoryManager.clamp x = 0%Q.
Proof.
  intros H. unfold LongTermMemoryManager.clamp.
  assert (H1 : Qlt_bool x 1 = true).
  { apply Qlt_bool_iff. eapply Qlt_trans; [exact H | done]. }
  rewrite H1.
  destruct (Qlt_bool 0 x) eqn:E; [| done].
  apply Qlt_bool_iff in E. exfalso. eapply Qlt_irrefl, Qlt_trans; eassumption.
Qed.

Lemma clamp_above (x : Q) : (1 < x)%Q -> LongTermMemoryManager.clamp x = 1%Q.
Proof.
  intros H. unfold LongTermMemoryManager.clamp.
  destruct (Qlt_bool x 1) eqn:E; [| done].
  apply Qlt_bool_iff in E. exfalso. eapply Qlt_irrefl, Qlt_trans; eassumption.
Qed.

(** X10.  Whatever importance is passed, the importance [store_memory] hands
    to the index lies in [0, 1]: 0 for a negative argument, 1 for an
    argument above 1, the argument itself when it is in range. *)
Theorem store_memory_clamps_importance
    {Emb Coll : Type} (svc : Chroma.Services Emb Coll)
    (c c' : Coll) (now : Q) (uuid content memory_type : string)
    (importance : Q) (tags : option (list string))
    (context source : option string) (i : string) :
  LongTermMemoryManager.store_memory svc c now uuid content memory_type
    importance tags context source = Ok (i, c') ->
  exists emb metadata q,
    Chroma.collection_add svc c emb content metadata i = Ok c'
    /\ metadata !! "importance" = Some (Chroma.VFloat q)
    /\ (0 <= q <= 1)%Q
    /\ ((importance < 0)%Q -> q = 0%Q)
    /\ ((1 < importance)%Q -> q = 1%Q)
    /\ ((0 <= importance <= 1)%Q -> (q == importance)%Q).
Proof.
  intros Hstore. apply store_memory_writes in Hstore as (-> & emb & _ & Hadd).
  eexists emb, _, (LongTermMemoryManager.clamp importance).
  split; [exact Hadd |]. split; [by rewrite lookup_written |].
  split; [apply clamp_range |]. split; [apply clamp_below |].
  split; [apply clamp_above | apply clamp_inside].
Qed.

Lemma store_memory_clamps_importance_witness :
  exists emb metadata,
    Chroma.collection_add Instances.memory_index [] emb
      "The meeting is on Friday" metadata "9c0d" = Ok Instances.untagged
    /\ metadata !! "importance" = Some (Chroma.VFloat 1).
Proof.
  destruct (store_memory_clamps_importance Instances.memory_index []
              Instances.untagged 100 "9c0d" "The meeting is on Friday"
              "knowledge" 1.7 None None None "9c0d")
    as (emb & metadata & q & Hadd & Hq & _ & _ & Hhigh & _);
    [vm_compute; reflexivity |].
  exists emb, metadata. split; [exact Hadd |].
  rewrite Hq, Hhigh; [reflexivity | reflexivity].
Defined.

(** X11.  What [store_memory] hands to the index: the content as the
    document and a dictionary with exactly the entries memory_type,
    importance, created_at, last_accessed, access_count (0), tags (the
    joined string) and timestamp, plus context and source when they are
    given; every value is a string or a number, and no entry is named
    content, id or similarity. *)
Theorem store_memory_writes_flat_metadata
    {Emb Coll : Type} (svc : Chroma.Services Emb Coll)
    (c c' : Coll) (now : Q) (uuid content memory_type : string)
    (importance : Q) (tags : option (list string))
    (context source : option string) (i : string) :
  LongTermMemoryManager.store_memory svc c now uuid content memory_type
    importance tags context source = Ok (i, c') ->
  let metadata :=
    Props.written now memory_type importance (default [] tags) context source in
  (exists emb, Chroma.collection_add svc c emb content metadata i = Ok c')
  /\ (forall k v, metadata !! k = Some v -> Props.flat v)
  /\ (forall k,
        is_Some (metadata !! k)
        <-> In k ["memory_type"; "importance"; "created_at"; "last_accessed";
                  "access_count"; "tags"; "timestamp"]
            \/ (k = "context" /\ is_Some context)
            \/ (k = "source" /\ is_Some source)).
Proof.
  intros Hstore metadata.
  apply store_memory_writes in Hstore as (-> & emb & _ & Hadd).
  split; [by exists emb |]. split.
  - intros k v. unfold metadata. rewrite lookup_written.
    repeat (case_decide; [by intros [= <-] |]).
    case_decide; [destruct context; [by intros [= <-] | done] |].
    case_decide; [destruct source; [by intros [= <-] | done] |]. done.
  - intros k. unfold metadata. rewrite lookup_written. cbn [In].
    repeat (case_decide; [subst k; split; [intros _; tauto | eauto] |]).
    case_decide; [subst k |].
    { rewrite fmap_is_Some. split; [intros Hx; right; left; done |].
      intros [Hx | [[_ Hx] | [Hk _]]]; [| done | done].
      repeat (destruct Hx as [Hx | Hx]; [discriminate |]). done. }
    case_decide; [subst k |].
    { rewrite fmap_is_Some. split; [intros Hx; right; right; done |].
      intros [Hx | [[Hk _] | [_ Hx]]]; [| done | done].
      repeat (destruct Hx as [Hx | Hx]; [discriminate |]). done. }
    split; [by intros [? ?] |].
    intros [Hx | [[Hk _] | [Hk _]]]; [| done | done].
    repeat (destruct Hx as [Hx | Hx]; [by subst |]). done.
Qed.

Lemma store_memory_writes_flat_metadata_witness :
  exists emb,
    Chroma.collection_add Instances.memory_index [] emb
      "I am allergic to peanuts"
      (Props.written 100 "fact" 0.9 ["health"; "food"] None (Some "chat"))
      "3f2a" = Ok Instances.peanuts.
Proof.
  apply (store_memory_writes_flat_metadata Instances.memory_index []
           Instances.peanuts 100 "3f2a" "I am allergic to peanuts" "fact" 0.9
           (Some ["health"; "food"]) None (Some "chat") "3f2a").
  vm_compute. reflexivity.
Defined.

(** ** What a retrieval returns *)

Lemma filter_loop_first (now : Q) (memory_type : option string)
    (min_importance : option Q) (n : Z) :
  forall (ms : list VectorStore.Memory) (acc res : list (gmap string Chroma.Value)),
    LongTermMemoryManager.filter_loop now memory_type min_importance n ms acc
    = Ok res ->
    Z.of_nat (length acc) < n ->
    exists new,
      res = (acc ++ new)%list
      /\ Forall2 (fun m r => LongTermMemoryManager.memory_result now m = Ok r)
           (take (Z.to_nat n - length acc)
              (List.filter (Props.kept memory_type min_importance) ms))
           new.
Proof.
  induction ms as [|m ms IH]; intros acc res;
    cbn [LongTermMemoryManager.filter_loop List.filter].
  - intros [= <-] _. exists []. rewrite app_nil_r, take_nil. by split.
  - unfold Props.kept at 1.
    destruct (truthy_str memory_type
              && Chroma.differs (VectorStore.metadata m !! "memory_type")
                   (default "" memory_type)) eqn:Htype; cbn [negb andb].
    { apply IH. }
    destruct (truthy_float min_importance) eqn:Hfloat; cbn [andb].
    + destruct (Chroma.less_than _ _) as [[|] | e]; cbn [negb];
        [apply IH | | discriminate].
      destruct (LongTermMemoryManager.memory_result now m) as [r | e] eqn:Hr;
        [| discriminate].
      destruct (n <=? Z.of_nat (length (acc ++ [r]))) eqn:Hfull.
      * intros [= <-] Hacc. apply Z.leb_le in Hfull.
        rewrite length_app in Hfull. cbn [length] in Hfull.
        exists [r]. split; [done |].
        replace (Z.to_nat n - length acc)%nat with 1%nat by lia.
        cbn [take]. rewrite take_0. by repeat constructor.
      * intros Hres Hacc. apply Z.leb_gt in Hfull.
        rewrite length_app in Hfull. cbn [length] in Hfull.
        destruct (IH _ _ Hres) as (new & -> & Hnew);
          [rewrite length_app; cbn [length]; lia |].
        exists (r :: new). split; [by rewrite <- app_assoc |].
        rewrite length_app in Hnew. cbn [length] in Hnew.
        replace (Z.to_nat n - length acc)%nat
          with (S (Z.to_nat n - (length acc + 1)))%nat by lia.
        cbn [take]. by constructor.
    + cbn [negb].
      destruct (LongTermMemoryManager.memory_result now m) as [r | e] eqn:Hr;
        [| discriminate].
      destruct (n <=? Z.of_nat (length (acc ++ [r]))) eqn:Hfull.
      * intros [= <-] Hacc. apply Z.leb_le in Hfull.
        rewrite length_app in Hfull. cbn [length] in Hfull.
        exists [r]. split; [done |].
        replace (Z.to_nat n - length acc)%nat with 1%nat by lia.
        cbn [take]. rewrite take_0. by repeat constructor.
      * intros Hres Hacc. apply Z.leb_gt in Hfull.
        rewrite length_app in Hfull. cbn [length] in Hfull.
        destruct (IH _ _ Hres) as (new & -> & Hnew);
          [rewrite length_app; cbn [length]; lia |].
        exists (r :: new). split; [by rewrite <- app_assoc |].
        rewrite length_app in Hnew. cbn [length] in Hnew.
        replace (Z.to_nat n - length acc)%nat
          with (S (Z.to_nat n - (length acc + 1)))%nat by lia.
        cbn [take]. by constructor.
Qed.

(** X12.  When the body of [retrieve_memories] does not raise and the
    effective [max_results] n is positive, the records returned are built
    from the first n search results that pass the type filter and the
    importance floor, one record per result and in their order: no
    passing result is skipped before the limit is reached.  The search
    results are those of the thresholded search unless it found nothing,
    in which case they are those of the unthresholded one. *)
Theorem retrieve_memories_returns_the_first_passing
    {Emb Coll : Type} (svc : Chroma.Services Emb Coll) (c : Coll) (now : Q)
    (query : string) (memory_type : option string) (max_results : option Z)
    (min_importance : option Q) (res : list (gmap string Chroma.Value)) :
  let n := or_int max_results LongTermMemoryManager.max_memories in
  LongTermMemoryManager.retrieve_memories_try svc c now query memory_type
    max_results min_importance = Ok res ->
  0 < n ->
  exists memories,
    (exists first,
        VectorStore.search_memories svc c query (n * 2)
          (Some LongTermMemoryManager.similarity_threshold) = Ok first
        /\ (first <> [] /\ memories = first
            \/ first = []
               /\ VectorStore.search_memories svc c query n None = Ok memories))
    /\ Forall2 (fun m r => LongTermMemoryManager.memory_result now m = Ok r)
         (take (Z.to_nat n)
            (List.filter (Props.kept memory_type min_importance) memories))
         res
    /\ LongTermMemoryManager.retrieve_memories svc c now query memory_type
         max_results min_importance = Ok res.
Proof.
  intros n Htry Hn.
  assert (Hsame : LongTermMemoryManager.retrieve_memories svc c now query
                    memory_type max_results min_importance = Ok res).
  { unfold LongTermMemoryManager.retrieve_memories. by rewrite Htry. }
  unfold LongTermMemoryManager.retrieve_memories_try in Htry. fold n in Htry.
  destruct (VectorStore.search_memories svc c query (n * 2)
              (Some LongTermMemoryManager.similarity_threshold))
    as [first | e] eqn:Hs1; [| discriminate].
  unfold mbind at 1, result_bind at 1 in Htry.
  destruct first as [|m first].
  - destruct (VectorStore.search_memories svc c query n None)
      as [memories | e] eqn:Hs2; [| discriminate].
    unfold mbind, result_bind in Htry.
    apply filter_loop_first in Htry as (new & -> & Hnew); [| cbn; lia].
    exists memories. split; [exists []; split; [done | by right] |].
    cbn [length] in Hnew. rewrite Nat.sub_0_r in Hnew. done.
  - unfold mbind, result_bind in Htry.
    apply filter_loop_first in Htry as (new & -> & Hnew); [| cbn; lia].
    exists (m :: first). split; [exists (m :: first); split; [done | by left] |].
    cbn [length] in Hnew. rewrite Nat.sub_0_r in Hnew. done.
Qed.

Lemma retrieve_memories_returns_the_first_passing_witness :
  exists memories res,
    VectorStore.search_memories Instances.memory_index Instances.shelf "tea" 4
      (Some LongTermMemoryManager.similarity_threshold) = Ok memories
    /\ VectorStore.id <$> memories = ["p1"; "f1"; "p2"; "p3"]
    /\ VectorStore.id
         <$> take 2 (List.filter (Props.kept (Some "preference") None) memories)
       = ["p1"; "p2"]
    /\ Forall2 (fun m r => LongTermMemoryManager.memory_result 200 m = Ok r)
         (take 2 (List.filter (Props.kept (Some "preference") None) memories))
         res
    /\ LongTermMemoryManager.retrieve_memories Instances.memory_index
         Instances.shelf 200 "tea" (Some "preference") (Some 2) None = Ok res
    /\ Props.fields "id" (Ok res)
       = [Some (Chroma.VStr "p1"); Some (Chroma.VStr "p2")].
Proof.
  assert (Hok :
    match LongTermMemoryManager.retrieve_memories_try Instances.memory_index
            Instances.shelf 200 "tea" (Some "preference") (Some 2) None with
    | Ok _ => true
    | Raise _ => false
    end = true) by (vm_compute; reflexivity).
  destruct (LongTermMemoryManager.retrieve_memories_try Instances.memory_index
              Instances.shelf 200 "tea" (Some "preference") (Some 2) None)
    as [res | e] eqn:Htry; [clear Hok | discriminate].
  destruct (retrieve_memories_returns_the_first_passing Instances.memory_index
              Instances.shelf 200 "tea" (Some "preference") (Some 2) None res
              Htry)
    as (memories & (first & Hfirst & Hcase) & Hbuilt & Hret); [reflexivity |].
  assert (Hsearch :
    VectorStore.search_memories Instances.memory_index Instances.shelf "tea" 4
      (Some LongTermMemoryManager.similarity_threshold) = Ok first)
    by exact Hfirst.
  assert (Hids :
    match VectorStore.search_memories Instances.memory_index Instances.shelf
            "tea" 4 (Some LongTermMemoryManager.similarity_threshold) with
    | Ok l =>
      Some (VectorStore.id <$> l,
            VectorStore.id
              <$> take 2 (List.filter (Props.kept (Some "preference") None) l))
    | Raise _ => None
    end = Some (["p1"; "f1"; "p2"; "p3"], ["p1"; "p2"]))
    by (vm_compute; reflexivity).
  rewrite Hsearch in Hids.
  assert (Hfields :
    Props.fields "id"
      (LongTermMemoryManager.retrieve_memories Instances.memory_index
         Instances.shelf 200 "tea" (Some "preference") (Some 2) None)
    = [Some (Chroma.VStr "p1"); Some (Chroma.VStr "p2")])
    by (vm_compute; reflexivity).
  rewrite Hret in Hfields.
  destruct Hcase as [[_ ->] | [-> _]]; [| discriminate].
  injection Hids as Hall Hkept.
  exists first, res. repeat split; assumption.
Defined.

(** X13.  The fields of a returned record.  The record holds the metadata of
    the search result, and the result's identifier, document (as content)
    and similarity under every one of these three names that the metadata
    does not use itself: a metadata entry named id, content or similarity
    takes precedence.  The metadata written by [store_memory] uses none of
    the three, so a record stored through the manager is returned with
    its own identifier, content and similarity. *)
Theorem returned_record_fields (now : Q) (m : VectorStore.Memory)
    (r : gmap string Chroma.Value) :
  LongTermMemoryManager.memory_result now m = Ok r ->
  r !! "id"
  = Some (default (Chroma.VStr (VectorStore.id m))
            (VectorStore.metadata m !! "id"))
  /\ r !! "content"
     = Some (default (Chroma.VStr (VectorStore.text m))
               (VectorStore.metadata m !! "content"))
  /\ r !! "similarity"
     = Some (default (Chroma.VFloat (VectorStore.similarity m))
               (VectorStore.metadata m !! "similarity"))
  /\ (forall k, k <> "last_accessed" -> k <> "access_count" ->
        is_Some (VectorStore.metadata m !! k) ->
        r !! k = VectorStore.metadata m !! k)
  /\ (forall stored mt imp T ctx src,
        VectorStore.metadata m = Props.written stored mt imp T ctx src ->
        r !! "id" = Some (Chroma.VStr (VectorStore.id m))
        /\ r !! "content" = Some (Chroma.VStr (VectorStore.text m))
        /\ r !! "similarity" = Some (Chroma.VFloat (VectorStore.similarity m))
        /\ r !! "access_count" = Some (Chroma.VInt 1)
        /\ r !! "last_accessed" = Some (Chroma.VFloat now)
        /\ r !! "created_at" = Some (Chroma.VFloat stored)).
Proof.
  intros Hr. unfold LongTermMemoryManager.memory_result in Hr.
  apply refresh_spec in Hr as (Hla & (v & Hv & Hcount) & Hk).
  assert (H3 : forall k x, k <> "last_accessed" -> k <> "access_count" ->
    (<["id" := Chroma.VStr (VectorStore.id m)]>
     (<["content" := Chroma.VStr (VectorStore.text m)]>
      (<["similarity" := Chroma.VFloat (VectorStore.similarity m)]>
         (∅ : gmap string Chroma.Value))))
      !! k = Some x ->
    r !! k = Some (default x (VectorStore.metadata m !! k))).
  { intros k x H1 H2 Hb. rewrite (Hk k H1 H2), Hb.
    by destruct (VectorStore.metadata m !! k). }
  split; [apply H3; by lookups |]. split; [apply H3; by lookups |].
  split; [apply H3; by lookups |]. split.
  - intros k H1 H2 [x Hx]. by rewrite (Hk k H1 H2), Hx.
  - intros stored mt imp T ctx src Hm.
    rewrite Hm, lookup_written in Hv. cbn in Hv. injection Hv as <-.
    rewrite (H3 "id" (Chroma.VStr (VectorStore.id m))),
      (H3 "content" (Chroma.VStr (VectorStore.text m))),
      (H3 "similarity" (Chroma.VFloat (VectorStore.similarity m)))
      by (done || by lookups).
    rewrite (Hk "created_at") by done.
    rewrite Hm, !lookup_written. cbn. done.
Qed.

(** The record built from a search result that [store_memory] wrote. *)
Lemma memory_result_written (now : Q) (m : VectorStore.Memory) (stored : Q)
    (mt : string) (imp : Q) (T : list string) (ctx src : option string) :
  VectorStore.metadata m = Props.written stored mt imp T ctx src ->
  LongTermMemoryManager.memory_result now m
  = Ok (<["access_count" := Chroma.VInt 1]>
          (<["last_accessed" := Chroma.VFloat now]> (VectorStore.metadata m))
        ∪ <["id" := Chroma.VStr (VectorStore.id m)]>
            (<["content" := Chroma.VStr (VectorStore.text m)]>
               (<["similarity" := Chroma.VFloat (VectorStore.similarity m)]>
                  ∅))).
Proof.
  intros Hm.
  unfold LongTermMemoryManager.memory_result, LongTermMemoryManager.refresh.
  destruct m as [text metadata similarity id].
  cbn [VectorStore.metadata VectorStore.text VectorStore.similarity
       VectorStore.id] in *.
  subst metadata. cbv zeta. rewrite lookup_insert_ne by done. rewrite lookup_written.
  repeat (case_decide; [discriminate |]). case_decide; [reflexivity | done].
Qed.

Lemma returned_record_fields_witness :
  exists r,
    LongTermMemoryManager.memory_result 200
      {| VectorStore.text := "I am allergic to peanuts";
         VectorStore.metadata :=
           Props.written 100 "fact" 0.9 ["health"; "food"] None (Some "chat");
         VectorStore.similarity := 0.9;
         VectorStore.id := "3f2a" |} = Ok r
    /\ r !! "id" = Some (Chroma.VStr "3f2a").
Proof.
  eexists. split.
  - by apply (memory_result_written 200 _ 100 "fact" 0.9 ["health"; "food"]
                None (Some "chat")).
  - destruct (returned_record_fields 200 _ _
                (memory_result_written 200
                   {| VectorStore.text := "I am allergic to peanuts";
                      VectorStore.metadata :=
                        Props.written 100 "fact" 0.9 ["health"; "food"] None
                          (Some "chat");
                      VectorStore.similarity := 0.9;
                      VectorStore.id := "3f2a" |}
                   100 "fact" 0.9 ["health"; "food"] None (Some "chat")
                   eq_refl)) as (_ & _ & _ & _ & Hw).
    destruct (Hw 100%Q "fact" 0.9%Q ["health"; "food"] None (Some "chat")
                eq_refl) as (Hid & _).
    exact Hid.
Defined.

(** ** The convenience variants and the stored suggestions *)

(** X14.  The three convenience variants store a record that is read back
    with their fixed type, source and joined tags: a conversation summary
    as an experience from "conversation_summary" tagged
    "conversation,summary", with the conversation as context; a user
    preference as a preference of importance 0.8 from "user_preference"
    tagged "preference,user"; a fact as a fact from "factual_information"
    tagged "fact,information". *)
Theorem convenience_variants_read_back
    {Emb Coll : Type} (svc : Chroma.Services Emb Coll)
    (Hindex : Props.get_after_add svc) (c c' : Coll) (now later : Q)
    (uuid text i : string) :
  text <> "" ->
  let read k := Props.field k
                  (LongTermMemoryManager.get_memory_by_id svc c' later i) in
  (forall conversation importance,
      LongTermMemoryManager.store_conversation_summary svc c now uuid text
        conversation importance = Ok (i, c') ->
      read "content" = Some (Chroma.VStr text)
      /\ read "memory_type" = Some (Chroma.VStr "experience")
      /\ read "source" = Some (Chroma.VStr "conversation_summary")
      /\ read "tags" = Some (Chroma.VStr "conversation,summary")
      /\ read "context" = Some (Chroma.VStr conversation))
  /\ (forall context,
        LongTermMemoryManager.store_user_preference svc c now uuid text context
        = Ok (i, c') ->
        read "content" = Some (Chroma.VStr text)
        /\ read "memory_type" = Some (Chroma.VStr "preference")
        /\ read "importance" = Some (Chroma.VFloat 0.8)
        /\ read "source" = Some (Chroma.VStr "user_preference")
        /\ read "tags" = Some (Chroma.VStr "preference,user")
        /\ read "context" = Chroma.VStr <$> context)
  /\ (forall context importance,
        LongTermMemoryManager.store_fact svc c now uuid text context importance
        = Ok (i, c') ->
        read "content" = Some (Chroma.VStr text)
        /\ read "memory_type" = Some (Chroma.VStr "fact")
        /\ read "source" = Some (Chroma.VStr "factual_information")
        /\ read "tags" = Some (Chroma.VStr "fact,information")
        /\ read "context" = Chroma.VStr <$> context).
Proof.
  intros Htext read. split; [| split].
  - intros conversation importance Hstore.
    destruct (store_then_get svc Hindex c c' now later uuid text "experience"
                importance (Some ["conversation"; "summary"])
                (Some conversation) (Some "conversation_summary") i Hstore Htext)
      as (r & Hget & _ & Hc & Hty & Hctx & Hsrc & _ & _ & _ & _ & _ & Htags & _).
    unfold read. rewrite Hget. cbn [Props.field]. by repeat split.
  - intros context Hstore.
    destruct (store_then_get svc Hindex c c' now later uuid text "preference"
                0.8%Q (Some ["preference"; "user"]) context
                (Some "user_preference") i Hstore Htext)
      as (r & Hget & _ & Hc & Hty & Hctx & Hsrc & Himp & _ & _ & _ & _ & Htags & _).
    unfold read. rewrite Hget. cbn [Props.field]. by repeat split.
  - intros context importance Hstore.
    destruct (store_then_get svc Hindex c c' now later uuid text "fact"
                importance (Some ["fact"; "information"]) context
                (Some "factual_information") i Hstore Htext)
      as (r & Hget & _ & Hc & Hty & Hctx & Hsrc & _ & _ & _ & _ & _ & Htags & _).
    unfold read. rewrite Hget. cbn [Props.field]. by repeat split.
Qed.

Lemma convenience_variants_read_back_witness :
  Props.field "tags"
    (LongTermMemoryManager.get_memory_by_id Instances.memory_index
       (match LongTermMemoryManager.store_user_preference Instances.memory_index
                [] 3 "c4d5" "I prefer tea" None with
        | Ok (_, c) => c
        | Raise _ => []
        end) 4 "c4d5")
  = Some (Chroma.VStr "preference,user").
Proof.
  destruct (convenience_variants_read_back Instances.memory_index
              memory_index_get_after_add []
              (match LongTermMemoryManager.store_user_preference
                       Instances.memory_index [] 3 "c4d5" "I prefer tea" None with
               | Ok (_, c) => c
               | Raise _ => []
               end) 3 4 "c4d5" "I prefer tea" "c4d5") as (_ & H & _);
    [discriminate |].
  destruct (H None) as (_ & _ & _ & _ & Ht & _); [vm_compute; reflexivity |].
  exact Ht.
Defined.

(** ** The analyzer *)

Lemma lower_ascii_idempotent (c : ascii) :
  lower_ascii (lower_ascii c) = lower_ascii c.
Proof.
  destruct c as [[] [] [] [] [] [] [] []]; vm_compute; reflexivity.
Qed.

Lemma lower_idempotent (s : string) : lower (lower s) = lower s.
Proof.
  induction s as [|c s IH]; [done |]. cbn [lower].
  by rewrite lower_ascii_idempotent, IH.
Qed.

Lemma contains_empty_hay (k : string) : k <> "" -> contains k "" = false.
Proof. by destruct k. Qed.

(** X15.  The analyzer returns at most three suggestions, each carrying the
    utterance as its content, of type preference or fact and of
    importance 0.8 or 0.9; it returns none exactly when no marker of any
    of the three categories occurs in the lower-cased utterance; and it
    does not depend on the case of the utterance: the lower-cased
    utterance gets suggestions of the same types, reasons and importances
    in the same order. *)
Theorem analyzer_output_shape (u r : string)
    (ms : list (gmap string Chroma.Value)) :
  let out := Analyzer._analyze_for_memory_storage u r ms in
  (length out <= 3)%nat
  /\ Forall (fun s =>
               Analyzer.s_content s = u
               /\ (Analyzer.s_type s = "preference" \/ Analyzer.s_type s = "fact")
               /\ (Analyzer.s_importance s = 0.8%Q
                   \/ Analyzer.s_importance s = 0.9%Q)) out
  /\ (out = []
      <-> forall k,
            In k (Analyzer.preference_keywords ++ Analyzer.personal_keywords
                  ++ Analyzer.fact_keywords)%list ->
            contains k (lower u) = false)
  /\ (fun s => (Analyzer.s_type s, Analyzer.s_reason s, Analyzer.s_importance s))
       <$> Analyzer._analyze_for_memory_storage (lower u) r ms
     = (fun s => (Analyzer.s_type s, Analyzer.s_reason s, Analyzer.s_importance s))
         <$> out.
Proof.
  intros out. unfold out, Analyzer._analyze_for_memory_storage.
  assert (Hlow : forall kws, Analyzer.any_keyword kws (lower u)
                             = Analyzer.any_keyword kws u).
  { intros kws. unfold Analyzer.any_keyword. by rewrite lower_idempotent. }
  rewrite !Hlow.
  assert (Hnone : forall kws,
    Analyzer.any_keyword kws u = false
    <-> forall k, In k kws -> contains k (lower u) = false).
  { intros kws. unfold Analyzer.any_keyword. rewrite <- not_true_iff_false.
    rewrite existsb_exists. split.
    - intros Hno k Hk. apply not_true_iff_false. intros Hc. apply Hno. eauto.
    - intros Hall (k & Hk & Hc). rewrite (Hall k Hk) in Hc. discriminate. }
  assert (Hall3 :
    (forall k,
        In k (Analyzer.preference_keywords ++ Analyzer.personal_keywords
              ++ Analyzer.fact_keywords)%list ->
        contains k (lower u) = false)
    <-> Analyzer.any_keyword Analyzer.preference_keywords u = false
        /\ Analyzer.any_keyword Analyzer.personal_keywords u = false
        /\ Analyzer.any_keyword Analyzer.fact_keywords u = false).
  { rewrite !Hnone. split.
    - intros H. repeat split; intros k Hk; apply H; rewrite !in_app_iff; auto.
    - intros (H1 & H2 & H3) k. rewrite !in_app_iff. intros [? | [? | ?]]; auto. }
  rewrite Hall3.
  destruct (Analyzer.any_keyword Analyzer.preference_keywords u),
    (Analyzer.any_keyword Analyzer.personal_keywords u),
    (Analyzer.any_keyword Analyzer.fact_keywords u).
  all: cbn [length app fmap list_fmap Analyzer.s_content Analyzer.s_type
            Analyzer.s_reason Analyzer.s_importance].
  all: split; [lia |].
  all: split; [repeat (constructor; [cbn; auto |]); constructor |].
  all: split; [| reflexivity].
  all: split; intros Hx; try done.
  all: destruct Hx as (? & ? & ?); done.
Qed.

(** The suggestions the analyzer can make, and the utterances it makes
    them for. *)
Lemma analyzer_suggestion (u r : string) (ms : list (gmap string Chroma.Value))
    (s : Analyzer.Suggestion) :
  In s (Analyzer._analyze_for_memory_storage u r ms) ->
  u <> ""
  /\ Analyzer.s_content s = u
  /\ (Analyzer.s_type s = "preference" \/ Analyzer.s_type s = "fact")
  /\ (Analyzer.s_importance s = 0.8%Q \/ Analyzer.s_importance s = 0.9%Q).
Proof.
  intros Hin. split.
  - intros ->. vm_compute in Hin. done.
  - unfold Analyzer._analyze_for_memory_storage in Hin.
    destruct (Analyzer.any_keyword Analyzer.preference_keywords u),
      (Analyzer.any_keyword Analyzer.personal_keywords u),
      (Analyzer.any_keyword Analyzer.fact_keywords u);
      cbn [app In] in Hin;
      repeat (destruct Hin as [<- | Hin]; [cbn; auto |]); done.
Qed.

(** X16.  A suggestion of the analyzer that [store_memory_suggestion] stores
    is read back by its identifier as the analyzer made it: the utterance
    as content, the suggested type, the suggested importance unchanged by
    the clamp, the reason in the context after the fixed prefix, no
    source and no tags. *)
Theorem suggestion_is_stored_as_suggested
    {Emb Coll : Type} (svc : Chroma.Services Emb Coll)
    (Hindex : Props.get_after_add svc) (c c' : Coll) (now later : Q)
    (uuid u r : string) (ms : list (gmap string Chroma.Value))
    (s : Analyzer.Suggestion) (i : string) :
  In s (Analyzer._analyze_for_memory_storage u r ms) ->
  MemoryAgent.store_memory_suggestion svc c now uuid s = Ok (i, c') ->
  exists record,
    LongTermMemoryManager.get_memory_by_id svc c' later i = Ok (Some record)
    /\ record !! "content" = Some (Chroma.VStr u)
    /\ record !! "memory_type" = Some (Chroma.VStr (Analyzer.s_type s))
    /\ record !! "importance" = Some (Chroma.VFloat (Analyzer.s_importance s))
    /\ record !! "context"
       = Some (Chroma.VStr
                 ("Stored from conversation - " ++ Analyzer.s_reason s))
    /\ record !! "source" = None
    /\ record !! "tags" = Some (Chroma.VStr "").
Proof.
  intros Hin Hstore.
  destruct (analyzer_suggestion u r ms s Hin) as (Hu & Hc & _ & Himp).
  unfold MemoryAgent.store_memory_suggestion in Hstore. rewrite Hc in Hstore.
  destruct (store_then_get svc Hindex c c' now later uuid u
              (Analyzer.s_type s) (Analyzer.s_importance s) None
              (Some ("Stored from conversation - " ++ Analyzer.s_reason s))
              None i Hstore Hu)
    as (record & Hget & _ & Hcontent & Hty & Hctx & Hsrc & Hi & _ & _ & _ & _
        & Htags & _).
  exists record. repeat split; try done.
  rewrite Hi. by destruct Himp as [-> | ->].
Qed.

Lemma suggestion_is_stored_as_suggested_witness :
  exists record,
    LongTermMemoryManager.get_memory_by_id Instances.memory_index
      (match MemoryAgent.store_memory_suggestion Instances.memory_index [] 3
               "aa01"
               {| Analyzer.s_type := "preference";
                  Analyzer.s_content := "I like tea";
                  Analyzer.s_reason := "User expressed a preference";
                  Analyzer.s_importance := 0.8 |} with
       | Ok (_, c) => c
       | Raise _ => []
       end) 4 "aa01" = Ok (Some record)
    /\ record !! "context"
       = Some (Chroma.VStr
                 "Stored from conversation - User expressed a preference").
Proof.
  destruct (suggestion_is_stored_as_suggested Instances.memory_index
              memory_index_get_after_add []
              (match MemoryAgent.store_memory_suggestion Instances.memory_index
                       [] 3 "aa01"
                       {| Analyzer.s_type := "preference";
                          Analyzer.s_content := "I like tea";
                          Analyzer.s_reason := "User expressed a preference";
                          Analyzer.s_importance := 0.8 |} with
               | Ok (_, c) => c
               | Raise _ => []
               end) 3 4 "aa01" "I like tea" "" []
              {| Analyzer.s_type := "preference";
                 Analyzer.s_content := "I like tea";
                 Analyzer.s_reason := "User expressed a preference";
                 Analyzer.s_importance := 0.8 |} "aa01")
    as (record & Hget & _ & _ & _ & Hctx & _).
  - vm_compute. by left.
  - vm_compute. reflexivity.
  - exists record. split; [exact Hget | exact Hctx].
Defined.

(** ** The two entry points of the agent *)

Ltac workflow_simpl :=
  cbn [Workflow.body Workflow.pure Workflow.next Workflow.handler
       Workflow.initial_state Workflow.set_error Workflow.set_relevant_memories
       Workflow.set_agent_response Workflow.set_suggestions
       Workflow.set_stored_memory_ids Workflow.messages Workflow.user_input
       Workflow.agent_response Workflow.relevant_memories
       Workflow.memory_suggestions Workflow.should_store_memory
       Workflow.stored_memory_ids Workflow.error fst snd] in *.

Section EntryPoints.
Import Workflow.
Context {W : Type} (agent : Agent W).

(** The loop of the store node keeps the identifiers it has, adds at
    most one per suggestion, one for each when no storage raises and
    none when every storage raises. *)
Lemma store_each_ids (suggestions : list Analyzer.Suggestion) :
  forall (stored_ids : list string) (w : W),
    exists new w',
      store_each agent suggestions stored_ids w
      = (Ok (stored_ids ++ new)%list, w')
      /\ (length new <= length suggestions)%nat
      /\ ((forall s w0, exists i w1,
              store_memory_suggestion agent s w0 = (Ok i, w1)) ->
          length new = length suggestions)
      /\ ((forall s w0, exists e w1,
              store_memory_suggestion agent s w0 = (Raise e, w1)) ->
          new = []).
Proof.
  induction suggestions as [|s rest IH]; intros stored_ids w; cbn [store_each].
  - exists [], w. rewrite app_nil_r. done.
  - destruct (store_memory_suggestion agent s w) as [[i | e] w1] eqn:Hs.
    + destruct (IH (stored_ids ++ [i])%list w1) as (new & w' & -> & Hle & Hall & Hno).
      exists (i :: new), w'. rewrite <- app_assoc. split; [done |].
      cbn [length]. split; [lia |]. split.
      * intros Hok. by rewrite (Hall Hok).
      * intros Hbad. destruct (Hbad s w) as (e & w2 & Hbad'). congruence.
    + destruct (IH stored_ids w1) as (new & w' & -> & Hle & Hall & Hno).
      exists new, w'. split; [done |]. cbn [length]. split; [lia |]. split.
      * intros Hok. destruct (Hok s w) as (i & w2 & Hok'). congruence.
      * done.
Qed.

(** Once a node has left an error, no later node clears it. *)
Lemma run_node_error_sticks (n : Node) (state : AgentState) (w : W) :
  n <> process_input -> is_Some (error state) ->
  is_Some (error (run_node agent n state w).1).
Proof.
  intros Hn Herr. unfold run_node.
  destruct (body agent n state w) as [[state' | e] w'] eqn:Hb; cbn [fst].
  - by rewrite (run_node_keeps_error agent n state state' w w' Hn Hb).
  - destruct n; try done; by eexists.
Qed.

Lemma next_not_process_input (n n' : Node) (state : AgentState) :
  next n state = Some n' -> n' <> process_input.
Proof.
  destruct n; cbn [next]; try congruence.
  destruct (String.eqb _ _); congruence.
Qed.

Lemma ainvoke_error_sticks (limit : nat) :
  forall (n : Node) (state : AgentState) (visited : list Node) (w : W)
         (final : AgentState) (visited' : list Node) (w' : W),
    n <> process_input -> is_Some (error state) ->
    ainvoke agent limit n state visited w = (Ok (final, visited'), w') ->
    is_Some (error final).
Proof.
  induction limit as [|limit IH]; intros n state visited w final visited' w'
    Hn Herr Hrun; [discriminate |].
  rewrite ainvoke_step in Hrun.
  pose proof (run_node_error_sticks n state w Hn Herr) as Hstep.
  destruct (run_node agent n state w) as [state1 w1]. cbn [fst] in Hstep.
  destruct (next n state1) as [n' |] eqn:Hnext.
  - eapply IH; [| exact Hstep | exact Hrun].
    by eapply next_not_process_input.
  - by injection Hrun as <- _ _.
Qed.

(** The graph on a turn in which no call before the storage raises. *)
Lemma ainvoke_success (u : string) (w w1 w2 w3 w4 w5 w6 : W)
    (ms : list (gmap string Chroma.Value)) (cx : list (string * string))
    (response : string) (suggestions : list Analyzer.Suggestion) :
  add_user_message agent u w = (Ok tt, w1) ->
  retrieve_memories agent u Config.MAX_LONG_TERM_MEMORIES w1 = (Ok ms, w2) ->
  _prepare_context agent u ms w2 = (Ok cx, w3) ->
  _generate_response agent cx w3 = (Ok response, w4) ->
  add_assistant_message agent response w4 = (Ok tt, w5) ->
  analyze_for_memory_storage agent u response ms w5 = (Ok suggestions, w6) ->
  exists ids visited w',
    ainvoke agent recursion_limit process_input (initial_state u) [] w
    = (Ok ({| messages := []; user_input := u; agent_response := response;
              relevant_memories := ms; memory_suggestions := suggestions;
              should_store_memory := (0 <? Z.of_nat (length suggestions));
              stored_memory_ids := ids; error := None |}, visited), w')
    /\ (length ids <= length suggestions)%nat
    /\ ((forall s w0, exists i w1,
            store_memory_suggestion agent s w0 = (Ok i, w1)) ->
        length ids = length suggestions).
Proof.
  intros H1 H2 H3 H4 H5 H6. unfold recursion_limit.
  rewrite ainvoke_step. unfold run_node at 1. workflow_simpl.
  unfold and_then at 1. rewrite H1. workflow_simpl.
  rewrite ainvoke_step. unfold run_node at 1.
  workflow_simpl. unfold and_then at 1. rewrite H2.
  workflow_simpl.
  rewrite ainvoke_step. unfold run_node at 1.
  workflow_simpl.
  unfold and_then at 1. rewrite H3. unfold and_then at 1. rewrite H4.
  unfold and_then at 1. rewrite H5. workflow_simpl.
  rewrite ainvoke_step. unfold run_node at 1.
  workflow_simpl.
  unfold and_then at 1. rewrite H6. workflow_simpl.
  unfold _should_store_memory.
  workflow_simpl.
  destruct suggestions as [|s rest].
  - change (0 <? Z.of_nat (length (@nil Analyzer.Suggestion))) with false.
    cbv iota. change (String.eqb "skip" "store") with false. cbv iota.
    rewrite ainvoke_step. unfold run_node. workflow_simpl.
    eexists [], _, _. split; [reflexivity |]. done.
  - assert (Hpos : (0 <? Z.of_nat (length (s :: rest))) = true)
      by (apply Z.ltb_lt; cbn [length]; lia).
    rewrite Hpos. cbv iota. change (String.eqb "store" "store") with true.
    cbv iota. rewrite ainvoke_step. unfold run_node at 1.
    workflow_simpl. unfold and_then at 1.
    destruct (store_each_ids (s :: rest) [] w6) as (ids & w' & Hst & Hle & Hall & _).
    rewrite Hst. workflow_simpl.
    rewrite ainvoke_step. unfold run_node. workflow_simpl.
    eexists ids, _, _. split; [reflexivity |]. done.
Qed.

End EntryPoints.

(** X17.  When reading the short-term context never raises,
    [MemoryAgentWorkflow.run] and [MemoryAgent.process_message] (with
    store_in_memory left True) agree on a turn: if the direct call
    reports no error, the graph reports error None and the same response,
    relevant memories and suggestions, and it stores at most one memory
    per suggestion, which the direct call never does; if the direct call
    reports an error, so does the graph. *)
Theorem workflow_agrees_with_process_message
    {W : Type} (agent : Workflow.Agent W) (u : string) (w : W) :
  (forall w0, exists cx w1,
      Workflow.get_conversation_context agent w0 = (Ok cx, w1)) ->
  let direct := (MemoryAgent.process_message agent u true w).1 in
  let graph := (Workflow.run agent u w).1 in
  (direct !! "error" = None ->
   graph !! "error" = Some Workflow.FNone
   /\ graph !! "response" = direct !! "response"
   /\ graph !! "relevant_memories" = direct !! "relevant_memories"
   /\ graph !! "memory_suggestions" = direct !! "memory_suggestions"
   /\ direct !! "stored_memory_ids" = None
   /\ exists ids suggestions,
        graph !! "stored_memory_ids" = Some (Workflow.FIds ids)
        /\ graph !! "memory_suggestions"
           = Some (Workflow.FSuggestions suggestions)
        /\ (length ids <= length suggestions)%nat)
  /\ (is_Some (direct !! "error") ->
      exists e, graph !! "error" = Some (Workflow.FStr e)).
Proof.
  intros Hctx direct graph.
  assert (Hgraph : forall final visited w',
    Workflow.ainvoke agent Workflow.recursion_limit Workflow.process_input
      (Workflow.initial_state u) [] w = (Ok (final, visited), w') ->
    graph !! "error" = Some (Workflow.of_error (Workflow.error final))
    /\ graph !! "response" = Some (Workflow.FStr (Workflow.agent_response final))
    /\ graph !! "relevant_memories"
       = Some (Workflow.FMemories (Workflow.relevant_memories final))
    /\ graph !! "memory_suggestions"
       = Some (Workflow.FSuggestions (Workflow.memory_suggestions final))
    /\ graph !! "stored_memory_ids"
       = Some (Workflow.FIds (Workflow.stored_memory_ids final))).
  { intros final visited w' Hrun. unfold graph, Workflow.run, Workflow.and_then.
    rewrite Hrun. destruct (Hctx w') as (cx & w'' & ->).
    cbn [fst Workflow.pure]. repeat split; by lookups. }
  assert (Hfail : forall final visited w',
    Workflow.ainvoke agent Workflow.recursion_limit Workflow.process_input
      (Workflow.initial_state u) [] w = (Ok (final, visited), w') ->
    is_Some (Workflow.error final) ->
    exists e, graph !! "error" = Some (Workflow.FStr e)).
  { intros final visited w' Hrun [e He].
    destruct (Hgraph final visited w' Hrun) as (-> & _). rewrite He. by exists e. }
  destruct (ainvoke_paths agent u w) as (final & visited & w' & Hrun & _).
  specialize (Hfail final visited w' Hrun).
  unfold Workflow.recursion_limit in Hrun. rewrite ainvoke_step in Hrun.
  unfold Workflow.run_node at 1 in Hrun.
  workflow_simpl.
  unfold Workflow.and_then at 1 in Hrun.
  assert (Hd : direct = (MemoryAgent.process_message agent u true w).1)
    by reflexivity.
  clearbody direct. unfold MemoryAgent.process_message in Hd.
  unfold Workflow.and_then at 1 in Hd.
  destruct (Workflow.add_user_message agent u w) as [[[] | e1] w1] eqn:H1.
  2: { cbn [fst] in Hd. subst direct.
       split; [intros Hno; by rewrite lookup_insert_ne, lookup_insert_eq in Hno |].
       intros _. apply Hfail.
       workflow_simpl.
       eapply (ainvoke_error_sticks agent); [| | exact Hrun]; [done |].
       by eexists. }
  unfold Workflow.and_then at 1 in Hd.
  destruct (Workflow.retrieve_memories agent u Config.MAX_LONG_TERM_MEMORIES w1)
    as [[ms | e2] w2] eqn:H2.
  2: { cbn [fst] in Hd. subst direct.
       split; [intros Hno; by rewrite lookup_insert_ne, lookup_insert_eq in Hno |].
       intros _. apply Hfail.
       workflow_simpl.
       rewrite ainvoke_step in Hrun. unfold Workflow.run_node at 1 in Hrun.
       workflow_simpl.
       unfold Workflow.and_then at 1 in Hrun. rewrite H2 in Hrun.
       workflow_simpl.
       eapply (ainvoke_error_sticks agent); [| | exact Hrun]; [done |].
       by eexists. }
  unfold Workflow.and_then at 1 in Hd.
  destruct (Workflow._prepare_context agent u ms w2) as [[cx | e3] w3] eqn:H3.
  2: { cbn [fst] in Hd. subst direct.
       split; [intros Hno; by rewrite lookup_insert_ne, lookup_insert_eq in Hno |].
       intros _. apply Hfail.
       workflow_simpl.
       rewrite ainvoke_step in Hrun. unfold Workflow.run_node at 1 in Hrun.
       workflow_simpl.
       unfold Workflow.and_then at 1 in Hrun. rewrite H2 in Hrun.
       workflow_simpl.
       rewrite ainvoke_step in Hrun. unfold Workflow.run_node at 1 in Hrun.
       workflow_simpl.
       unfold Workflow.and_then at 1 in Hrun. rewrite H3 in Hrun.
       workflow_simpl.
       eapply (ainvoke_error_sticks agent); [| | exact Hrun]; [done |].
       by eexists. }
  unfold Workflow.and_then at 1 in Hd.
  destruct (Workflow._generate_response agent cx w3) as [[response | e4] w4]
    eqn:H4.
  2: { cbn [fst] in Hd. subst direct.
       split; [intros Hno; by rewrite lookup_insert_ne, lookup_insert_eq in Hno |].
       intros _. apply Hfail.
       workflow_simpl.
       rewrite ainvoke_step in Hrun. unfold Workflow.run_node at 1 in Hrun.
       workflow_simpl.
       unfold Workflow.and_then at 1 in Hrun. rewrite H2 in Hrun.
       workflow_simpl.
       rewrite ainvoke_step in Hrun. unfold Workflow.run_node at 1 in Hrun.
       workflow_simpl.
       unfold Workflow.and_then at 1 in Hrun. rewrite H3 in Hrun.
       unfold Workflow.and_then at 1 in Hrun. rewrite H4 in Hrun.
       workflow_simpl.
       eapply (ainvoke_error_sticks agent); [| | exact Hrun]; [done |].
       by eexists. }
  unfold Workflow.and_then at 1 in Hd.
  destruct (Workflow.add_assistant_message agent response w4)
    as [[[] | e5] w5] eqn:H5.
  2: { cbn [fst] in Hd. subst direct.
       split; [intros Hno; by rewrite lookup_insert_ne, lookup_insert_eq in Hno |].
       intros _. apply Hfail.
       workflow_simpl.
       rewrite ainvoke_step in Hrun. unfold Workflow.run_node at 1 in Hrun.
       workflow_simpl.
       unfold Workflow.and_then at 1 in Hrun. rewrite H2 in Hrun.
       workflow_simpl.
       rewrite ainvoke_step in Hrun. unfold Workflow.run_node at 1 in Hrun.
       workflow_simpl.
       unfold Workflow.and_then at 1 in Hrun. rewrite H3 in Hrun.
       unfold Workflow.and_then at 1 in Hrun. rewrite H4 in Hrun.
       unfold Workflow.and_then at 1 in Hrun. rewrite H5 in Hrun.
       workflow_simpl.
       eapply (ainvoke_error_sticks agent); [| | exact Hrun]; [done |].
       by eexists. }
  unfold Workflow.and_then at 1 in Hd.
  destruct (Workflow.analyze_for_memory_storage agent u response ms w5)
    as [[suggestions | e6] w6] eqn:H6.
  2: { cbn [fst] in Hd. subst direct.
       split; [intros Hno; by rewrite lookup_insert_ne, lookup_insert_eq in Hno |].
       intros _. apply Hfail.
       workflow_simpl.
       rewrite ainvoke_step in Hrun. unfold Workflow.run_node at 1 in Hrun.
       workflow_simpl.
       unfold Workflow.and_then at 1 in Hrun. rewrite H2 in Hrun.
       workflow_simpl.
       rewrite ainvoke_step in Hrun. unfold Workflow.run_node at 1 in Hrun.
       workflow_simpl.
       unfold Workflow.and_then at 1 in Hrun. rewrite H3 in Hrun.
       unfold Workflow.and_then at 1 in Hrun. rewrite H4 in Hrun.
       unfold Workflow.and_then at 1 in Hrun. rewrite H5 in Hrun.
       workflow_simpl.
       rewrite ainvoke_step in Hrun. unfold Workflow.run_node at 1 in Hrun.
       workflow_simpl.
       unfold Workflow.and_then at 1 in Hrun. rewrite H6 in Hrun.
       workflow_simpl. unfold Workflow._should_store_memory in Hrun.
       workflow_simpl.
       change (String.eqb "skip" "store") with false in Hrun. cbv iota in Hrun.
       eapply (ainvoke_error_sticks agent); [| | exact Hrun]; [done |].
       by eexists. }
  unfold Workflow.and_then at 1 in Hd.
  destruct (Hctx w6) as (short_term & w7 & Hst). rewrite Hst in Hd.
  cbn [Workflow.pure fst] in Hd. subst direct. clear Hrun Hfail.
  destruct (ainvoke_success agent u w w1 w2 w3 w4 w5 w6 ms cx response
              suggestions H1 H2 H3 H4 H5 H6)
    as (ids & visited' & w'' & Hrun & Hle & _).
  destruct (Hgraph _ _ _ Hrun) as (Ge & Gr & Gm & Gs & Gi).
  cbn [Workflow.error Workflow.agent_response Workflow.relevant_memories
       Workflow.memory_suggestions Workflow.stored_memory_ids
       Workflow.of_error] in Ge, Gr, Gm, Gs, Gi.
  split.
  - intros _. rewrite Ge, Gr, Gm, Gs, Gi. lookups.
    do 5 (split; [done |]). by exists ids, suggestions.
  - intros [x Hx]. repeat (rewrite lookup_insert_ne in Hx by done).
    by rewrite lookup_empty in Hx.
Qed.

Lemma workflow_agrees_with_process_message_witness :
  (Workflow.run Instances.echo_agent "I like tea" []).1 !! "error"
  = Some Workflow.FNone.
Proof.
  destruct (workflow_agrees_with_process_message Instances.echo_agent
              "I like tea" []) as [Hok _].
  - intros w0. by exists w0, w0.
  - destruct Hok as (He & _); [vm_compute; reflexivity | exact He].
Defined.

(** The outcomes of the storages, one per suggestion, and their
    identifiers. *)
Lemma attempts_outcomes {W : Type} (agent : Workflow.Agent W)
    (suggestions : list Analyzer.Suggestion) :
  forall w : W,
    length (Props.attempts agent suggestions w).1 = length suggestions
    /\ (forall f,
          (forall s w0, (Workflow.store_memory_suggestion agent s w0).1 = f s) ->
          (Props.attempts agent suggestions w).1 = f <$> suggestions)
    /\ ((forall s w0, exists i w1,
            Workflow.store_memory_suggestion agent s w0 = (Ok i, w1)) ->
        length (omap Props.identifier (Props.attempts agent suggestions w).1)
        = length suggestions)
    /\ ((forall s w0, exists e w1,
            Workflow.store_memory_suggestion agent s w0 = (Raise e, w1)) ->
        omap Props.identifier (Props.attempts agent suggestions w).1 = []).
Proof.
  induction suggestions as [|s rest IH]; intros w; cbn [Props.attempts].
  - done.
  - destruct (Workflow.store_memory_suggestion agent s w) as [outcome w1] eqn:Hs.
    destruct (IH w1) as (Hlen & Hf & Hok & Hbad).
    destruct (Props.attempts agent rest w1) as [outcomes w'].
    cbn [fst snd length] in *. split; [by rewrite Hlen |]. split; [| split].
    + intros f Hall. cbn [fmap list_fmap]. rewrite <- (Hall s w), Hs.
      cbn [fst]. f_equal. by apply Hf.
    + intros Hall. destruct (Hall s w) as (i & w2 & Hi).
      rewrite Hi in Hs. injection Hs as <- _.
      cbn [omap list_omap Props.identifier length]. f_equal. by apply Hok.
    + intros Hall. destruct (Hall s w) as (e & w2 & He).
      rewrite He in Hs. injection Hs as <- _.
      cbn [omap list_omap Props.identifier]. by apply Hbad.
Qed.

(** X18.  The store node never raises and never touches the error field: it
    only writes stored_memory_ids, which receives the identifiers that
    [store_memory_suggestion] returned for the suggestions whose storage
    did not raise, in the order of the suggestions, each storage running
    on the agent state the previous one left.  So there is at most one
    identifier per suggestion, one for each when no storage raises and
    none when every storage raises; and when the outcome of a storage
    depends on the suggestion only, the identifiers are those of the
    suggestions whose outcome is not an exception. *)
Theorem store_node_skips_failed_suggestions
    {W : Type} (agent : Workflow.Agent W) (state : Workflow.AgentState) (w : W) :
  let suggestions := Workflow.memory_suggestions state in
  let outcomes := (Props.attempts agent suggestions w).1 in
  let ids := omap Props.identifier outcomes in
  Workflow.run_node agent Workflow.store_memory state w
  = (Workflow.set_stored_memory_ids ids state,
     (Props.attempts agent suggestions w).2)
  /\ length outcomes = length suggestions
  /\ (length ids <= length suggestions)%nat
  /\ (forall f,
        (forall s w0, (Workflow.store_memory_suggestion agent s w0).1 = f s) ->
        ids = omap (fun s => Props.identifier (f s)) suggestions)
  /\ ((forall s w0, exists i w1,
          Workflow.store_memory_suggestion agent s w0 = (Ok i, w1)) ->
      length ids = length suggestions)
  /\ ((forall s w0, exists e w1,
          Workflow.store_memory_suggestion agent s w0 = (Raise e, w1)) ->
      ids = []).
Proof.
  intros suggestions outcomes ids.
  destruct (attempts_outcomes agent suggestions w) as (Hlen & Hf & Hok & Hbad).
  split; [| split; [done | split; [| split; [| split; [done | done]]]]].
  - rewrite run_node_store_memory. fold suggestions.
    unfold ids, outcomes. by destruct (Props.attempts agent suggestions w).
  - unfold ids, outcomes. rewrite <- Hlen.
    generalize (Props.attempts agent suggestions w).1. clear. intros l.
    induction l as [|[i | e] rest IH];
      cbn [omap list_omap Props.identifier length]; lia.
  - intros f Hall. unfold ids, outcomes. rewrite (Hf f Hall).
    clear. induction suggestions as [|s rest IH]; [done |].
    cbn [fmap list_fmap omap list_omap]. rewrite IH. done.
Qed.

(** ** Batches of embeddings *)

Section Batches.
Context {T Emb : Type} (create : list T -> result (list Emb)) (texts : list T).

Lemma embed_texts_prefix (f : T -> Emb) (k : nat) :
  (forall batch, batch <> [] -> (length batch <= 100)%nat ->
     create batch = Ok (f <$> batch)) ->
  (100 * k < length texts + 100)%nat ->
  foldl
    (fun (acc : result (list Emb)) (i : nat) =>
       embeddings ← acc;
       batch_embeddings ← create (take 100 (drop i texts));
       mret (embeddings ++ batch_embeddings)%list)
    (Ok []) ((fun j => (100 * j)%nat) <$> seq 0 k)
  = Ok (f <$> take (100 * k) texts).
Proof.
  intros Hcreate. induction k as [|k IH]; intros Hk.
  - by rewrite Nat.mul_0_r, take_0.
  - rewrite seq_S, fmap_app, foldl_app, IH by lia. cbn [fmap list_fmap foldl].
    unfold mbind at 1, result_bind at 1. rewrite Nat.add_0_l.
    rewrite Hcreate.
    + unfold mbind, result_bind, mret, result_ret.
      rewrite <- fmap_app, take_take_drop. do 3 f_equal. lia.
    + intros Hnil. apply (f_equal length) in Hnil.
      rewrite length_take, length_drop in Hnil. cbn [length] in Hnil. lia.
    + rewrite length_take. lia.
Qed.

End Batches.

(** X19.  With an endpoint that answers every batch of one to a hundred
    texts with one embedding per text, in order, [embed_texts] answers
    any number of texts with one embedding per text, in order: the
    batches cover the list once, none is empty and none holds more than a
    hundred texts.  For no texts the endpoint is not called, and a
    failing endpoint makes the call raise whenever there is a text. *)
Theorem embed_texts_covers_the_texts_in_order
    {T Emb : Type} (create : list T -> result (list Emb)) (f : T -> Emb)
    (texts : list T) :
  (forall batch, batch <> [] -> (length batch <= 100)%nat ->
     create batch = Ok (f <$> batch)) ->
  Embeddings.embed_texts create texts = Ok (f <$> texts)
  /\ (forall failing : list T -> result (list Emb),
        Embeddings.embed_texts failing [] = Ok [])
  /\ (forall e, texts <> [] ->
        Embeddings.embed_texts (fun _ => Raise e) texts
        = (Raise e : result (list Emb))).
Proof.
  intros Hcreate.
  pose proof (Nat.div_mod_eq (length texts + 99) 100) as Hdiv.
  pose proof (Nat.mod_upper_bound (length texts + 99) 100) as Hmod.
  split; [| split].
  - unfold Embeddings.embed_texts, Embeddings.batch_starts.
    rewrite (embed_texts_prefix create texts f) by (done || lia).
    rewrite take_ge by lia. done.
  - done.
  - intros e Hne. unfold Embeddings.embed_texts, Embeddings.batch_starts.
    destruct ((length texts + 99) / 100)%nat as [|k] eqn:Hk.
    + destruct texts; [done |]. cbn [length] in *. lia.
    + clear. change (seq 0 (S k)) with (0%nat :: seq 1 k).
      cbn [fmap list_fmap foldl]. unfold mbind at 2, result_bind at 2.
      cbn [mbind result_bind].
      generalize ((fun j => (100 * j)%nat) <$> seq 1 k). intros l.
      induction l as [|i l IH]; [done |]. exact IH.
Qed.

Lemma embed_texts_covers_the_texts_in_order_witness :
  Embeddings.embed_texts Instances.lengths ["tea"; "coffee"] = Ok [3; 6]%nat.
Proof.
  destruct (embed_texts_covers_the_texts_in_order Instances.lengths
              String.length ["tea"; "coffee"]) as [H _]; [done |].
  exact H.
Defined.

(** ** Chunks *)

Section ChunkShape.
Import Embeddings.

Lemma len_slice_any (t : list ascii) (start size : Z) :
  0 <= size -> len (slice t start (start + size)) <= size.
Proof.
  intros Hz. pose proof (len_slice t start (start + size)) as H.
  pose proof (len_nonneg t). unfold clamp_index in H.
  destruct (start <? 0) eqn:E1; destruct (start + size <? 0) eqn:E2; lia.
Qed.

(** When the overlap is at least the chunk size, no pass moves
    [start] forward. *)
Lemma chunk_loop_never_returns (text : list ascii) (chunk_size overlap : Z) :
  0 < chunk_size -> chunk_size <= overlap -> 0 < len text ->
  forall (fuel : nat) (start : Z) (chunks : list (list ascii)),
    start <= 0 ->
    chunk_loop fuel text chunk_size overlap start chunks = None.
Proof.
  intros Hcs Hov Hlen. induction fuel as [|fuel IH]; intros start chunks Hs;
    [done |].
  cbn [chunk_loop].
  destruct (start <? len text) eqn:Hwhile; [| apply Z.ltb_ge in Hwhile; lia].
  set (chunk := slice text start (start + chunk_size)).
  assert (Hchunk : len chunk <= chunk_size) by (apply len_slice_any; lia).
  set (cut :=
    if start + chunk_size <? len text then
      if 4 * chunk_size <? 5 * rfind " " chunk then
        (slice chunk 0 (rfind " " chunk), start + rfind " " chunk)
      else (chunk, start + chunk_size)
    else (chunk, start + chunk_size)).
  assert (Hcut : cut.2 <= start + chunk_size).
  { unfold cut. pose proof (rfind_range " " chunk).
    destruct (start + chunk_size <? len text);
      [destruct (4 * chunk_size <? 5 * rfind " " chunk) |]; cbn [snd]; lia. }
  destruct cut as [chunk' end_]. cbn [snd] in Hcut.
  destruct (len text <=? end_ - overlap) eqn:Hbreak;
    [apply Z.leb_le in Hbreak; lia |].
  apply IH. lia.
Qed.

Lemma lstrip_head (t : list ascii) (c : ascii) :
  head (lstrip t) = Some c -> is_space c = false.
Proof.
  induction t as [|x t IH]; [done |]. cbn [lstrip].
  destruct (is_space x) eqn:E; [done |]. cbn [head]. congruence.
Qed.

Lemma lstrip_split (t : list ascii) : exists pre, t = (pre ++ lstrip t)%list.
Proof.
  induction t as [|x t [pre IH]]; [by exists [] |]. cbn [lstrip].
  destruct (is_space x); [| by exists []].
  exists (x :: pre). cbn [app]. by rewrite <- IH.
Qed.

Lemma last_rev (t : list ascii) : last (rev t) = head t.
Proof. destruct t as [|x t]; [done |]. cbn [rev head]. by rewrite last_snoc. Qed.

Lemma strip_stripped (t : list ascii) : Props.stripped (strip t).
Proof.
  unfold strip. split; intros c Hc.
  - destruct (lstrip_split (rev (lstrip t))) as [pre Hpre].
    apply (f_equal (@rev ascii)) in Hpre.
    rewrite rev_involutive, rev_app_distr in Hpre.
    apply (lstrip_head t c). rewrite Hpre.
    destruct (rev (lstrip (rev (lstrip t)))); [done |]. exact Hc.
  - rewrite last_rev in Hc. by eapply lstrip_head.
Qed.

(** What the loop adds to the chunks it has: stripped slices, at most
    one per pass. *)
Lemma chunk_loop_adds (text : list ascii) (chunk_size overlap : Z) :
  forall (fuel : nat) (start : Z) (chunks res : list (list ascii)),
    chunk_loop fuel text chunk_size overlap start chunks = Some res ->
    Forall Props.stripped chunks ->
    Forall Props.stripped res /\ (length res <= length chunks + fuel)%nat.
Proof.
  induction fuel as [|fuel IH]; intros start chunks res Hres Hall; [done |].
  cbn [chunk_loop] in Hres.
  destruct (start <? len text);
    [| injection Hres as <-; split; [done | lia]].
  destruct (if start + chunk_size <? len text
            then
              if 4 * chunk_size
                 <? 5 * rfind " " (slice text start (start + chunk_size))
              then
                (slice (slice text start (start + chunk_size)) 0
                   (rfind " " (slice text start (start + chunk_size))),
                 start + rfind " " (slice text start (start + chunk_size)))
              else (slice text start (start + chunk_size), start + chunk_size)
            else (slice text start (start + chunk_size), start + chunk_size))
    as [chunk' end_].
  assert (Hall' : Forall Props.stripped (chunks ++ [strip chunk'])).
  { apply Forall_app. split; [done |]. constructor; [| done].
    apply strip_stripped. }
  destruct (len text <=? end_ - overlap).
  - injection Hres as <-. split; [done |]. rewrite length_app. cbn [length]. lia.
  - destruct (IH _ _ _ Hres Hall') as [H1 H2]. split; [done |].
    rewrite length_app in H2. cbn [length] in H2. lia.
Qed.

End ChunkShape.

(** X20.  With an effective overlap (the argument, or 200 when the argument is
    None or 0) that is non-negative and below 0.8 times the effective
    chunk size (the argument, or 1000), [chunk_text] returns within
    [len(text) + 1] passes of its loop.  A text that fits in one chunk is
    returned as the only chunk, unchanged; a longer text gives between
    one and [len(text) + 1] chunks, each of which fits in the chunk size
    and has no white space at either end. *)
Theorem chunk_text_returns_stripped_chunks
    (text : list ascii) (chunk_size overlap : option Z) :
  let cs := or_int chunk_size Config.CHUNK_SIZE in
  let ov := or_int overlap Config.CHUNK_OVERLAP in
  0 < cs -> 0 <= ov -> 5 * ov < 4 * cs ->
  exists chunks,
    Embeddings.chunk_text (S (length text)) text chunk_size overlap = Some chunks
    /\ chunks <> []
    /\ Forall (fun c => Embeddings.len c <= cs) chunks
    /\ (Embeddings.len text <= cs -> chunks = [text])
    /\ (cs < Embeddings.len text ->
        Forall Props.stripped chunks
        /\ (length chunks <= S (length text))%nat).
Proof.
  intros cs ov Hcs Hov Hlt.
  destruct (chunk_text_terminates text chunk_size overlap Hcs Hov Hlt)
    as (chunks & Hrun & Hne & Hfit).
  exists chunks. split; [done |]. split; [done |]. split; [done |].
  unfold Embeddings.chunk_text in Hrun. fold cs in Hrun. fold ov in Hrun. split.
  - intros Hshort. apply Z.leb_le in Hshort. rewrite Hshort in Hrun. congruence.
  - intros Hlong. apply Z.leb_gt in Hlong. rewrite Hlong in Hrun.
    destruct (chunk_loop_adds text cs ov _ _ _ _ Hrun) as [H1 H2]; [done |].
    split; [done |]. cbn [length] in H2. lia.
Qed.

Lemma chunk_text_returns_stripped_chunks_witness :
  Embeddings.chunk_text 19 (list_ascii_of_string "one two three four")
    (Some 8) (Some 2)
  = Some [list_ascii_of_string "one two"; list_ascii_of_string "wo three";
          list_ascii_of_string "ee four"; list_ascii_of_string "r"]
  /\ Forall Props.stripped
       [list_ascii_of_string "one two"; list_ascii_of_string "wo three";
        list_ascii_of_string "ee four"; list_ascii_of_string "r"]
  /\ Forall (fun c => Embeddings.len c <= 8)
       [list_ascii_of_string "one two"; list_ascii_of_string "wo three";
        list_ascii_of_string "ee four"; list_ascii_of_string "r"].
Proof.
  destruct (chunk_text_returns_stripped_chunks
              (list_ascii_of_string "one two three four") (Some 8) (Some 2))
    as (chunks & Hrun & _ & Hfit & _ & Hlong);
    [reflexivity | discriminate | reflexivity |].
  destruct Hlong as [Hstripped _]; [reflexivity |].
  assert (Hchunks :
    Embeddings.chunk_text 19 (list_ascii_of_string "one two three four")
      (Some 8) (Some 2)
    = Some [list_ascii_of_string "one two"; list_ascii_of_string "wo three";
            list_ascii_of_string "ee four"; list_ascii_of_string "r"])
    by (vm_compute; reflexivity).
  assert (Hsame : Some chunks
                  = Some [list_ascii_of_string "one two";
                          list_ascii_of_string "wo three";
                          list_ascii_of_string "ee four";
                          list_ascii_of_string "r"])
    by (rewrite <- Hrun; exact Hchunks).
  injection Hsame as ->. split; [exact Hchunks |]. split; [exact Hstripped |].
  exact Hfit.
Defined.

(** X21.  When the effective overlap is at least the effective chunk size,
    [chunk_text] never returns on a text longer than the chunk size,
    however many passes its loop is given.  With the default overlap of
    200 this is every call with a chunk size of at most 200. *)
Theorem chunk_text_never_returns_when_the_overlap_covers_the_chunk
    (fuel : nat) (text : list ascii) (chunk_size overlap : option Z) :
  let cs := or_int chunk_size Config.CHUNK_SIZE in
  let ov := or_int overlap Config.CHUNK_OVERLAP in
  0 < cs -> cs <= ov -> cs < Embeddings.len text ->
  Embeddings.chunk_text fuel text chunk_size overlap = None.
Proof.
  intros cs ov Hcs Hov Hlong. unfold Embeddings.chunk_text. fold cs. fold ov.
  apply Z.leb_gt in Hlong as Hlong'. rewrite Hlong'.
  apply chunk_loop_never_returns; lia.
Qed.

Lemma chunk_text_never_returns_when_the_overlap_covers_the_chunk_witness :
  Embeddings.chunk_text 1000 (list_ascii_of_string "one two three four")
    (Some 8) None = None.
Proof.
  apply (chunk_text_never_returns_when_the_overlap_covers_the_chunk 1000
           (list_ascii_of_string "one two three four") (Some 8) None);
    [reflexivity | discriminate | reflexivity].
Defined.

(** X22.  With an endpoint that answers every batch of one to a hundred
    chunks with one embedding per chunk, in order, [embed_document]
    returns, for every text, one pair per chunk of [chunk_text] with its
    default sizes, each chunk with its own embedding and in order.  An
    endpoint that answers with fewer embeddings than chunks raises no
    error: the chunks without an embedding are left out. *)
Theorem embed_document_pairs_each_chunk
    {Emb : Type} (create : list (list ascii) -> result (list Emb))
    (f : list ascii -> Emb) (text : list ascii) :
  (forall batch, batch <> [] -> (length batch <= 100)%nat ->
     create batch = Ok (f <$> batch)) ->
  (exists chunks,
      Embeddings.chunk_text (S (length text)) text None None = Some chunks
      /\ chunks <> []
      /\ Embeddings.embed_document create (S (length text)) text
         = Some (Ok ((fun c => (c, f c)) <$> chunks)))
  /\ (forall short : list (list ascii) -> result (list Emb),
        (forall batch, short batch = Ok []) ->
        Embeddings.embed_document short (S (length text)) text = Some (Ok [])).
Proof.
  intros Hcreate.
  destruct (chunk_text_terminates text None None)
    as (chunks & Hrun & Hne & _); [reflexivity | discriminate | reflexivity |].
  split.
  - exists chunks. split; [done |]. split; [done |].
    unfold Embeddings.embed_document. rewrite Hrun.
    pose proof (Nat.div_mod_eq (length chunks + 99) 100) as Hdiv.
    pose proof (Nat.mod_upper_bound (length chunks + 99) 100) as Hmod.
    unfold Embeddings.embed_texts, Embeddings.batch_starts.
    rewrite (embed_texts_prefix create chunks f) by (done || lia).
    rewrite take_ge by lia. unfold mbind, result_bind, mret, result_ret.
    do 2 f_equal. clear. induction chunks as [|c l IH]; [done |].
    cbn [fmap list_fmap zip zip_with]. f_equal. exact IH.
  - intros short Hshort. unfold Embeddings.embed_document. rewrite Hrun.
    assert (Hall : Embeddings.embed_texts short chunks = Ok []).
    { unfold Embeddings.embed_texts.
      generalize (Embeddings.batch_starts (length chunks)). intros l.
      induction l as [|i l IH]; [done |]. cbn [foldl].
      unfold mbind at 2, result_bind at 2. cbn [mbind result_bind].
      rewrite Hshort. exact IH. }
    rewrite Hall. unfold mbind, result_bind, mret, result_ret.
    by destruct chunks.
Qed.

Lemma embed_document_pairs_each_chunk_witness :
  Embeddings.embed_document (fun batch => Ok (length <$> batch))
    (S (length Instances.long_text)) Instances.long_text
  = Some (Ok [(repeat "a"%char 1000, 1000%nat);
              (repeat "a"%char 400, 400%nat)])
  /\ Embeddings.embed_document (fun _ => Ok (@nil nat))
       (S (length Instances.long_text)) Instances.long_text
     = Some (Ok []).
Proof.
  destruct (embed_document_pairs_each_chunk (fun batch => Ok (length <$> batch))
              length Instances.long_text) as [(chunks & Hc & _ & Hd) Hshort];
    [done |].
  split; [| by apply (Hshort (fun _ => Ok (@nil nat)))].
  assert (Hchunks :
    Embeddings.chunk_text (S (length Instances.long_text)) Instances.long_text
      None None
    = Some [repeat "a"%char 1000; repeat "a"%char 400])
    by (vm_compute; reflexivity).
  rewrite Hchunks in Hc. injection Hc as <-. exact Hd.
Defined.

(** ** The context handed to the language model *)

Section Rendering.
Import MemoryAgent.
Context (fmt : Formatting).
Hypothesis upper_total : forall v, exists s, upper fmt v = Ok s.
Hypothesis format_total : forall v, exists s, format_2f fmt v = Ok s.

Lemma memory_line_outcome (i : nat) (memory : gmap string Chroma.Value) :
  (Props.renderable memory -> exists s, memory_line fmt i memory = Ok s)
  /\ (~ Props.renderable memory -> memory_line fmt i memory = Raise "KeyError").
Proof.
  unfold Props.renderable, memory_line, item.
  destruct (memory !! "memory_type") as [ty |] eqn:Hty.
  2: { split; [by intros ([? ?] & _) | done]. }
  cbn [mbind result_bind]. destruct (upper_total ty) as [shout ->].
  cbn [mbind result_bind].
  destruct (memory !! "content") as [content |] eqn:Hcontent.
  2: { split; [by intros (_ & [? ?] & _) | done]. }
  cbn [mbind result_bind].
  destruct (memory !! "context") as [context |] eqn:Hcontext.
  - destruct (truthy_value (Some context)); cbn [mbind result_bind mret result_ret];
      (destruct (memory !! "similarity") as [similarity |] eqn:Hsim;
       [| split; [by intros (_ & _ & [? ?]) | done]]);
      cbn [mbind result_bind]; destruct (format_total similarity) as [shown ->];
      cbn [mbind result_bind mret result_ret];
      (split; [intros _; by eexists | intros Hno; exfalso; apply Hno; eauto]).
  - cbn [truthy_value mbind result_bind mret result_ret].
    destruct (memory !! "similarity") as [similarity |] eqn:Hsim;
      [| split; [by intros (_ & _ & [? ?]) | done]].
    cbn [mbind result_bind]. destruct (format_total similarity) as [shown ->].
    cbn [mbind result_bind mret result_ret].
    split; [intros _; by eexists | intros Hno; exfalso; apply Hno; eauto].
Qed.

Lemma renderable_dec (memory : gmap string Chroma.Value) :
  Props.renderable memory \/ ~ Props.renderable memory.
Proof.
  unfold Props.renderable.
  destruct (memory !! "memory_type"), (memory !! "content"),
    (memory !! "similarity");
    first [ left; by eauto
          | right; intros (H1 & H2 & H3);
            first [by destruct H1 | by destruct H2 | by destruct H3] ].
Qed.

Lemma memory_lines_outcome (memories : list (gmap string Chroma.Value)) :
  forall (i : nat) (memory_context : string),
    (Forall Props.renderable memories ->
     exists s, memory_lines fmt i memories memory_context = Ok s)
    /\ (Exists (fun memory => ~ Props.renderable memory) memories ->
        memory_lines fmt i memories memory_context = Raise "KeyError").
Proof.
  induction memories as [|memory rest IH]; intros i memory_context.
  - split; [intros _; by eexists | intros H; inversion H].
  - cbn [memory_lines].
    destruct (memory_line_outcome i memory) as [Hok Hbad].
    destruct (renderable_dec memory) as [Hr | Hr].
    + destruct (Hok Hr) as [line ->]. cbn [mbind result_bind].
      destruct (IH (S i) (memory_context ++ line)) as [IHok IHbad].
      split.
      * intros Hall. apply IHok. by inversion Hall.
      * intros Hex. apply IHbad. inversion Hex; [done | done].
    + rewrite (Hbad Hr). split; [| done].
      intros Hall. by inversion Hall.
Qed.

End Rendering.

(** X23.  The messages [_prepare_context] builds: the system message
    first, whose content starts with the system prompt and is the system
    prompt alone when no memory was retrieved, then the conversation
    history, then the current user message last.  When the history ends
    with the current user message, that one entry is left out, so that
    the message is not sent twice; any other history is sent whole. *)
Theorem prepared_context_shape
    (fmt : MemoryAgent.Formatting) (system_prompt : string)
    (conversation_history : list (string * string)) (user_message : string)
    (relevant_memories : list (gmap string Chroma.Value))
    (messages : list (string * string)) :
  MemoryAgent._prepare_context fmt system_prompt conversation_history
    user_message relevant_memories = Ok messages ->
  exists memory_context history,
    messages
    = ("system", system_prompt ++ memory_context)
        :: (history ++ [("user", user_message)])%list
    /\ (relevant_memories = [] -> memory_context = "")
    /\ (forall earlier,
          conversation_history = (earlier ++ [("user", user_message)])%list ->
          history = earlier)
    /\ (last conversation_history <> Some ("user", user_message) ->
        history = conversation_history).
Proof.
  unfold MemoryAgent._prepare_context. intros Hrun.
  assert (Hsys : exists memory_context,
    (match relevant_memories with
     | [] => Ok system_prompt
     | _ :: _ =>
       memory_context ←
         MemoryAgent.memory_lines fmt 1 relevant_memories
           (String "010" (String "010" "RELEVANT MEMORIES:" ++ String "010" ""));
       mret (system_prompt ++ memory_context)
     end) = Ok (system_prompt ++ memory_context)
    /\ (relevant_memories = [] -> memory_context = "")).
  { destruct relevant_memories as [|m rest].
    - exists "". split; [| done]. f_equal. clear.
      induction system_prompt as [|c s IH]; [done |].
      change (String c s = String c (s ++ "")). by f_equal.
    - destruct (MemoryAgent.memory_lines fmt 1 (m :: rest) _) as [mc | e];
        [| discriminate].
      exists mc. split; [done | done]. }
  destruct Hsys as (memory_context & Hsys & Hnone). rewrite Hsys in Hrun.
  cbn [mbind result_bind mret result_ret] in Hrun. injection Hrun as <-.
  exists memory_context. eexists. split; [reflexivity |]. split; [done |].
  split.
  - intros earlier ->. rewrite last_snoc, !String.eqb_refl. cbn [andb].
    rewrite length_app. cbn [length].
    replace (length earlier + 1 - 1)%nat with (length earlier) by lia.
    by rewrite take_app_length.
  - intros Hlast. destruct (last conversation_history) as [[role content] |];
      [| done].
    destruct (String.eqb role "user") eqn:Hrole; [| done].
    destruct (String.eqb content user_message) eqn:Hcontent; [| done].
    apply String.eqb_eq in Hrole, Hcontent. congruence.
Qed.

Lemma prepared_context_shape_witness :
  exists memory_context history,
    [("system", "Be kind."); ("user", "hello"); ("assistant", "hi");
     ("user", "I like tea")]
    = ("system", "Be kind." ++ memory_context)
        :: (history ++ [("user", "I like tea")])%list
    /\ history = [("user", "hello"); ("assistant", "hi")].
Proof.
  destruct (prepared_context_shape Instances.plain "Be kind."
              [("user", "hello"); ("assistant", "hi"); ("user", "I like tea")]
              "I like tea" []
              [("system", "Be kind."); ("user", "hello"); ("assistant", "hi");
               ("user", "I like tea")] eq_refl)
    as (memory_context & history & Hm & _ & Hh & _).
  exists memory_context, history. split; [exact Hm |].
  by apply (Hh [("user", "hello"); ("assistant", "hi")]).
Defined.

(** X24.  With conversions that never raise, [_prepare_context] returns
    exactly when every retrieved memory holds the keys memory_type,
    content and similarity, and raises KeyError as soon as one of them
    lacks one.  The records that [retrieve_memories] builds always hold
    content and similarity, and hold memory_type when the stored metadata
    does, as it does for every memory written by [store_memory]. *)
Theorem prepare_context_needs_three_keys
    (fmt : MemoryAgent.Formatting) (system_prompt : string)
    (conversation_history : list (string * string)) (user_message : string)
    (relevant_memories : list (gmap string Chroma.Value)) :
  (forall v, exists s, MemoryAgent.upper fmt v = Ok s) ->
  (forall v, exists s, MemoryAgent.format_2f fmt v = Ok s) ->
  (Forall Props.renderable relevant_memories ->
   exists messages,
     MemoryAgent._prepare_context fmt system_prompt conversation_history
       user_message relevant_memories = Ok messages)
  /\ (Exists (fun memory => ~ Props.renderable memory) relevant_memories ->
      MemoryAgent._prepare_context fmt system_prompt conversation_history
        user_message relevant_memories = Raise "KeyError")
  /\ (forall now found,
        Forall2 (fun m r => LongTermMemoryManager.memory_result now m = Ok r)
          found relevant_memories ->
        Forall (fun m => is_Some (VectorStore.metadata m !! "memory_type"))
          found ->
        Forall Props.renderable relevant_memories).
Proof.
  intros Hupper Hformat. unfold MemoryAgent._prepare_context.
  split; [| split].
  - intros Hall. destruct relevant_memories as [|m rest].
    + cbn [mbind result_bind mret result_ret]. by eexists.
    + destruct (memory_lines_outcome fmt Hupper Hformat (m :: rest) 1
                  (String "010"
                     (String "010" "RELEVANT MEMORIES:" ++ String "010" "")))
        as [Hok _].
      destruct (Hok Hall) as [mc ->].
      cbn [mbind result_bind mret result_ret]. by eexists.
  - intros Hex. destruct relevant_memories as [|m rest]; [inversion Hex |].
    destruct (memory_lines_outcome fmt Hupper Hformat (m :: rest) 1
                (String "010"
                   (String "010" "RELEVANT MEMORIES:" ++ String "010" "")))
      as [_ Hbad].
    by rewrite (Hbad Hex).
  - intros now found Hbuilt. induction Hbuilt as [|m r found' rest Hr _ IH];
      intros Hty; [done |].
    apply Forall_cons in Hty as [[ty Hty] Hrest].
    constructor; [| by apply IH].
    unfold LongTermMemoryManager.memory_result in Hr.
    apply refresh_spec in Hr as (_ & _ & Hk).
    unfold Props.renderable.
    rewrite !Hk by done. rewrite Hty.
    split; [by eexists |]. split.
    + destruct (VectorStore.metadata m !! "content"); [by eexists |].
      lookups. by eexists.
    + destruct (VectorStore.metadata m !! "similarity"); [by eexists |].
      lookups. by eexists.
Qed.

Lemma prepare_context_needs_three_keys_witness :
  MemoryAgent._prepare_context Instances.plain "Be kind." [] "hello"
    [<["content" := Chroma.VStr "I am allergic to peanuts"]> ∅]
  = Raise "KeyError".
Proof.
  destruct (prepare_context_needs_three_keys Instances.plain "Be kind." []
              "hello"
              [<["content" := Chroma.VStr "I am allergic to peanuts"]> ∅])
    as (_ & Hbad & _).
  - intros v. by eexists.
  - intros v. by eexists.
  - apply Hbad. constructor. intros ([x Hx] & _).
    rewrite lookup_insert_ne, lookup_empty in Hx by done. done.
Defined.

(** ** Names of collections and retrieval by type *)

(** X25.  [VectorStore.__init__] and
    [SessionManager.generate_collection_name] give a user and a session
    the same collection name as long as both identifiers are non-empty.
    They disagree on an empty session identifier, for which the store
    opens the user's global collection.  Once a user identifier is given
    the store ignores the collection name it is passed, and without a
    user identifier it ignores the session identifier, so that all such
    stores share one collection. *)
Theorem store_and_registry_name_collections_alike
    (name : option string) (u s : string) :
  u <> "" ->
  (s <> "" ->
   Namespace.collection_name name (Some u) (Some s)
   = Namespace.generate_collection_name u s)
  /\ Namespace.collection_name name (Some u) (Some "")
     = Namespace.collection_name name (Some u) None
  /\ Namespace.collection_name name (Some u) (Some "")
     <> Namespace.generate_collection_name u ""
  /\ (forall name',
        Namespace.collection_name name' (Some u) (Some s)
        = Namespace.collection_name name (Some u) (Some s))
  /\ (forall s1 s2,
        Namespace.collection_name name None s1
        = Namespace.collection_name name None s2)
  /\ (forall s1 s2,
        Namespace.collection_name name (Some "") s1
        = Namespace.collection_name name None s2).
Proof.
  intros Hu. apply String.eqb_neq in Hu as Hu'.
  unfold Namespace.collection_name, Namespace.generate_collection_name,
    truthy_str.
  rewrite Hu'. cbn [negb andb default].
  split; [| split; [| split; [| split; [| split]]]].
  - intros Hs. apply String.eqb_neq in Hs. by rewrite Hs.
  - done.
  - change (String.eqb "" "") with true. cbn [negb].
    intros Heq. apply append_cancel_l in Heq. apply append_cancel_l in Heq.
    discriminate.
  - done.
  - done.
  - done.
Qed.

Lemma store_and_registry_name_collections_alike_witness :
  Namespace.collection_name (Some "notes") (Some "user_0000000a")
    (Some "session_00000000000a")
  = Namespace.generate_collection_name "user_0000000a" "session_00000000000a".
Proof.
  destruct (store_and_registry_name_collections_alike (Some "notes")
              "user_0000000a" "session_00000000000a") as [H _];
    [discriminate |].
  apply H. discriminate.
Defined.

(** X26.  [get_memories_by_type] never raises.  For a non-empty type name
    every record it returns has exactly that type, and for a positive
    limit it returns at most that many records; a limit of 0 is taken as
    the configured default of 5. *)
Theorem get_memories_by_type_returns_that_type
    {Emb Coll : Type} (svc : Chroma.Services Emb Coll) (c : Coll) (now : Q)
    (memory_type : string) (limit : Z) :
  memory_type <> "" ->
  (exists res,
      LongTermMemoryManager.get_memories_by_type svc c now memory_type limit
      = Ok res
      /\ Forall (fun r => r !! "memory_type" = Some (Chroma.VStr memory_type))
           res
      /\ (0 < limit -> Z.of_nat (length res) <= limit))
  /\ LongTermMemoryManager.get_memories_by_type svc c now memory_type 0
     = LongTermMemoryManager.get_memories_by_type svc c now memory_type
         Config.MAX_LONG_TERM_MEMORIES.
Proof.
  intros Hty. split; [| reflexivity].
  unfold LongTermMemoryManager.get_memories_by_type.
  destruct (retrieve_memories_spec svc c now memory_type (Some memory_type)
              (Some limit) None) as (res & Hres & Htype & _ & _ & Hlen).
  exists res. split; [done |]. split; [by apply Htype |].
  intros Hpos. unfold or_int in Hlen.
  destruct (limit =? 0) eqn:E; [apply Z.eqb_eq in E; lia |]. by apply Hlen.
Qed.

Lemma get_memories_by_type_returns_that_type_witness :
  exists res,
    LongTermMemoryManager.get_memories_by_type Instances.memory_index
      Instances.peanuts 200 "fact" 10 = Ok res
    /\ Forall (fun r => r !! "memory_type" = Some (Chroma.VStr "fact")) res.
Proof.
  destruct (get_memories_by_type_returns_that_type Instances.memory_index
              Instances.peanuts 200 "fact" 10) as [(res & Hres & Hty & _) _];
    [discriminate |].
  exists res. split; [exact Hres | exact Hty].
Defined.
